(** * fsm-orchestrator: the workflow resolution engine and its task layer

    A shallow embedding of [src/orchestrator/Workflow.ts], of the [Action]
    class, of the [Orchestrator] task registry and of the types they share
    ([IState], [IEvent], [IActionLogData], [IInvocationLog], [ITask],
    [ITrigger]), followed by the properties of trigger resolution, failure
    containment, state commit and audit logging.

    Conventions of the embedding.
    - A JavaScript [Map] iterates in insertion order, and that order is what
      [Workflow.handleEvent] walks: maps are association lists ([JsMap]).
    - Methods run in a small monad [M S A] over the receiver [S]: a call
      either returns or throws, always leaves a receiver behind (a throw
      does not roll mutations back) and records the user callbacks it made
      (a trigger's [condition], an action's guard, an action's body).
    - Objects held by reference inside the orchestrator (a workflow, a task)
      are addressed the way the source finds them: the first entry of the
      array with the given key or id.
    - [condition] and [canBeInvoked] are total boolean-valued functions, as
      their TypeScript signatures say; an action body may return or throw.
      A condition or a guard that throws instead of answering is covered
      by [Faults], [Throwing.Workflow_handleEvent] and
      [Throwing.Orchestrator_handleEvent]: the same methods, with the two
      callbacks allowed to throw; they agree with [Workflow.handleEvent]
      and [Orchestrator.handleEvent] wherever those callbacks answer.
    - [cost] is handed through and never computed with; it is kept as an
      integer.
    - [uuidv4()] and [new Date()] are inputs of the call that reads them. *)

From Stdlib Require Import String List Bool ZArith Lia.
Import ListNotations.
Open Scope string_scope.

(** ** JavaScript values and insertion-ordered maps *)

(** [Record<string, any>]: the core never looks inside. *)
#[warnings="-register-all"]
Inductive JsValue : Type :=
| JsUndefined
| JsNull
| JsBoolean (b : bool)
| JsNumber (z : Z)
| JsString (s : string)
| JsArray (items : list JsValue)
| JsObject (fields : list (string * JsValue)).

Definition Data : Type := list (string * JsValue).

(** [x ?? d] *)
Definition nullish {A : Type} (x : option A) (d : A) : A :=
  match x with
  | Some a => a
  | None => d
  end.

Notation "x ?? d" := (nullish x d) (at level 45, left associativity).

(** [!!s] for an optional string: [undefined] and the empty string are false. *)
Definition truthy (s : option string) : bool :=
  match s with
  | Some str => negb (str =? "")
  | None => false
  end.

Module JsMap.
Section Defs.
Context {V : Type}.

Definition t : Type := list (string * V).

Definition empty : t := [].

Fixpoint get (k : string) (m : t) : option V :=
  match m with
  | [] => None
  | (k', v) :: m' => if k' =? k then Some v else get k m'
  end.

Definition has (k : string) (m : t) : bool :=
  match get k m with
  | Some _ => true
  | None => false
  end.

(** [set] overwrites in place when the key is there and appends otherwise. *)
Fixpoint set (k : string) (v : V) (m : t) : t :=
  match m with
  | [] => [(k, v)]
  | (k', v') :: m' => if k' =? k then (k', v) :: m' else (k', v') :: set k v m'
  end.

Definition values (m : t) : list V := map snd m.

Definition size (m : t) : nat := length m.
End Defs.
Arguments t : clear implicits.
End JsMap.

(** ** Shared types (types/memory.ts, types/logs.ts, types/action.ts) *)

Module IState.
Record t : Type := mk { key : string; data : Data }.
End IState.

Module IEvent.
Record t : Type := mk { key : string; payload : option Data }.
End IEvent.

(** The descriptor's [buildPayload] callback is never called by the core and
  is left out of the record. *)
Module IEmitEvent.
Record t : Type := mk { key : string }.
End IEmitEvent.

Module IActionLogData.
Record t : Type := mk {
  action_key : option string;
  cost : Z;
  success : bool;
  message : option string;
  data : option Data;
  new_state : option IState.t;
  emitEvent : option IEmitEvent.t }.
End IActionLogData.

Module IInvocationLog.
Record t : Type := mk {
  timestamp : string;
  task_id : string;
  success : bool;
  message : option string;
  event : IEvent.t;
  action_log_data : option IActionLogData.t }.
End IInvocationLog.

Module TCanBeInvoked.
Record t : Type := mk { can : bool; description : string }.
End TCanBeInvoked.

Module Messenger.
Record t : Type := mk {
  recipientRoles : list string;
  messages : JsMap.t JsValue }.
End Messenger.

(** ** Calls that return or throw *)

(** A thrown value, seen through [err?.message]. *)
Module JsError.
Record t : Type := mk { message : option string }.
End JsError.

(** [new Error(msg)] *)
Definition Error (msg : string) : JsError.t := JsError.mk (Some msg).

(** What a strict runtime raises on a member access through [undefined]. *)
Definition TypeError : JsError.t := Error "Cannot read properties of undefined".

Inductive Outcome (A : Type) : Type :=
| Returned (a : A)
| Thrown (e : JsError.t).
Arguments Returned {A} a.
Arguments Thrown {A} e.

(** The user callbacks a method call makes, by the key of the action. *)
Inductive Call : Type :=
| CallCondition (actionKey : string)
| CallCanBeInvoked (actionKey : string)
| CallInvoke (actionKey : string).

Definition M (S A : Type) : Type := S -> Outcome A * S * list Call.

Section Monad.
Context {S : Type}.

Definition ret {A} (a : A) : M S A := fun s => (Returned a, s, []).

Definition throw {A} (e : JsError.t) : M S A := fun s => (Thrown e, s, []).

Definition bind {A B} (m : M S A) (k : A -> M S B) : M S B :=
  fun s =>
    match m s with
    | (Returned a, s1, c1) => let '(o, s2, c2) := k a s1 in (o, s2, (c1 ++ c2)%list)
    | (Thrown e, s1, c1) => (Thrown e, s1, c1)
    end.

(** [try { body } catch (err) { handler err }]; what [body] did to the
    receiver before it threw stays done. *)
Definition try_catch {A} (body : M S A) (handler : JsError.t -> M S A) : M S A :=
  fun s =>
    match body s with
    | (Thrown e, s1, c1) => let '(o, s2, c2) := handler e s1 in (o, s2, (c1 ++ c2)%list)
    | r => r
    end.

Definition gets {A} (f : S -> A) : M S A := fun s => (Returned (f s), s, []).

Definition modify (f : S -> S) : M S unit := fun s => (Returned tt, f s, []).

(** A user callback: the call is recorded and its outcome passed on. *)
Definition call {A} (c : Call) (o : Outcome A) : M S A := fun s => (o, s, [c]).
End Monad.

Notation "x <- c1 ;; c2" := (bind c1 (fun x => c2))
(at level 61, c1 at next level, right associativity).
Notation "c1 ;; c2" := (bind c1 (fun _ => c2))
(at level 61, right associativity).

(** ** Action (action/Action.ts) *)

Module Action.
Record t : Type := mk {
  key : string;
  description : string;
  _canBeInvoked : IState.t -> TCanBeInvoked.t;
  _perform : IState.t -> option Messenger.t -> Outcome IActionLogData.t }.

Definition canBeInvoked (self : t) (state : IState.t) : TCanBeInvoked.t :=
  _canBeInvoked self state.

Definition invoke (self : t) (state : IState.t) (messenger : option Messenger.t)
  : Outcome IActionLogData.t :=
  _perform self state messenger.
End Action.

Module ITrigger.
Record t : Type := mk {
  action : Action.t;
  condition : IState.t -> IEvent.t -> bool }.
End ITrigger.

Module ITask.
Record t : Type := mk {
  id : string;
  workflowKey : string;
  state : IState.t;
  createdAt : Z }.

Definition with_state (s : IState.t) (self : t) : t :=
  mk (id self) (workflowKey self) s (createdAt self).
End ITask.

(** ** Workflow (orchestrator/Workflow.ts) *)

Module Workflow.
Record t : Type := mk {
  key : string;
  initialStateKey : string;
  state : option IState.t;
  initialStateData : Data;
  actions : JsMap.t Action.t;
  conditions : JsMap.t (JsMap.t ITrigger.t) }.

Definition with_state (s : option IState.t) (self : t) : t :=
  mk (key self) (initialStateKey self) s (initialStateData self)
     (actions self) (conditions self).

Definition with_initialStateData (d : Data) (self : t) : t :=
  mk (key self) (initialStateKey self) (state self) d
     (actions self) (conditions self).

Definition with_actions (a : JsMap.t Action.t) (self : t) : t :=
  mk (key self) (initialStateKey self) (state self) (initialStateData self)
     a (conditions self).

Definition with_conditions (c : JsMap.t (JsMap.t ITrigger.t)) (self : t) : t :=
  mk (key self) (initialStateKey self) (state self) (initialStateData self)
     (actions self) c.

(** The two configuration errors, with the text the source gives them. *)
Definition ActionKeyConflict (actionKey workflowKey : string) : JsError.t :=
  Error ("Action '" ++ actionKey ++ "' is already registered in workflow '"
         ++ workflowKey ++ "'").

Definition TriggerConflict (actionKey eventKey workflowKey : string) : JsError.t :=
  Error ("Trigger for action '" ++ actionKey ++ "' already exists for event '"
         ++ eventKey ++ "' in workflow '" ++ workflowKey ++ "'").

(* ---------- State ---------- *)

Definition setInitialStateData (data : Data) : M t unit :=
  modify (with_initialStateData data).

Definition initState : M t unit :=
  modify (fun self =>
    with_state (Some (IState.mk (initialStateKey self) (initialStateData self))) self).

Definition getState : M t (option IState.t) := gets state.

Definition setState (s : IState.t) : M t unit := modify (with_state (Some s)).

(* ---------- Actions ---------- *)

Definition registerAction (action : Action.t) : M t unit :=
  registered <- gets (fun self => JsMap.has (Action.key action) (actions self)) ;;
  if registered then
    wkey <- gets key ;;
    throw (ActionKeyConflict (Action.key action) wkey)
  else
    modify (fun self => with_actions (JsMap.set (Action.key action) action (actions self)) self).

Definition addTrigger (eventKey : string) (action : Action.t)
    (condition : IState.t -> IEvent.t -> bool) : M t unit :=
  registerAction action ;;
  found <- gets (fun self => JsMap.get eventKey (conditions self)) ;;
  let eventTriggers := found ?? JsMap.empty in
  if JsMap.has (Action.key action) eventTriggers then
    wkey <- gets key ;;
    throw (TriggerConflict (Action.key action) eventKey wkey)
  else
    let eventTriggers :=
      JsMap.set (Action.key action) (ITrigger.mk action condition) eventTriggers in
    modify (fun self =>
      with_conditions (JsMap.set eventKey eventTriggers (conditions self)) self).

(** [new Workflow(key, initialStateKey, actions)] *)
Fixpoint registerAll (acts : list Action.t) : M t unit :=
  match acts with
  | [] => ret tt
  | a :: rest => registerAction a ;; registerAll rest
  end.

Definition new (key initialStateKey : string) (acts : list Action.t)
  : Outcome unit * t * list Call :=
  registerAll acts (mk key initialStateKey None [] JsMap.empty JsMap.empty).

Definition getActions : M t (list Action.t) := gets (fun self => JsMap.values (actions self)).

(* ---------- Event Handling ---------- *)

(** The failed results the engine builds itself. *)
Definition failure (msg : string) : IActionLogData.t :=
  {| IActionLogData.action_key := None;
     IActionLogData.cost := 0;
     IActionLogData.success := false;
     IActionLogData.message := Some msg;
     IActionLogData.data := Some [];
     IActionLogData.new_state := None;
     IActionLogData.emitEvent := None |}.

Definition InvalidState : IActionLogData.t := failure "Invalid state".

Definition NoTriggersForEvent (event : IEvent.t) : IActionLogData.t :=
  failure ("No triggers registered for event '" ++ IEvent.key event ++ "'").

Definition NoApplicableAction (event : IEvent.t) : IActionLogData.t :=
  failure ("No valid action could be executed for event '" ++ IEvent.key event ++ "'").

Definition ActionInvocationFailed (err : JsError.t) : IActionLogData.t :=
  failure (JsError.message err ?? "Action execution failed").

(** The [for ... of triggers.values()] loop.  [this.state] is not assigned
    between the check at the top of [handleEvent] and the selected
    invocation, so every iteration reads the state narrowed there. *)
Fixpoint forTriggers (triggers : list ITrigger.t) (state0 : IState.t)
    (event : IEvent.t) (messenger : option Messenger.t) : M t IActionLogData.t :=
  match triggers with
  | [] => ret (NoApplicableAction event)
  | trigger :: rest =>
      let action := ITrigger.action trigger in
      holds <- call (CallCondition (Action.key action))
                    (Returned (ITrigger.condition trigger state0 event)) ;;
      if negb holds then forTriggers rest state0 event messenger else
      canInvoke <- call (CallCanBeInvoked (Action.key action))
                        (Returned (Action.canBeInvoked action state0)) ;;
      if negb (TCanBeInvoked.can canInvoke) then forTriggers rest state0 event messenger else
      try_catch
        (result <- call (CallInvoke (Action.key action))
                        (Action.invoke action state0 messenger) ;;
         (if IActionLogData.success result
          then modify (with_state (IActionLogData.new_state result))
          else ret tt) ;;
         ret result)
        (fun err => ret (ActionInvocationFailed err))
  end.

Definition handleEvent (event : IEvent.t) (messenger : option Messenger.t)
  : M t IActionLogData.t :=
  current <- gets state ;;
  match current with
  | None => ret InvalidState
  | Some state0 =>
      triggers <- gets (fun self => JsMap.get (IEvent.key event) (conditions self)) ;;
      match triggers with
      | None => ret (NoTriggersForEvent event)
      | Some triggers =>
          if Nat.eqb (JsMap.size triggers) 0 then ret (NoTriggersForEvent event)
          else forTriggers (JsMap.values triggers) state0 event messenger
      end
  end.
End Workflow.

(** ** Orchestrator (orchestrator/Orchestrator.ts) *)

Module Orchestrator.
Record t : Type := mk {
  messenger : option Messenger.t;
  workflows : list Workflow.t;
  tasks : list ITask.t;
  logs : list IInvocationLog.t }.

Definition with_workflows (ws : list Workflow.t) (self : t) : t :=
  mk (messenger self) ws (tasks self) (logs self).

Definition with_tasks (ts : list ITask.t) (self : t) : t :=
  mk (messenger self) (workflows self) ts (logs self).

Definition with_logs (ls : list IInvocationLog.t) (self : t) : t :=
  mk (messenger self) (workflows self) (tasks self) ls.

(** [new Orchestrator(key, workflows, messenger)]; the key is not kept. *)
Definition new (key : string) (ws : list Workflow.t) (m : option Messenger.t) : t :=
  mk m ws [] [].

(** Writing through a reference obtained with [Array.prototype.find]:
    the first entry that satisfies the predicate is the object mutated. *)
Fixpoint replace_first {A : Type} (p : A -> bool) (x : A) (l : list A) : list A :=
  match l with
  | [] => []
  | y :: l' => if p y then x :: l' else y :: replace_first p x l'
  end.

Definition WorkflowNotFound (workflowKey : string) : JsError.t :=
  Error ("Workflow '" ++ workflowKey ++ "' not found").

(* ---------- Workflow Management ---------- *)

Definition registerWorkflow (workflow : Workflow.t) : M t unit :=
  modify (fun self => with_workflows (workflows self ++ [workflow]) self).

Definition getWorkflows : M t (list Workflow.t) := gets workflows.

Definition getWorkflow (workflowKey : string) (self : t) : option Workflow.t :=
  find (fun w => Workflow.key w =? workflowKey) (workflows self).

(** A method call [workflow.m(...)] on the workflow found under the key. *)
Definition onWorkflow {A} (workflowKey : string) (m : M Workflow.t A) : M t A :=
  fun self =>
    match getWorkflow workflowKey self with
    | None => (Thrown TypeError, self, [])
    | Some workflow =>
        let '(out, workflow', cs) := m workflow in
        (out,
         with_workflows
           (replace_first (fun w => Workflow.key w =? workflowKey) workflow' (workflows self))
           self,
         cs)
    end.

(* ---------- Task Management ---------- *)

Definition getTasks : M t (list ITask.t) := gets tasks.

Definition getTask (taskId : string) (self : t) : option ITask.t :=
  find (fun task => ITask.id task =? taskId) (tasks self).

(** An assignment [task.state = s] to the task found under the id. *)
Definition assignTaskState (taskId : string) (s : IState.t) : M t unit :=
  fun self =>
    match getTask taskId self with
    | None => (Thrown TypeError, self, [])
    | Some task =>
        (Returned tt,
         with_tasks
           (replace_first (fun u => ITask.id u =? taskId) (ITask.with_state s task) (tasks self))
           self,
         [])
    end.

Definition initTask (workflowKey : string) (initialData : option Data)
    (uuid : string) (now : Z) : M t ITask.t :=
  workflow <- gets (getWorkflow workflowKey) ;;
  match workflow with
  | None => throw (WorkflowNotFound workflowKey)
  | Some workflow =>
      (match initialData with
       | Some d => onWorkflow workflowKey (Workflow.setInitialStateData d)
       | None => ret tt
       end) ;;
      onWorkflow workflowKey Workflow.initState ;;
      current <- onWorkflow workflowKey Workflow.getState ;;
      match current with
      | None => throw TypeError
      | Some state0 =>
          let task :=
            {| ITask.id := uuid;
               ITask.workflowKey := Workflow.key workflow;
               ITask.state := state0;
               ITask.createdAt := now |} in
          modify (fun self => with_tasks (tasks self ++ [task]) self) ;;
          ret task
      end
  end.

(* ---------- Event Handling ---------- *)

Definition TaskNotFound (taskId : string) (event : IEvent.t) (now : string)
  : IInvocationLog.t :=
  {| IInvocationLog.success := false;
     IInvocationLog.message := Some ("Task '" ++ taskId ++ "' not found");
     IInvocationLog.task_id := taskId;
     IInvocationLog.event := event;
     IInvocationLog.timestamp := now;
     IInvocationLog.action_log_data := None |}.

Definition WorkflowNotFoundForTask (task : ITask.t) (event : IEvent.t) (now : string)
  : IInvocationLog.t :=
  {| IInvocationLog.success := false;
     IInvocationLog.message :=
       Some ("Workflow '" ++ ITask.workflowKey task ++ "' not found for task");
     IInvocationLog.task_id := ITask.id task;
     IInvocationLog.event := event;
     IInvocationLog.timestamp := now;
     IInvocationLog.action_log_data := None |}.

(** The entry written for a call that reached the workflow. *)
Definition invocationLog (task : ITask.t) (event : IEvent.t) (now : string)
  (result : IActionLogData.t) : IInvocationLog.t :=
{| IInvocationLog.action_log_data := Some result;
   IInvocationLog.task_id := ITask.id task;
   IInvocationLog.event := event;
   IInvocationLog.success := truthy (IActionLogData.action_key result);
   IInvocationLog.timestamp := now;
   IInvocationLog.message := None |}.

Definition handleEvent (taskId : string) (event : IEvent.t) (now : string)
  : M t IInvocationLog.t :=
  task <- gets (getTask taskId) ;;
  match task with
  | None => ret (TaskNotFound taskId event now)
  | Some task =>
      workflow <- gets (getWorkflow (ITask.workflowKey task)) ;;
      match workflow with
      | None => ret (WorkflowNotFoundForTask task event now)
      | Some _ =>
          onWorkflow (ITask.workflowKey task) (Workflow.setState (ITask.state task)) ;;
          messenger <- gets messenger ;;
          result <- onWorkflow (ITask.workflowKey task)
                               (Workflow.handleEvent event messenger) ;;
          (if IActionLogData.success result
           then assignTaskState (ITask.id task)
                  (IActionLogData.new_state result ?? ITask.state task)
           else ret tt) ;;
          let invocation_log := invocationLog task event now result in
          modify (fun self => with_logs (logs self ++ [invocation_log]) self) ;;
          ret invocation_log
      end
  end.

(** The committed state of a task, as the next call will read it. *)
Definition committed (taskId : string) (self : t) : option IState.t :=
  option_map ITask.state (getTask taskId self).
End Orchestrator.

(** ** Vocabulary of the statements *)

Module Resolution.
(** A trigger is eligible when its condition and its action's guard hold. *)
Definition passes (state0 : IState.t) (event : IEvent.t) (trigger : ITrigger.t) : bool :=
  ITrigger.condition trigger state0 event
  && TCanBeInvoked.can (Action.canBeInvoked (ITrigger.action trigger) state0).

(** The callbacks made on a trigger that is stepped over: the guard is
    asked only when the condition held. *)
Definition skipped (state0 : IState.t) (event : IEvent.t) (trigger : ITrigger.t) : list Call :=
  let k := Action.key (ITrigger.action trigger) in
  if ITrigger.condition trigger state0 event
  then [CallCondition k; CallCanBeInvoked k]
  else [CallCondition k].

(** The callbacks made on the trigger that is selected. *)
Definition selected (trigger : ITrigger.t) : list Call :=
  let k := Action.key (ITrigger.action trigger) in
  [CallCondition k; CallCanBeInvoked k; CallInvoke k].

(** The result handed back for an invocation that returned or threw. *)
Definition settle (o : Outcome IActionLogData.t) : IActionLogData.t :=
  match o with
  | Returned result => result
  | Thrown err => Workflow.ActionInvocationFailed err
  end.

(** The workflow left behind by that invocation. *)
Definition commit (o : Outcome IActionLogData.t) (w : Workflow.t) : Workflow.t :=
  match o with
  | Returned result =>
      if IActionLogData.success result
      then Workflow.with_state (IActionLogData.new_state result) w
      else w
  | Thrown _ => w
  end.

Definition is_invoke (c : Call) : bool :=
  match c with
  | CallInvoke _ => true
  | _ => false
  end.

(** How many action bodies a call ran. *)
Definition invocations (cs : list Call) : nat := length (filter is_invoke cs).

(** The triggers registered for an event, in iteration order. *)
Definition triggersFor (event : IEvent.t) (w : Workflow.t) : option (list ITrigger.t) :=
  option_map JsMap.values (JsMap.get (IEvent.key event) (Workflow.conditions w)).

(** Every trigger binds an action that the action registry holds: what
    [addTrigger] establishes, since it registers before it binds. *)
Definition bound_actions_registered (w : Workflow.t) : Prop :=
  forall eventKey eventTriggers actionKey,
    JsMap.get eventKey (Workflow.conditions w) = Some eventTriggers ->
    JsMap.has actionKey eventTriggers = true ->
    JsMap.has actionKey (Workflow.actions w) = true.
End Resolution.

(** What a method call leaves behind, and what it hands back. *)
Definition receiver {S A : Type} (run : Outcome A * S * list Call) : S := snd (fst run).

Definition outcome {S A : Type} (run : Outcome A * S * list Call) : Outcome A := fst (fst run).

Definition callbacks {S A : Type} (run : Outcome A * S * list Call) : list Call := snd run.

(** ** The procurement example (examples/procurement) *)

Module Procurement.
Definition processRfqAction : Action.t :=
  {| Action.key := "process_rfq";
     Action.description := "Process the RFQ file";
     Action._canBeInvoked := fun state =>
       {| TCanBeInvoked.can := IState.key state =? "rfq_uploaded";
          TCanBeInvoked.description := "RFQ must be uploaded first" |};
     Action._perform := fun state _ =>
       Returned
         {| IActionLogData.action_key := Some "process_rfq";
            IActionLogData.new_state := Some (IState.mk "processing" (IState.data state));
            IActionLogData.cost := 10;
            IActionLogData.success := true;
            IActionLogData.message := None;
            IActionLogData.data :=
              Some [("rfq_id", JsString "12345");
                    ("rfq_requirements", JsArray [JsString "1"; JsString "2"])];
            IActionLogData.emitEvent := None |} |}.

Definition notifyRoleSelectionAction : Action.t :=
  {| Action.key := "notify_role_selection";
     Action.description := "Notify human for role selection.";
     Action._canBeInvoked := fun state =>
       {| TCanBeInvoked.can := IState.key state =? "processing";
          TCanBeInvoked.description := "File must be in processing state" |};
     Action._perform := fun state _ =>
       Returned
         {| IActionLogData.action_key := Some "notify_role_selection";
            IActionLogData.new_state :=
              Some (IState.mk "awaiting_role_assignment" (IState.data state));
            IActionLogData.cost := 2;
            IActionLogData.success := true;
            IActionLogData.message := None;
            IActionLogData.data :=
              Some [("notification_channel", JsString "role_assignment_channel")];
            IActionLogData.emitEvent := None |} |}.

Definition rfqProcurementWorkflow : Workflow.t :=
  receiver
    ((Workflow.addTrigger "rfq_uploaded_event" processRfqAction
        (fun state _ => IState.key state =? "rfq_uploaded") ;;
      Workflow.addTrigger "rfq_processed_event" notifyRoleSelectionAction
        (fun state _ => IState.key state =? "processing"))
       (receiver (Workflow.new "rfq_procurement" "rfq_uploaded" []))).

Definition fileUrl : Data := [("fileUrl", JsString "https://example.com/rfq.pdf")].

Definition orchestrator0 : Orchestrator.t :=
  Orchestrator.new "ProcurementAI" [rfqProcurementWorkflow] None.

(** After [initTask("rfq_procurement", { fileUrl })]. *)
Definition orchestrator : Orchestrator.t :=
  receiver (Orchestrator.initTask "rfq_procurement" (Some fileUrl) "task-1" 0 orchestrator0).

Definition rfq_uploaded_event : IEvent.t := IEvent.mk "rfq_uploaded_event" (Some []).
Definition rfq_processed_event : IEvent.t := IEvent.mk "rfq_processed_event" (Some []).
End Procurement.

(** ** Small workflows that exercise the corner cases *)

Module Fixtures.
Definition always : IState.t -> TCanBeInvoked.t :=
  fun _ => TCanBeInvoked.mk true "always".

Definition anywhere : IState.t -> IEvent.t -> bool := fun _ _ => true.

Definition result (actionKey : option string) (ok : bool) (next : option IState.t)
  : IActionLogData.t :=
  {| IActionLogData.action_key := actionKey;
     IActionLogData.cost := 1;
     IActionLogData.success := ok;
     IActionLogData.message := None;
     IActionLogData.data := None;
     IActionLogData.new_state := next;
     IActionLogData.emitEvent := None |}.

(** Throws [new Error("boom")]. *)
Definition failing : Action.t :=
  Action.mk "failing" "always throws" always (fun _ _ => Thrown (Error "boom")).

(** Moves to the state ["done"]. *)
Definition finishing : Action.t :=
  Action.mk "finishing" "moves to done" always
    (fun state _ =>
       Returned (result (Some "finishing") true (Some (IState.mk "done" (IState.data state))))).

(** Reports success and names no next state. *)
Definition silent : Action.t :=
  Action.mk "silent" "succeeds without a new state" always
    (fun _ _ => Returned (result (Some "silent") true None)).

(** Reports success under the empty action key. *)
Definition unkeyed : Action.t :=
  Action.mk "" "its key is the empty string" always
    (fun state _ => Returned (result (Some "") true (Some (IState.mk "done" (IState.data state))))).

(** Reports a failure under its own action key. *)
Definition declining : Action.t :=
  Action.mk "declining" "reports a failure" always
    (fun _ _ => Returned (result (Some "declining") false None)).

(** Throws a value that carries no message: [throw "boom"]. *)
Definition mute : Action.t :=
  Action.mk "mute" "throws a string" always (fun _ _ => Thrown (JsError.mk None)).

(** Its guard never lets it run. *)
Definition blocked : Action.t :=
  Action.mk "blocked" "never allowed" (fun _ => TCanBeInvoked.mk false "never")
    (fun _ _ => Returned (result (Some "blocked") true None)).

Definition trigger (a : Action.t) : ITrigger.t := ITrigger.mk a anywhere.

(** A workflow ["wf"] starting in ["start"], with the given actions bound,
    in this order, to the event ["go"] under a condition that always holds. *)
Fixpoint bindAll (acts : list Action.t) : M Workflow.t unit :=
  match acts with
  | [] => ret tt
  | a :: rest => Workflow.addTrigger "go" a anywhere ;; bindAll rest
  end.

Definition workflow (acts : list Action.t) : Workflow.t :=
  receiver (bindAll acts (receiver (Workflow.new "wf" "start" []))).

Definition go : IEvent.t := IEvent.mk "go" None.

(** An orchestrator over that workflow with one task ["t1"]. *)
Definition orchestrator (acts : list Action.t) : Orchestrator.t :=
  receiver (Orchestrator.initTask "wf" (Some []) "t1" 0
              (Orchestrator.new "fixtures" [workflow acts] None)).

Definition start : IState.t := IState.mk "start" [].

(** The workflow hydrated with the state [start]. *)
Definition ready (acts : list Action.t) : Workflow.t :=
  Workflow.with_state (Some start) (workflow acts).
End Fixtures.


(** ** Conditions and guards that throw *)

(** A trigger's [condition] and an action's [canBeInvoked] are typed as
    functions to a boolean answer; a JavaScript function may throw instead.
    [Faults] says which calls do, and with what value: [Some err] when the
    call of that callback on those arguments throws [err], [None] when it
    answers what the record's function says. *)
Module Faults.
Record t : Type := mk {
  condition : ITrigger.t -> IState.t -> IEvent.t -> option JsError.t;
  canBeInvoked : Action.t -> IState.t -> option JsError.t }.

(** No callback throws. *)
Definition none : t := mk (fun _ _ _ => None) (fun _ _ => None).

(** [condition(this.state, event)] *)
Definition callCondition (faults : t) (trigger : ITrigger.t)
    (state : IState.t) (event : IEvent.t) : Outcome bool :=
  match condition faults trigger state event with
  | Some err => Thrown err
  | None => Returned (ITrigger.condition trigger state event)
  end.

(** [action.canBeInvoked(this.state)] *)
Definition callCanBeInvoked (faults : t) (action : Action.t) (state : IState.t)
  : Outcome TCanBeInvoked.t :=
  match canBeInvoked faults action state with
  | Some err => Thrown err
  | None => Returned (Action.canBeInvoked action state)
  end.

(** What the loop of [handleEvent] does with one trigger. *)
Inductive Verdict : Type :=
| Skipped
| Faulted (err : JsError.t)
| Selected.

Definition verdict (faults : t) (state : IState.t) (event : IEvent.t)
    (trigger : ITrigger.t) : Verdict :=
  match condition faults trigger state event with
  | Some err => Faulted err
  | None =>
      if negb (ITrigger.condition trigger state event) then Skipped else
      match canBeInvoked faults (ITrigger.action trigger) state with
      | Some err => Faulted err
      | None =>
          if negb (TCanBeInvoked.can (Action.canBeInvoked (ITrigger.action trigger) state))
          then Skipped else Selected
      end
  end.

(** The condition and guard calls made on one trigger: the guard is called
    only when the condition answered [true]. *)
Definition asked (faults : t) (state : IState.t) (event : IEvent.t)
    (trigger : ITrigger.t) : list Call :=
  let k := Action.key (ITrigger.action trigger) in
  match condition faults trigger state event with
  | Some _ => [CallCondition k]
  | None =>
      if ITrigger.condition trigger state event
      then [CallCondition k; CallCanBeInvoked k]
      else [CallCondition k]
  end.

(** No condition or guard in the list throws on these arguments. *)
Definition silent (faults : t) (state : IState.t) (event : IEvent.t)
    (triggers : list ITrigger.t) : Prop :=
  Forall (fun trigger =>
            condition faults trigger state event = None
            /\ canBeInvoked faults (ITrigger.action trigger) state = None)
         triggers.
End Faults.

(** [Workflow.handleEvent] and [Orchestrator.handleEvent] line by line, with
    the calls of [condition] and [canBeInvoked] able to throw; both calls
    stand before the [try] of the loop body, and the orchestrator has no
    [try] of its own. *)
Module Throwing.
Fixpoint forTriggers (faults : Faults.t) (triggers : list ITrigger.t) (state0 : IState.t)
    (event : IEvent.t) (messenger : option Messenger.t) : M Workflow.t IActionLogData.t :=
  match triggers with
  | [] => ret (Workflow.NoApplicableAction event)
  | trigger :: rest =>
      let action := ITrigger.action trigger in
      holds <- call (CallCondition (Action.key action))
                    (Faults.callCondition faults trigger state0 event) ;;
      if negb holds then forTriggers faults rest state0 event messenger else
      canInvoke <- call (CallCanBeInvoked (Action.key action))
                        (Faults.callCanBeInvoked faults action state0) ;;
      if negb (TCanBeInvoked.can canInvoke)
      then forTriggers faults rest state0 event messenger else
      try_catch
        (result <- call (CallInvoke (Action.key action))
                        (Action.invoke action state0 messenger) ;;
         (if IActionLogData.success result
          then modify (Workflow.with_state (IActionLogData.new_state result))
          else ret tt) ;;
         ret result)
        (fun err => ret (Workflow.ActionInvocationFailed err))
  end.

Definition Workflow_handleEvent (faults : Faults.t) (event : IEvent.t)
    (messenger : option Messenger.t) : M Workflow.t IActionLogData.t :=
  current <- gets Workflow.state ;;
  match current with
  | None => ret Workflow.InvalidState
  | Some state0 =>
      triggers <- gets (fun self => JsMap.get (IEvent.key event) (Workflow.conditions self)) ;;
      match triggers with
      | None => ret (Workflow.NoTriggersForEvent event)
      | Some triggers =>
          if Nat.eqb (JsMap.size triggers) 0 then ret (Workflow.NoTriggersForEvent event)
          else forTriggers faults (JsMap.values triggers) state0 event messenger
      end
  end.

Definition Orchestrator_handleEvent (faults : Faults.t) (taskId : string)
    (event : IEvent.t) (now : string) : M Orchestrator.t IInvocationLog.t :=
  task <- gets (Orchestrator.getTask taskId) ;;
  match task with
  | None => ret (Orchestrator.TaskNotFound taskId event now)
  | Some task =>
      workflow <- gets (Orchestrator.getWorkflow (ITask.workflowKey task)) ;;
      match workflow with
      | None => ret (Orchestrator.WorkflowNotFoundForTask task event now)
      | Some _ =>
          Orchestrator.onWorkflow (ITask.workflowKey task)
            (Workflow.setState (ITask.state task)) ;;
          messenger <- gets Orchestrator.messenger ;;
          result <- Orchestrator.onWorkflow (ITask.workflowKey task)
                      (Workflow_handleEvent faults event messenger) ;;
          (if IActionLogData.success result
           then Orchestrator.assignTaskState (ITask.id task)
                  (IActionLogData.new_state result ?? ITask.state task)
           else ret tt) ;;
          let invocation_log := Orchestrator.invocationLog task event now result in
          modify (fun self =>
            Orchestrator.with_logs (Orchestrator.logs self ++ [invocation_log]) self) ;;
          ret invocation_log
      end
  end.
End Throwing.

(** Callbacks that throw: the condition of the trigger of the action under
    the given key, or the guard of that action, throws a [TypeError]
    whatever it is asked. *)
Module Throwers.
Definition condition_of (actionKey : string) : Faults.t :=
  Faults.mk
    (fun trigger _ _ =>
       if Action.key (ITrigger.action trigger) =? actionKey then Some TypeError else None)
    (fun _ _ => None).

Definition guard_of (actionKey : string) : Faults.t :=
  Faults.mk
    (fun _ _ _ => None)
    (fun action _ => if Action.key action =? actionKey then Some TypeError else None).
End Throwers.

(** ** Workflows and orchestrators that the API can build *)

(** A workflow obtained from the constructor by method calls; a call that
    throws still leaves its receiver behind. *)
Inductive WorkflowBuilt : Workflow.t -> Prop :=
| built_new key initialStateKey acts :
    WorkflowBuilt (receiver (Workflow.new key initialStateKey acts))
| built_registerAction action w :
    WorkflowBuilt w -> WorkflowBuilt (receiver (Workflow.registerAction action w))
| built_addTrigger eventKey action condition w :
    WorkflowBuilt w ->
    WorkflowBuilt (receiver (Workflow.addTrigger eventKey action condition w))
| built_setInitialStateData d w :
    WorkflowBuilt w -> WorkflowBuilt (receiver (Workflow.setInitialStateData d w))
| built_initState w :
    WorkflowBuilt w -> WorkflowBuilt (receiver (Workflow.initState w))
| built_setState s w :
    WorkflowBuilt w -> WorkflowBuilt (receiver (Workflow.setState s w))
| built_handleEvent event messenger w :
    WorkflowBuilt w -> WorkflowBuilt (receiver (Workflow.handleEvent event messenger w)).

(** An orchestrator obtained from the constructor by its public methods. *)
Inductive OrchestratorBuilt : Orchestrator.t -> Prop :=
| built_orchestrator key ws messenger :
    OrchestratorBuilt (Orchestrator.new key ws messenger)
| built_registerWorkflow w o :
    OrchestratorBuilt o -> OrchestratorBuilt (receiver (Orchestrator.registerWorkflow w o))
| built_initTask workflowKey initialData uuid now o :
    OrchestratorBuilt o ->
    OrchestratorBuilt (receiver (Orchestrator.initTask workflowKey initialData uuid now o))
| built_delivery taskId event now o :
    OrchestratorBuilt o ->
    OrchestratorBuilt (receiver (Orchestrator.handleEvent taskId event now o))
| built_throwing_delivery faults taskId event now o :
    OrchestratorBuilt o ->
    OrchestratorBuilt (receiver (Throwing.Orchestrator_handleEvent faults taskId event now o)).

(** [Reaches o o']: [o'] is [o] after some calls of the public methods. *)
Inductive Reaches (o : Orchestrator.t) : Orchestrator.t -> Prop :=
| reaches_refl : Reaches o o
| reaches_registerWorkflow w o' :
    Reaches o o' -> Reaches o (receiver (Orchestrator.registerWorkflow w o'))
| reaches_initTask workflowKey initialData uuid now o' :
    Reaches o o' ->
    Reaches o (receiver (Orchestrator.initTask workflowKey initialData uuid now o'))
| reaches_delivery taskId event now o' :
    Reaches o o' -> Reaches o (receiver (Orchestrator.handleEvent taskId event now o')).

Module Shape.
(** The keys of a map, in iteration order. *)
Definition keys {V : Type} (m : JsMap.t V) : list string := map fst m.

(** Each action sits under its own key, once; each trigger sits under the
    key of its action, once per event, and that key is registered. *)
Definition keyed_actions (w : Workflow.t) : Prop :=
  NoDup (keys (Workflow.actions w))
  /\ Forall (fun entry => Action.key (snd entry) = fst entry) (Workflow.actions w).

Definition keyed_triggers (w : Workflow.t) : Prop :=
  forall eventKey eventTriggers,
    JsMap.get eventKey (Workflow.conditions w) = Some eventTriggers ->
    NoDup (keys eventTriggers)
    /\ Forall (fun entry => Action.key (ITrigger.action (snd entry)) = fst entry
                            /\ JsMap.has (fst entry) (Workflow.actions w) = true)
              eventTriggers.

Definition well_keyed (w : Workflow.t) : Prop := keyed_actions w /\ keyed_triggers w.

(** What of a task never changes: everything but its state. *)
Definition identity (task : ITask.t) : string * string * Z :=
  (ITask.id task, ITask.workflowKey task, ITask.createdAt task).

(** Every task names a workflow that is registered. *)
Definition tasks_have_workflows (o : Orchestrator.t) : Prop :=
  Forall (fun task => In (ITask.workflowKey task) (map Workflow.key (Orchestrator.workflows o)))
         (Orchestrator.tasks o).
End Shape.

(** ** The action class with an emit descriptor (second version of action/Action.ts) *)

Module EmittingAction.
Record t : Type := mk {
  key : string;
  description : string;
  emitEvent : option IEmitEvent.t;
  _canBeInvoked : IState.t -> TCanBeInvoked.t;
  _perform : IState.t -> option Messenger.t -> Outcome IActionLogData.t }.

Definition with_emitEvent (e : option IEmitEvent.t) (r : IActionLogData.t) : IActionLogData.t :=
  {| IActionLogData.action_key := IActionLogData.action_key r;
     IActionLogData.cost := IActionLogData.cost r;
     IActionLogData.success := IActionLogData.success r;
     IActionLogData.message := IActionLogData.message r;
     IActionLogData.data := IActionLogData.data r;
     IActionLogData.new_state := IActionLogData.new_state r;
     IActionLogData.emitEvent := e |}.

Definition canBeInvoked (self : t) (state : IState.t) : TCanBeInvoked.t :=
  _canBeInvoked self state.

(** [const result = await this._perform(...); result.emitEvent = this.emitEvent] *)
Definition invoke (self : t) (state : IState.t) (messenger : option Messenger.t)
  : Outcome IActionLogData.t :=
  match _perform self state messenger with
  | Returned result => Returned (with_emitEvent (emitEvent self) result)
  | Thrown err => Thrown err
  end.

(** The object as a workflow sees it: what the workflow calls as the
    action's [invoke] is the method above. *)
Definition asAction (self : t) : Action.t :=
  Action.mk (key self) (description self) (canBeInvoked self) (invoke self).
End EmittingAction.

(** ** Message and Messenger (messaging/Message.ts, messaging/Messenger.ts) *)

(** Strings are read as sequences of code units below 256; among those the
    white space and line terminators that [String.prototype.trim] strips are
    tab, line feed, vertical tab, form feed, carriage return, space and the
    no-break space. *)
Module JsString.
Definition isWhiteSpace (c : Ascii.ascii) : bool :=
  let n := Ascii.nat_of_ascii c in
  (Nat.leb 9 n && Nat.leb n 13) || Nat.eqb n 32 || Nat.eqb n 160.

Fixpoint trimStartChars (cs : list Ascii.ascii) : list Ascii.ascii :=
  match cs with
  | [] => []
  | c :: rest => if isWhiteSpace c then trimStartChars rest else cs
  end.

Definition trimChars (cs : list Ascii.ascii) : list Ascii.ascii :=
  rev (trimStartChars (rev (trimStartChars cs))).

Definition trim (s : string) : string :=
  string_of_list_ascii (trimChars (list_ascii_of_string s)).
End JsString.

Module Message.
Record t (T : Type) : Type := mk { key : string; message : T }.
Arguments mk {T} key message.
Arguments key {T} _.
Arguments message {T} _.

(** [new Message(key, message)]; the [typeof key !== "string"] half of the
    check cannot fire on a string. *)
Definition new {T : Type} (key : string) (message : T) : Outcome (t T) :=
  if Nat.eqb (String.length (JsString.trim key)) 0
  then Thrown (Error "Message key must be a non-empty string")
  else Returned (mk key message).

Definition getKey {T : Type} (self : t T) : string := key self.

Definition getMessage {T : Type} (self : t T) : T := message self.

Definition toObject {T : Type} (self : t T) : string * T := (key self, message self).
End Message.

(** The abstract class [Messenger<T>] with its two concrete methods; [send]
    is left to the subclasses. *)
Module MessengerOf.
Record t (T : Type) : Type := mk {
  recipientRoles : list string;
  messages : JsMap.t (Message.t T) }.
Arguments mk {T} recipientRoles messages.
Arguments recipientRoles {T} _.
Arguments messages {T} _.

Definition new {T : Type} (recipientRoles : list string) : t T :=
  mk recipientRoles JsMap.empty.

Definition registerMessage {T : Type} (message : Message.t T) : M (t T) unit :=
  modify (fun self =>
    mk (recipientRoles self) (JsMap.set (Message.getKey message) message (messages self))).

Definition getMessage {T : Type} (key : string) : M (t T) (option (Message.t T)) :=
  gets (fun self => JsMap.get key (messages self)).
End MessengerOf.

(** * Properties *)

(** ** Insertion-ordered maps *)

Section JsMapFacts.
Context {V : Type}.
Implicit Types (m : JsMap.t V) (k : string) (v : V).

Lemma get_set_same k v m : JsMap.get k (JsMap.set k v m) = Some v.
Proof.
  induction m as [|[k' v'] m IH]; cbn.
  - now rewrite String.eqb_refl.
  - destruct (k' =? k) eqn:E; cbn; rewrite E; auto.
Qed.

Lemma get_set_other k k' v m :
  k' <> k -> JsMap.get k' (JsMap.set k v m) = JsMap.get k' m.
Proof.
  intros Hne. induction m as [|[k0 v0] m IH]; cbn.
  - destruct (k =? k') eqn:E; [apply String.eqb_eq in E; congruence | reflexivity].
  - destruct (k0 =? k) eqn:E; cbn.
    + apply String.eqb_eq in E. subst k0.
      destruct (k =? k') eqn:E'; [apply String.eqb_eq in E'; congruence | reflexivity].
    + now rewrite IH.
Qed.

Lemma has_set_same k v m : JsMap.has k (JsMap.set k v m) = true.
Proof. unfold JsMap.has. now rewrite get_set_same. Qed.

Lemma has_set k k' v m :
  JsMap.has k' (JsMap.set k v m) = (k =? k') || JsMap.has k' m.
Proof.
  destruct (String.eqb_spec k k') as [->|Hne].
  - now rewrite has_set_same.
  - unfold JsMap.has. rewrite get_set_other by congruence. reflexivity.
Qed.

(** A key that is not there yet goes to the end: registration order. *)
Lemma set_fresh k v m :
  JsMap.has k m = false -> JsMap.set k v m = (m ++ [(k, v)])%list.
Proof.
  unfold JsMap.has. induction m as [|[k' v'] m IH]; cbn; [reflexivity|].
  destruct (k' =? k); [discriminate|]. intros H. now rewrite IH.
Qed.

Lemma values_set_fresh k v m :
  JsMap.has k m = false -> JsMap.values (JsMap.set k v m) = (JsMap.values m ++ [v])%list.
Proof.
  intros H. rewrite set_fresh by assumption.
  unfold JsMap.values. now rewrite map_app.
Qed.

Lemma size_values m : JsMap.size m = length (JsMap.values m).
Proof. unfold JsMap.size, JsMap.values. now rewrite length_map. Qed.
End JsMapFacts.

(** ** Workflow configuration *)

Lemma registerAction_conflict action w :
  JsMap.has (Action.key action) (Workflow.actions w) = true ->
  Workflow.registerAction action w
  = (Thrown (Workflow.ActionKeyConflict (Action.key action) (Workflow.key w)), w, []).
Proof.
  intros H. unfold Workflow.registerAction, bind, gets. rewrite H. reflexivity.
Qed.

Lemma registerAction_fresh action w :
  JsMap.has (Action.key action) (Workflow.actions w) = false ->
  Workflow.registerAction action w
  = (Returned tt,
     Workflow.with_actions (JsMap.set (Action.key action) action (Workflow.actions w)) w,
     []).
Proof.
  intros H. unfold Workflow.registerAction, bind, gets. rewrite H. reflexivity.
Qed.

(** With an unregistered action and no trigger under the pair yet,
    [addTrigger] registers the action and puts the trigger last in the
    event's iteration order. *)
Lemma addTrigger_fresh eventKey action condition w :
  JsMap.has (Action.key action) (Workflow.actions w) = false ->
  JsMap.has (Action.key action)
            (JsMap.get eventKey (Workflow.conditions w) ?? JsMap.empty) = false ->
  exists w',
    Workflow.addTrigger eventKey action condition w = (Returned tt, w', [])
    /\ Workflow.actions w' = JsMap.set (Action.key action) action (Workflow.actions w)
    /\ Resolution.triggersFor (IEvent.mk eventKey None) w'
       = Some ((Resolution.triggersFor (IEvent.mk eventKey None) w ?? [])
               ++ [ITrigger.mk action condition])%list
    /\ Workflow.state w' = Workflow.state w
    /\ Workflow.key w' = Workflow.key w.
Proof.
  intros Hact Htrig. eexists. split.
  - unfold Workflow.addTrigger, bind at 1. rewrite registerAction_fresh by assumption.
    unfold bind, gets, modify. cbn. rewrite Htrig. cbn. reflexivity.
  - cbn. repeat split.
    unfold Resolution.triggersFor. cbn. rewrite get_set_same. cbn.
    rewrite values_set_fresh by assumption.
    destruct (JsMap.get eventKey (Workflow.conditions w)); reflexivity.
Qed.

(** ** Trigger resolution *)

Section Resolve.
Variables (state0 : IState.t) (event : IEvent.t) (messenger : option Messenger.t).

Lemma forTriggers_step_over trigger rest w :
  Resolution.passes state0 event trigger = false ->
  Workflow.forTriggers (trigger :: rest) state0 event messenger w
  = let '(o, w', cs) := Workflow.forTriggers rest state0 event messenger w in
    (o, w', (Resolution.skipped state0 event trigger ++ cs)%list).
Proof.
  unfold Resolution.passes, Resolution.skipped. intros Hfail.
  cbn [Workflow.forTriggers]. unfold bind at 1. unfold call at 1.
  destruct (ITrigger.condition trigger state0 event); cbn [negb].
  - unfold bind at 1. unfold call at 1.
    cbn in Hfail. rewrite Hfail. cbn [negb].
    destruct (Workflow.forTriggers rest state0 event messenger w) as [[o w'] cs].
    reflexivity.
  - destruct (Workflow.forTriggers rest state0 event messenger w) as [[o w'] cs].
    reflexivity.
Qed.

Lemma forTriggers_select trigger rest w :
  Resolution.passes state0 event trigger = true ->
  let invoked := Action.invoke (ITrigger.action trigger) state0 messenger in
  Workflow.forTriggers (trigger :: rest) state0 event messenger w
  = (Returned (Resolution.settle invoked), Resolution.commit invoked w,
     Resolution.selected trigger).
Proof.
  intros Hpass invoked. unfold Resolution.passes in Hpass.
  apply andb_true_iff in Hpass as [Hcond Hcan].
  cbn [Workflow.forTriggers]. unfold bind at 1. unfold call at 1.
  rewrite Hcond. cbn [negb]. unfold bind at 1. unfold call at 1.
  rewrite Hcan. cbn [negb].
  unfold try_catch, bind, call, Resolution.selected. fold invoked.
  destruct invoked as [result|err]; cbn.
  - destruct (IActionLogData.success result); reflexivity.
  - reflexivity.
Qed.

Lemma forTriggers_prefix pre rest w :
  Forall (fun u => Resolution.passes state0 event u = false) pre ->
  Workflow.forTriggers (pre ++ rest) state0 event messenger w
  = let '(o, w', cs) := Workflow.forTriggers rest state0 event messenger w in
    (o, w', (flat_map (Resolution.skipped state0 event) pre ++ cs)%list).
Proof.
  induction 1 as [|u pre Hu _ IH].
  - cbn. now destruct (Workflow.forTriggers rest state0 event messenger w) as [[o w'] cs].
  - rewrite <- app_comm_cons, forTriggers_step_over by assumption.
    rewrite IH. destruct (Workflow.forTriggers rest state0 event messenger w) as [[o w'] cs].
    cbn [flat_map]. now rewrite app_assoc.
Qed.

Lemma forTriggers_no_match triggers w :
  Forall (fun u => Resolution.passes state0 event u = false) triggers ->
  Workflow.forTriggers triggers state0 event messenger w
  = (Returned (Workflow.NoApplicableAction event), w,
     flat_map (Resolution.skipped state0 event) triggers).
Proof.
  intros H. rewrite <- (app_nil_r triggers) at 1.
  rewrite forTriggers_prefix by assumption. cbn. now rewrite app_nil_r.
Qed.

(** Every list of triggers splits at its first eligible trigger, or has none. *)
Lemma first_eligible (triggers : list ITrigger.t) :
  Forall (fun u => Resolution.passes state0 event u = false) triggers
  \/ exists pre trigger post,
       triggers = (pre ++ trigger :: post)%list
       /\ Forall (fun u => Resolution.passes state0 event u = false) pre
       /\ Resolution.passes state0 event trigger = true.
Proof.
  induction triggers as [|u l IH].
  - left. constructor.
  - destruct (Resolution.passes state0 event u) eqn:E.
    + right. exists [], u, l. repeat split; auto.
    + destruct IH as [IH | (pre & t & post & -> & Hpre & Ht)].
      * left. now constructor.
      * right. exists (u :: pre), t, post. repeat split; auto.
Qed.

(** [handleEvent] once the state and the event's triggers are known. *)
Lemma handleEvent_unfold w eventTriggers :
  Workflow.state w = Some state0 ->
  JsMap.get (IEvent.key event) (Workflow.conditions w) = Some eventTriggers ->
  JsMap.values eventTriggers <> [] ->
  Workflow.handleEvent event messenger w
  = Workflow.forTriggers (JsMap.values eventTriggers) state0 event messenger w.
Proof.
  intros Hst Hget Hne. unfold Workflow.handleEvent, bind at 1, gets at 1.
  rewrite Hst. unfold bind at 1, gets at 1. rewrite Hget.
  rewrite size_values. destruct (JsMap.values eventTriggers) eqn:E; [congruence|].
  cbn [length Nat.eqb].
  destruct (Workflow.forTriggers _ _ _ _ _) as [[o w'] cs]. reflexivity.
Qed.

(** First match wins: the triggers before the first eligible one are
    stepped over, that one is invoked, and nothing after it is looked at. *)
Lemma handleEvent_resolves w eventTriggers pre trigger post :
  Workflow.state w = Some state0 ->
  JsMap.get (IEvent.key event) (Workflow.conditions w) = Some eventTriggers ->
  JsMap.values eventTriggers = (pre ++ trigger :: post)%list ->
  Forall (fun u => Resolution.passes state0 event u = false) pre ->
  Resolution.passes state0 event trigger = true ->
  let invoked := Action.invoke (ITrigger.action trigger) state0 messenger in
  Workflow.handleEvent event messenger w
  = (Returned (Resolution.settle invoked), Resolution.commit invoked w,
     (flat_map (Resolution.skipped state0 event) pre ++ Resolution.selected trigger)%list).
Proof.
  intros Hst Hget Hsplit Hpre Hpass invoked.
  rewrite (handleEvent_unfold w eventTriggers Hst Hget).
  - rewrite Hsplit, forTriggers_prefix by assumption.
    now rewrite forTriggers_select by assumption.
  - rewrite Hsplit. now destruct pre.
Qed.

(** No eligible trigger: the failure is reported, every trigger was looked
    at, none was invoked, and the workflow is what it was. *)
Lemma handleEvent_no_match w eventTriggers :
  Workflow.state w = Some state0 ->
  JsMap.get (IEvent.key event) (Workflow.conditions w) = Some eventTriggers ->
  JsMap.values eventTriggers <> [] ->
  Forall (fun u => Resolution.passes state0 event u = false) (JsMap.values eventTriggers) ->
  Workflow.handleEvent event messenger w
  = (Returned (Workflow.NoApplicableAction event), w,
     flat_map (Resolution.skipped state0 event) (JsMap.values eventTriggers)).
Proof.
  intros Hst Hget Hne Hnone.
  rewrite (handleEvent_unfold w eventTriggers Hst Hget Hne).
  now apply forTriggers_no_match.
Qed.
End Resolve.

Lemma invocations_app cs1 cs2 :
  Resolution.invocations (cs1 ++ cs2)
  = Resolution.invocations cs1 + Resolution.invocations cs2.
Proof. unfold Resolution.invocations. now rewrite filter_app, length_app. Qed.

Lemma invocations_skipped state0 event triggers :
  Resolution.invocations (flat_map (Resolution.skipped state0 event) triggers) = 0.
Proof.
  induction triggers as [|u l IH]; [reflexivity|].
  cbn [flat_map]. rewrite invocations_app, IH.
  unfold Resolution.skipped. now destruct (ITrigger.condition u state0 event).
Qed.

Lemma with_state_same w : Workflow.with_state (Workflow.state w) w = w.
Proof. now destruct w. Qed.

Lemma commit_frame invoked w :
  Resolution.commit invoked w
  = Workflow.with_state (Workflow.state (Resolution.commit invoked w)) w.
Proof.
  destruct invoked as [result|err]; cbn; [destruct (IActionLogData.success result)|];
    cbn; now rewrite ?with_state_same.
Qed.

(** [Workflow.handleEvent] returns on every path, and touches nothing of
    the workflow but its current state. *)
Lemma handleEvent_returns event messenger w :
  exists result w' cs,
    Workflow.handleEvent event messenger w = (Returned result, w', cs)
    /\ w' = Workflow.with_state (Workflow.state w') w.
Proof.
  destruct (Workflow.state w) as [state0|] eqn:Hst.
  2:{ exists Workflow.InvalidState, w, []. split.
      - unfold Workflow.handleEvent, bind, gets. now rewrite Hst.
      - now rewrite with_state_same. }
  destruct (JsMap.get (IEvent.key event) (Workflow.conditions w)) as [eventTriggers|] eqn:Hget.
  2:{ exists (Workflow.NoTriggersForEvent event), w, []. split.
      - unfold Workflow.handleEvent, bind, gets. now rewrite Hst, Hget.
      - now rewrite with_state_same. }
  destruct (JsMap.values eventTriggers) as [|u l] eqn:Hvals.
  { exists (Workflow.NoTriggersForEvent event), w, []. split.
    - unfold Workflow.handleEvent, bind, gets. rewrite Hst, Hget, size_values, Hvals.
      reflexivity.
    - now rewrite with_state_same. }
  rewrite (handleEvent_unfold state0 event messenger w eventTriggers Hst Hget)
    by (rewrite Hvals; discriminate).
  rewrite Hvals.
  destruct (first_eligible state0 event (u :: l))
    as [Hnone | (pre & trigger & post & Hsplit & Hpre & Hpass)].
  - rewrite forTriggers_no_match by assumption.
    do 3 eexists. split; [reflexivity | now rewrite with_state_same].
  - rewrite Hsplit, forTriggers_prefix, forTriggers_select by assumption.
    do 3 eexists. split; [reflexivity | apply commit_frame].
Qed.

(** C2. Priority and no backtracking: [Workflow.handleEvent] walks the
    triggers of the event key in registration order, steps over those whose
    condition or guard fails, and invokes the first one that passes both.
    Exactly one action body runs; no callback of a later trigger is made,
    whatever the selected invocation does (return a success, return a
    failure, or throw). *)
Theorem first_eligible_trigger_is_invoked
    state0 event messenger w eventTriggers pre trigger post :
  Workflow.state w = Some state0 ->
  JsMap.get (IEvent.key event) (Workflow.conditions w) = Some eventTriggers ->
  JsMap.values eventTriggers = (pre ++ trigger :: post)%list ->
  Forall (fun u => Resolution.passes state0 event u = false) pre ->
  Resolution.passes state0 event trigger = true ->
  let invoked := Action.invoke (ITrigger.action trigger) state0 messenger in
  let run := Workflow.handleEvent event messenger w in
  outcome run = Returned (Resolution.settle invoked)
  /\ receiver run = Resolution.commit invoked w
  /\ callbacks run
     = (flat_map (Resolution.skipped state0 event) pre ++ Resolution.selected trigger)%list
  /\ Resolution.invocations (callbacks run) = 1.
Proof.
  intros Hst Hget Hsplit Hpre Hpass invoked run. subst run.
  rewrite (handleEvent_resolves state0 event messenger w eventTriggers pre trigger post)
    by assumption.
  fold invoked. cbn [outcome receiver callbacks fst snd]. repeat split.
  now rewrite invocations_app, invocations_skipped.
Qed.

(** C6. A thrown action body is contained: the call returns the failed
    result built from the exception (its message, or the stock text when the
    thrown value carries none), with cost 0; the workflow is left as it was;
    the body ran once. *)
Theorem thrown_invocation_is_contained
    state0 event messenger w eventTriggers pre trigger post err :
  Workflow.state w = Some state0 ->
  JsMap.get (IEvent.key event) (Workflow.conditions w) = Some eventTriggers ->
  JsMap.values eventTriggers = (pre ++ trigger :: post)%list ->
  Forall (fun u => Resolution.passes state0 event u = false) pre ->
  Resolution.passes state0 event trigger = true ->
  Action.invoke (ITrigger.action trigger) state0 messenger = Thrown err ->
  let run := Workflow.handleEvent event messenger w in
  exists result,
    outcome run = Returned result
    /\ IActionLogData.success result = false
    /\ IActionLogData.message result
       = Some (JsError.message err ?? "Action execution failed")
    /\ (forall msg, JsError.message err = Some msg ->
                    IActionLogData.message result = Some msg)
    /\ IActionLogData.cost result = 0%Z
    /\ IActionLogData.new_state result = None
    /\ receiver run = w
    /\ Resolution.invocations (callbacks run) = 1.
Proof.
  intros Hst Hget Hsplit Hpre Hpass Hthrow run. subst run.
  rewrite (handleEvent_resolves state0 event messenger w eventTriggers pre trigger post)
    by assumption.
  rewrite Hthrow. cbn [outcome receiver callbacks fst snd Resolution.settle Resolution.commit].
  exists (Workflow.ActionInvocationFailed err). repeat split.
  - intros msg Hmsg. cbn. now rewrite Hmsg.
  - now rewrite invocations_app, invocations_skipped.
Qed.

Lemma first_eligible_trigger_is_invoked_witness :
  let w := Fixtures.ready [Fixtures.blocked; Fixtures.failing; Fixtures.finishing] in
  let run := Workflow.handleEvent Fixtures.go None w in
  outcome run = Returned (Workflow.failure "boom")
  /\ receiver run = w
  /\ callbacks run
     = [CallCondition "blocked"; CallCanBeInvoked "blocked";
        CallCondition "failing"; CallCanBeInvoked "failing"; CallInvoke "failing"]
  /\ Resolution.invocations (callbacks run) = 1.
Proof.
  exact (first_eligible_trigger_is_invoked
           Fixtures.start Fixtures.go None
           (Fixtures.ready [Fixtures.blocked; Fixtures.failing; Fixtures.finishing])
           [("blocked", Fixtures.trigger Fixtures.blocked);
            ("failing", Fixtures.trigger Fixtures.failing);
            ("finishing", Fixtures.trigger Fixtures.finishing)]
           [Fixtures.trigger Fixtures.blocked]
           (Fixtures.trigger Fixtures.failing)
           [Fixtures.trigger Fixtures.finishing]
           eq_refl eq_refl eq_refl
           (Forall_cons (Fixtures.trigger Fixtures.blocked) eq_refl (Forall_nil _)) eq_refl).
Defined.

Lemma thrown_invocation_is_contained_witness :
  let w := Fixtures.ready [Fixtures.blocked; Fixtures.failing; Fixtures.finishing] in
  let run := Workflow.handleEvent Fixtures.go None w in
  exists result,
    outcome run = Returned result
    /\ IActionLogData.success result = false
    /\ IActionLogData.message result = Some "boom"
    /\ (forall msg, Some "boom" = Some msg -> IActionLogData.message result = Some msg)
    /\ IActionLogData.cost result = 0%Z
    /\ IActionLogData.new_state result = None
    /\ receiver run = w
    /\ Resolution.invocations (callbacks run) = 1.
Proof.
  exact (thrown_invocation_is_contained
           Fixtures.start Fixtures.go None
           (Fixtures.ready [Fixtures.blocked; Fixtures.failing; Fixtures.finishing])
           [("blocked", Fixtures.trigger Fixtures.blocked);
            ("failing", Fixtures.trigger Fixtures.failing);
            ("finishing", Fixtures.trigger Fixtures.finishing)]
           [Fixtures.trigger Fixtures.blocked]
           (Fixtures.trigger Fixtures.failing)
           [Fixtures.trigger Fixtures.finishing]
           (Error "boom")
           eq_refl eq_refl eq_refl
           (Forall_cons (Fixtures.trigger Fixtures.blocked) eq_refl (Forall_nil _))
           eq_refl eq_refl).
Defined.

(** C6, as stated, fails for a thrown value that carries no message
    ([throw 'boom'], [throw null]): the failed result does not carry the
    exception's message, it carries the stock text. *)
Lemma thrown_value_without_message :
  let w := Fixtures.ready [Fixtures.mute] in
  let run := Workflow.handleEvent Fixtures.go None w in
  Action.invoke Fixtures.mute Fixtures.start None = Thrown (JsError.mk None)
  /\ JsError.message (JsError.mk None) = None
  /\ outcome run = Returned (Workflow.failure "Action execution failed")
  /\ receiver run = w
  /\ Resolution.invocations (callbacks run) = 1.
Proof. repeat split. Qed.

(** A thrown value without a message gets the stock text. *)
Example failure_without_message :
  Workflow.ActionInvocationFailed (JsError.mk None) = Workflow.failure "Action execution failed".
Proof. reflexivity. Qed.

(** ** Determinism *)

Lemma handleEvent_by_triggers event messenger w :
  Workflow.handleEvent event messenger w
  = match Workflow.state w with
    | None => (Returned Workflow.InvalidState, w, [])
    | Some state0 =>
        match Resolution.triggersFor event w with
        | None | Some [] => (Returned (Workflow.NoTriggersForEvent event), w, [])
        | Some triggers => Workflow.forTriggers triggers state0 event messenger w
        end
    end.
Proof.
  unfold Resolution.triggersFor.
  destruct (Workflow.state w) as [state0|] eqn:Hst.
  2:{ unfold Workflow.handleEvent, bind, gets. now rewrite Hst. }
  destruct (JsMap.get (IEvent.key event) (Workflow.conditions w)) as [eventTriggers|] eqn:Hget.
  2:{ unfold Workflow.handleEvent, bind, gets. now rewrite Hst, Hget. }
  cbn [option_map]. destruct (JsMap.values eventTriggers) as [|u l] eqn:Hvals.
  - unfold Workflow.handleEvent, bind, gets. now rewrite Hst, Hget, size_values, Hvals.
  - rewrite <- Hvals. apply handleEvent_unfold; auto. rewrite Hvals. discriminate.
Qed.

Lemma forTriggers_depends_on_state triggers state0 event messenger w1 w2 :
  Workflow.state w1 = Workflow.state w2 ->
  let run1 := Workflow.forTriggers triggers state0 event messenger w1 in
  let run2 := Workflow.forTriggers triggers state0 event messenger w2 in
  outcome run1 = outcome run2
  /\ callbacks run1 = callbacks run2
  /\ Workflow.state (receiver run1) = Workflow.state (receiver run2).
Proof.
  intros Hst run1 run2. subst run1 run2.
  destruct (first_eligible state0 event triggers)
    as [Hnone | (pre & trigger & post & -> & Hpre & Hpass)].
  - rewrite !forTriggers_no_match by assumption. cbn. auto.
  - rewrite !forTriggers_prefix, !forTriggers_select by assumption.
    cbn [outcome receiver callbacks fst snd]. repeat split.
    destruct (Action.invoke _ _ _) as [result|err]; cbn; auto.
    destruct (IActionLogData.success result); cbn; auto.
Qed.

(** C9. Determinism: two runs of [Workflow.handleEvent] from the same
    current state, on the same event, over the same triggers for that event
    in the same order (and with the same messenger handed to the action)
    make the same callbacks, hence select the same trigger, return the same
    result and leave the same current state, whatever else the two
    workflows hold. *)
Theorem handleEvent_deterministic event messenger w1 w2 :
  Workflow.state w1 = Workflow.state w2 ->
  Resolution.triggersFor event w1 = Resolution.triggersFor event w2 ->
  let run1 := Workflow.handleEvent event messenger w1 in
  let run2 := Workflow.handleEvent event messenger w2 in
  outcome run1 = outcome run2
  /\ callbacks run1 = callbacks run2
  /\ Workflow.state (receiver run1) = Workflow.state (receiver run2).
Proof.
  intros Hst Htr run1 run2. subst run1 run2.
  rewrite !handleEvent_by_triggers, <- Htr, <- Hst.
  destruct (Workflow.state w1) as [state0|] eqn:E1.
  2:{ cbn. repeat split. congruence. }
  destruct (Resolution.triggersFor event w1) as [[|u l]|] eqn:E2.
  - cbn. repeat split. congruence.
  - apply forTriggers_depends_on_state. congruence.
  - cbn. repeat split. congruence.
Qed.

(** ** The orchestrator's references *)

Section ReplaceFirst.
Context {A : Type}.
Implicit Types (p : A -> bool) (l : list A).

Lemma find_replace_first p x y l :
  find p l = Some y -> p x = true ->
  find p (Orchestrator.replace_first p x l) = Some x.
Proof.
  intros Hfind Hx. induction l as [|z l IH]; cbn in *; [discriminate|].
  destruct (p z) eqn:E; cbn.
  - now rewrite Hx.
  - rewrite E. auto.
Qed.

Lemma replace_first_again p x y l :
  p x = true ->
  Orchestrator.replace_first p y (Orchestrator.replace_first p x l)
  = Orchestrator.replace_first p y l.
Proof.
  intros Hx. induction l as [|z l IH]; cbn; [reflexivity|].
  destruct (p z) eqn:E; cbn.
  - now rewrite Hx.
  - now rewrite E, IH.
Qed.

End ReplaceFirst.

Lemma getTask_id taskId o task :
  Orchestrator.getTask taskId o = Some task -> ITask.id task = taskId.
Proof.
  unfold Orchestrator.getTask. intros H. apply find_some in H as [_ H].
  now apply String.eqb_eq.
Qed.

Lemma getWorkflow_key workflowKey o w :
  Orchestrator.getWorkflow workflowKey o = Some w -> Workflow.key w = workflowKey.
Proof.
  unfold Orchestrator.getWorkflow. intros H. apply find_some in H as [_ H].
  now apply String.eqb_eq.
Qed.

(** A method call through the reference, when the workflow is there. *)
Lemma onWorkflow_found {A} workflowKey (m : M Workflow.t A) o w :
  Orchestrator.getWorkflow workflowKey o = Some w ->
  Orchestrator.onWorkflow workflowKey m o
  = let '(out, w', cs) := m w in
    (out,
     Orchestrator.with_workflows
       (Orchestrator.replace_first (fun u => Workflow.key u =? workflowKey) w'
          (Orchestrator.workflows o)) o,
     cs).
Proof. intros H. unfold Orchestrator.onWorkflow. now rewrite H. Qed.

Lemma getWorkflow_replaced workflowKey o w w' :
  Orchestrator.getWorkflow workflowKey o = Some w ->
  Workflow.key w' = workflowKey ->
  Orchestrator.getWorkflow workflowKey
    (Orchestrator.with_workflows
       (Orchestrator.replace_first (fun u => Workflow.key u =? workflowKey) w'
          (Orchestrator.workflows o)) o)
  = Some w'.
Proof.
  intros Hget Hkey. unfold Orchestrator.getWorkflow in *. cbn.
  eapply find_replace_first; [eassumption|]. now apply String.eqb_eq.
Qed.

(** ** Event delivery, path by path *)

Section Delivery.
Variables (taskId : string) (event : IEvent.t) (now : string) (o : Orchestrator.t).

Lemma handleEvent_unknown_task :
  Orchestrator.getTask taskId o = None ->
  Orchestrator.handleEvent taskId event now o
  = (Returned (Orchestrator.TaskNotFound taskId event now), o, []).
Proof.
  intros H. unfold Orchestrator.handleEvent, bind, gets. now rewrite H.
Qed.

Lemma handleEvent_unknown_workflow task :
  Orchestrator.getTask taskId o = Some task ->
  Orchestrator.getWorkflow (ITask.workflowKey task) o = None ->
  Orchestrator.handleEvent taskId event now o
  = (Returned (Orchestrator.WorkflowNotFoundForTask task event now), o, []).
Proof.
  intros Ht Hw. unfold Orchestrator.handleEvent, bind, gets. now rewrite Ht, Hw.
Qed.

(** The path through the workflow: hydrate, resolve, commit, log. *)
Lemma handleEvent_dispatch task w result w' cs :
  Orchestrator.getTask taskId o = Some task ->
  Orchestrator.getWorkflow (ITask.workflowKey task) o = Some w ->
  Workflow.handleEvent event (Orchestrator.messenger o)
    (Workflow.with_state (Some (ITask.state task)) w)
  = (Returned result, w', cs) ->
  let log := Orchestrator.invocationLog task event now result in
  Orchestrator.handleEvent taskId event now o
  = (Returned log,
     {| Orchestrator.messenger := Orchestrator.messenger o;
        Orchestrator.workflows :=
          Orchestrator.replace_first
            (fun u => Workflow.key u =? ITask.workflowKey task) w'
            (Orchestrator.workflows o);
        Orchestrator.tasks :=
          if IActionLogData.success result
          then Orchestrator.replace_first (fun u => ITask.id u =? taskId)
                 (ITask.with_state
                    (IActionLogData.new_state result ?? ITask.state task) task)
                 (Orchestrator.tasks o)
          else Orchestrator.tasks o;
        Orchestrator.logs := (Orchestrator.logs o ++ [log])%list |},
     cs).
Proof.
  intros Ht Hw Hrun log.
  pose proof (getTask_id _ _ _ Ht) as Hid.
  pose proof (getWorkflow_key _ _ _ Hw) as Hkey.
  destruct (handleEvent_returns event (Orchestrator.messenger o)
              (Workflow.with_state (Some (ITask.state task)) w))
    as (r0 & w0 & cs0 & Hrun0 & Hframe).
  rewrite Hrun in Hrun0. injection Hrun0 as <- <- <-.
  assert (Hkey' : Workflow.key w' = ITask.workflowKey task)
    by (rewrite Hframe; exact Hkey).
  unfold Orchestrator.handleEvent.
  unfold bind at 1, gets at 1. rewrite Ht.
  unfold bind at 1, gets at 1. rewrite Hw.
  unfold bind at 1.
  rewrite (onWorkflow_found _ _ _ _ Hw). cbn [Workflow.setState modify].
  unfold bind at 1, gets at 1. cbn [Orchestrator.messenger Orchestrator.with_workflows].
  unfold bind at 1.
  rewrite (onWorkflow_found _ _ _ (Workflow.with_state (Some (ITask.state task)) w))
    by (apply (getWorkflow_replaced _ _ w); [exact Hw | exact Hkey]).
  rewrite Hrun. cbn [Orchestrator.with_workflows Orchestrator.workflows
                     Orchestrator.messenger Orchestrator.tasks Orchestrator.logs].
  rewrite replace_first_again by (now apply String.eqb_eq).
  rewrite Hid. fold log.
  destruct (IActionLogData.success result) eqn:Hs.
  - unfold bind, modify, ret, Orchestrator.assignTaskState, Orchestrator.getTask in *.
    cbn. rewrite Ht. cbn. now rewrite !app_nil_r.
  - unfold bind, modify, ret. cbn. now rewrite !app_nil_r.
Qed.
End Delivery.

Lemma task_with_same_state task : ITask.with_state (ITask.state task) task = task.
Proof. now destruct task. Qed.

(** What the path through the workflow leaves in the orchestrator. *)
Lemma handleEvent_dispatch_summary taskId event now o task w :
  Orchestrator.getTask taskId o = Some task ->
  Orchestrator.getWorkflow (ITask.workflowKey task) o = Some w ->
  exists result w' o' cs,
    Workflow.handleEvent event (Orchestrator.messenger o)
      (Workflow.with_state (Some (ITask.state task)) w)
    = (Returned result, w', cs)
    /\ Orchestrator.handleEvent taskId event now o
       = (Returned (Orchestrator.invocationLog task event now result), o', cs)
    /\ Orchestrator.logs o'
       = (Orchestrator.logs o ++ [Orchestrator.invocationLog task event now result])%list
    /\ Orchestrator.getTask taskId o'
       = Some (ITask.with_state
                 (if IActionLogData.success result
                  then IActionLogData.new_state result ?? ITask.state task
                  else ITask.state task) task)
    /\ Orchestrator.getWorkflow (ITask.workflowKey task) o' = Some w'
    /\ Orchestrator.messenger o' = Orchestrator.messenger o.
Proof.
  intros Ht Hw.
  destruct (handleEvent_returns event (Orchestrator.messenger o)
              (Workflow.with_state (Some (ITask.state task)) w))
    as (result & w' & cs & Hrun & Hframe).
  exists result, w'. eexists. exists cs. split; [exact Hrun|]. split.
  { exact (handleEvent_dispatch taskId event now o task w result w' cs Ht Hw Hrun). }
  cbn [Orchestrator.logs Orchestrator.messenger]. repeat split.
  - unfold Orchestrator.getTask in *. cbn [Orchestrator.tasks].
    destruct (IActionLogData.success result).
    + eapply find_replace_first; [exact Ht|]. cbn.
      apply find_some in Ht as [_ Ht]. exact Ht.
    + now rewrite task_with_same_state.
  - unfold Orchestrator.getWorkflow in *. cbn [Orchestrator.workflows].
    eapply find_replace_first; [exact Hw|].
    apply String.eqb_eq. rewrite Hframe. cbn.
    apply find_some in Hw as [_ Hw]. now apply String.eqb_eq in Hw.
Qed.

Lemma committed_getTask taskId o task :
  Orchestrator.getTask taskId o = Some task ->
  Orchestrator.committed taskId o = Some (ITask.state task).
Proof. unfold Orchestrator.committed. now intros ->. Qed.

(** ** Commit *)

(** C1, as the code has it. A call can change a task's committed state only
    when the workflow's result has [success = true]; the state then becomes
    the result's [new_state], and stays what it was when the result names
    none. After a failed result (no state, no trigger, no eligible action, a
    failure reported by the action, a thrown action body) and after a failed
    workflow lookup the committed state is the one before the call. *)
Theorem commit_only_on_success taskId event now o task :
  Orchestrator.getTask taskId o = Some task ->
  exists log o' cs,
    Orchestrator.handleEvent taskId event now o = (Returned log, o', cs)
    /\ Orchestrator.committed taskId o'
       = Some (match IInvocationLog.action_log_data log with
               | Some result =>
                   if IActionLogData.success result
                   then IActionLogData.new_state result ?? ITask.state task
                   else ITask.state task
               | None => ITask.state task
               end)
    /\ (Orchestrator.committed taskId o' <> Orchestrator.committed taskId o ->
        exists result,
          IInvocationLog.action_log_data log = Some result
          /\ IActionLogData.success result = true
          /\ IActionLogData.new_state result = Orchestrator.committed taskId o')
    /\ ((forall result, IInvocationLog.action_log_data log = Some result ->
                        IActionLogData.success result = false) ->
        Orchestrator.committed taskId o' = Orchestrator.committed taskId o).
Proof.
  intros Ht. rewrite (committed_getTask _ _ _ Ht).
  destruct (Orchestrator.getWorkflow (ITask.workflowKey task) o) as [w|] eqn:Hw.
  - destruct (handleEvent_dispatch_summary taskId event now o task w Ht Hw)
      as (result & w' & o' & cs & _ & Hrun & _ & Ht' & _).
    exists (Orchestrator.invocationLog task event now result), o', cs.
    split; [exact Hrun|]. rewrite (committed_getTask _ _ _ Ht'). cbn.
    split; [reflexivity|]. split.
    + intros Hchanged. exists result. split; [reflexivity|].
      destruct (IActionLogData.success result); [|congruence].
      split; [reflexivity|].
      destruct (IActionLogData.new_state result); [reflexivity | cbn in *; congruence].
    + intros Hfail. now rewrite (Hfail result eq_refl).
  - exists (Orchestrator.WorkflowNotFoundForTask task event now), o, [].
    split; [now apply handleEvent_unknown_workflow|].
    rewrite (committed_getTask _ _ _ Ht). cbn. split; [reflexivity|]. split.
    + congruence.
    + reflexivity.
Qed.

Lemma commit_only_on_success_witness :
  exists log o' cs,
    Orchestrator.handleEvent "task-1" Procurement.rfq_uploaded_event "2026-01-01T00:00:00.000Z"
      Procurement.orchestrator
    = (Returned log, o', cs)
    /\ Orchestrator.committed "task-1" o'
       = Some (match IInvocationLog.action_log_data log with
               | Some result =>
                   if IActionLogData.success result
                   then IActionLogData.new_state result
                        ?? IState.mk "rfq_uploaded" Procurement.fileUrl
                   else IState.mk "rfq_uploaded" Procurement.fileUrl
               | None => IState.mk "rfq_uploaded" Procurement.fileUrl
               end)
    /\ (Orchestrator.committed "task-1" o'
        <> Orchestrator.committed "task-1" Procurement.orchestrator ->
        exists result,
          IInvocationLog.action_log_data log = Some result
          /\ IActionLogData.success result = true
          /\ IActionLogData.new_state result = Orchestrator.committed "task-1" o')
    /\ ((forall result, IInvocationLog.action_log_data log = Some result ->
                        IActionLogData.success result = false) ->
        Orchestrator.committed "task-1" o'
        = Orchestrator.committed "task-1" Procurement.orchestrator).
Proof.
  exact (commit_only_on_success "task-1" Procurement.rfq_uploaded_event
           "2026-01-01T00:00:00.000Z" Procurement.orchestrator
           (ITask.mk "task-1" "rfq_procurement"
              (IState.mk "rfq_uploaded" Procurement.fileUrl) 0)
           eq_refl).
Defined.

(** C1, as stated, fails: the action [silent] reports success and names no
    next state; the workflow's result has [success = true] and the task's
    committed state after the call is the state before it. *)
Lemma success_does_not_force_a_change :
  let o := Fixtures.orchestrator [Fixtures.silent] in
  let run := Orchestrator.handleEvent "t1" Fixtures.go "2026-01-01T00:00:00.000Z" o in
  option_map IInvocationLog.action_log_data
    (match outcome run with Returned log => Some log | Thrown _ => None end)
  = Some (Some (Fixtures.result (Some "silent") true None))
  /\ IActionLogData.success (Fixtures.result (Some "silent") true None) = true
  /\ Orchestrator.committed "t1" (receiver run) = Some Fixtures.start
  /\ Orchestrator.committed "t1" o = Some Fixtures.start.
Proof. repeat split. Qed.

(** A call addressed to one task leaves the tasks under other ids alone. *)
Lemma find_replace_first_disjoint {A : Type} (p q : A -> bool) x l :
  (forall y, p y = true -> q y = false) -> q x = false ->
  find q (Orchestrator.replace_first p x l) = find q l.
Proof.
  intros Hpq Hx. induction l as [|y l IH]; cbn; [reflexivity|].
  destruct (p y) eqn:E; cbn.
  - now rewrite Hx, (Hpq y E).
  - now rewrite IH.
Qed.

Lemma handleEvent_leaves_other_tasks taskId event now o other :
  other <> taskId ->
  Orchestrator.getTask other (receiver (Orchestrator.handleEvent taskId event now o))
  = Orchestrator.getTask other o.
Proof.
  intros Hne.
  destruct (Orchestrator.getTask taskId o) as [task|] eqn:Ht.
  2:{ now rewrite handleEvent_unknown_task. }
  destruct (Orchestrator.getWorkflow (ITask.workflowKey task) o) as [w|] eqn:Hw.
  2:{ now rewrite (handleEvent_unknown_workflow _ _ _ _ task). }
  destruct (handleEvent_returns event (Orchestrator.messenger o)
              (Workflow.with_state (Some (ITask.state task)) w))
    as (result & w' & cs & Hrun & _).
  rewrite (handleEvent_dispatch taskId event now o task w result w' cs Ht Hw Hrun).
  unfold Orchestrator.getTask. cbn.
  destruct (IActionLogData.success result); [|reflexivity].
  apply find_replace_first_disjoint.
  - intros y Hy. apply String.eqb_eq in Hy. apply String.eqb_neq. congruence.
  - cbn. apply String.eqb_neq. apply getTask_id in Ht. congruence.
Qed.

(** ** The audit log *)

(** On the path through the workflow one entry is appended, and it is the
    entry returned. *)
Lemma dispatch_appends_the_returned_log taskId event now o task w :
  Orchestrator.getTask taskId o = Some task ->
  Orchestrator.getWorkflow (ITask.workflowKey task) o = Some w ->
  exists log o' cs,
    Orchestrator.handleEvent taskId event now o = (Returned log, o', cs)
    /\ Orchestrator.logs o' = (Orchestrator.logs o ++ [log])%list.
Proof.
  intros Ht Hw.
  destruct (handleEvent_dispatch_summary taskId event now o task w Ht Hw)
    as (result & w' & o' & cs & _ & Hrun & Hlogs & _).
  eauto.
Qed.

(** C3, where the code departs from it. When the task id is unknown, or the
    task's workflow is not registered, [Orchestrator.handleEvent] returns a
    failed entry and appends nothing: the orchestrator, its log sequence
    included, is what it was before the call. *)
Theorem lookup_failures_are_not_logged taskId event now o :
  Orchestrator.getTask taskId o = None
  \/ (exists task, Orchestrator.getTask taskId o = Some task
                   /\ Orchestrator.getWorkflow (ITask.workflowKey task) o = None) ->
  let run := Orchestrator.handleEvent taskId event now o in
  exists log,
    outcome run = Returned log
    /\ IInvocationLog.success log = false
    /\ IInvocationLog.task_id log = taskId
    /\ receiver run = o
    /\ Orchestrator.logs (receiver run) = Orchestrator.logs o.
Proof.
  intros [Ht | (task & Ht & Hw)] run; subst run.
  - rewrite handleEvent_unknown_task by assumption.
    exists (Orchestrator.TaskNotFound taskId event now). now cbn.
  - rewrite (handleEvent_unknown_workflow _ _ _ _ task) by assumption.
    exists (Orchestrator.WorkflowNotFoundForTask task event now). cbn.
    repeat split. now apply getTask_id in Ht.
Qed.

Lemma lookup_failures_are_not_logged_witness :
  let run := Orchestrator.handleEvent "nonexistent-id" Procurement.rfq_uploaded_event
               "2026-01-01T00:00:00.000Z" Procurement.orchestrator in
  exists log,
    outcome run = Returned log
    /\ IInvocationLog.success log = false
    /\ IInvocationLog.task_id log = "nonexistent-id"
    /\ receiver run = Procurement.orchestrator
    /\ Orchestrator.logs (receiver run) = Orchestrator.logs Procurement.orchestrator.
Proof.
  exact (lookup_failures_are_not_logged "nonexistent-id" Procurement.rfq_uploaded_event
           "2026-01-01T00:00:00.000Z" Procurement.orchestrator (or_introl eq_refl)).
Defined.

(** The log sequence is empty before that call and empty after it. *)
Example unknown_task_leaves_the_log_empty :
  Orchestrator.logs Procurement.orchestrator = []
  /\ Orchestrator.logs
       (receiver (Orchestrator.handleEvent "nonexistent-id" Procurement.rfq_uploaded_event
                    "2026-01-01T00:00:00.000Z" Procurement.orchestrator))
     = [].
Proof. split; reflexivity. Qed.

(** ** Totality *)

(** Where every condition and every guard answers, [Orchestrator.handleEvent]
    returns an entry for every task id and event, on every orchestrator: a
    thrown action body is caught inside [Workflow.handleEvent], and the
    references the method dereferences are the ones it has just found. For
    a task id that matches no task the entry has [success = false] and
    carries that id. *)
Theorem handleEvent_total taskId event now o :
  exists log o' cs,
    Orchestrator.handleEvent taskId event now o = (Returned log, o', cs)
    /\ (Orchestrator.getTask taskId o = None ->
        IInvocationLog.success log = false /\ IInvocationLog.task_id log = taskId).
Proof.
  destruct (Orchestrator.getTask taskId o) as [task|] eqn:Ht.
  - destruct (Orchestrator.getWorkflow (ITask.workflowKey task) o) as [w|] eqn:Hw.
    + destruct (handleEvent_dispatch_summary taskId event now o task w Ht Hw)
        as (result & w' & o' & cs & _ & Hrun & _).
      do 3 eexists. split; [exact Hrun | discriminate].
    + do 3 eexists.
      split; [exact (handleEvent_unknown_workflow taskId event now o task Ht Hw) | discriminate].
  - do 3 eexists.
    split; [exact (handleEvent_unknown_task taskId event now o Ht) | now cbn].
Qed.

Example handleEvent_unknown_task_example :
  outcome (Orchestrator.handleEvent "nonexistent-id" Procurement.rfq_processed_event
             "2026-01-01T00:00:00.000Z" Procurement.orchestrator)
  = Returned
      {| IInvocationLog.timestamp := "2026-01-01T00:00:00.000Z";
         IInvocationLog.task_id := "nonexistent-id";
         IInvocationLog.success := false;
         IInvocationLog.message := Some "Task 'nonexistent-id' not found";
         IInvocationLog.event := Procurement.rfq_processed_event;
         IInvocationLog.action_log_data := None |}.
Proof. reflexivity. Qed.

(** ** The success flag of an entry *)

(** C7, as the code has it. When both lookups succeed, the entry appended
    and returned has [success = !!result.action_key]: true exactly when the
    workflow's result carries an action key that is not the empty string,
    whatever the result's own [success] flag says. *)
Theorem log_success_is_truthiness_of_action_key taskId event now o task w :
  Orchestrator.getTask taskId o = Some task ->
  Orchestrator.getWorkflow (ITask.workflowKey task) o = Some w ->
  exists log result o' cs,
    Orchestrator.handleEvent taskId event now o = (Returned log, o', cs)
    /\ Orchestrator.logs o' = (Orchestrator.logs o ++ [log])%list
    /\ IInvocationLog.action_log_data log = Some result
    /\ IInvocationLog.success log = truthy (IActionLogData.action_key result)
    /\ (IInvocationLog.success log = true <->
        exists k, IActionLogData.action_key result = Some k /\ k <> "").
Proof.
  intros Ht Hw.
  destruct (handleEvent_dispatch_summary taskId event now o task w Ht Hw)
    as (result & w' & o' & cs & _ & Hrun & Hlogs & _).
  exists (Orchestrator.invocationLog task event now result), result, o', cs.
  repeat split; auto; cbn.
  - unfold truthy. destruct (IActionLogData.action_key result) as [k|]; [|discriminate].
    intros Hk. exists k. split; [reflexivity|].
    intros ->. discriminate.
  - intros (k & -> & Hne). cbn. destruct (String.eqb_spec k ""); [contradiction | reflexivity].
Qed.

Lemma log_success_is_truthiness_of_action_key_witness :
  exists log result o' cs,
    Orchestrator.handleEvent "t1" Fixtures.go "2026-01-01T00:00:00.000Z"
      (Fixtures.orchestrator [Fixtures.declining])
    = (Returned log, o', cs)
    /\ Orchestrator.logs o'
       = (Orchestrator.logs (Fixtures.orchestrator [Fixtures.declining]) ++ [log])%list
    /\ IInvocationLog.action_log_data log = Some result
    /\ IInvocationLog.success log = truthy (IActionLogData.action_key result)
    /\ (IInvocationLog.success log = true <->
        exists k, IActionLogData.action_key result = Some k /\ k <> "").
Proof.
  exact (log_success_is_truthiness_of_action_key "t1" Fixtures.go
           "2026-01-01T00:00:00.000Z" (Fixtures.orchestrator [Fixtures.declining])
           (ITask.mk "t1" "wf" Fixtures.start 0)
           (Fixtures.ready [Fixtures.declining])
           eq_refl eq_refl).
Defined.

(** The entry's flag is not the result's: an action that reports a failure
    under its key is logged as a success. *)
Example logged_success_of_a_failed_result :
  let run := Orchestrator.handleEvent "t1" Fixtures.go "2026-01-01T00:00:00.000Z"
               (Fixtures.orchestrator [Fixtures.declining]) in
  outcome run
  = Returned (Orchestrator.invocationLog (ITask.mk "t1" "wf" Fixtures.start 0) Fixtures.go
                "2026-01-01T00:00:00.000Z" (Fixtures.result (Some "declining") false None))
  /\ option_map IInvocationLog.success
       (match outcome run with Returned log => Some log | Thrown _ => None end)
     = Some true.
Proof. split; reflexivity. Qed.

(** C7, as stated, fails: the result of [unkeyed] carries an action key, the
    empty string, and the entry appended and returned has [success = false]. *)
Lemma present_but_empty_action_key :
  let o := Fixtures.orchestrator [Fixtures.unkeyed] in
  let run := Orchestrator.handleEvent "t1" Fixtures.go "2026-01-01T00:00:00.000Z" o in
  let result := Fixtures.result (Some "") true (Some (IState.mk "done" [])) in
  outcome run
  = Returned (Orchestrator.invocationLog (ITask.mk "t1" "wf" Fixtures.start 0) Fixtures.go
                "2026-01-01T00:00:00.000Z" result)
  /\ IActionLogData.action_key result = Some ""
  /\ IInvocationLog.success
       (Orchestrator.invocationLog (ITask.mk "t1" "wf" Fixtures.start 0) Fixtures.go
          "2026-01-01T00:00:00.000Z" result)
     = false
  /\ Orchestrator.logs (receiver run)
     = [Orchestrator.invocationLog (ITask.mk "t1" "wf" Fixtures.start 0) Fixtures.go
          "2026-01-01T00:00:00.000Z" result].
Proof. repeat split. Qed.

(** ** A success that names no next state *)

Lemma handleEvent_without_state event messenger w :
  Workflow.state w = None ->
  Workflow.handleEvent event messenger w = (Returned Workflow.InvalidState, w, []).
Proof. intros H. unfold Workflow.handleEvent, bind, gets. now rewrite H. Qed.

(** C10. When the invoked action returns [success = true] and no
    [new_state], the orchestrator keeps the task's committed state (the
    [??] fallback) while the workflow's own current state becomes
    [undefined]: until a state is set again, every [handleEvent] on that
    workflow returns the invalid-state failure and invokes nothing. *)
Theorem success_without_new_state
    taskId event now o task w eventTriggers pre trigger post result :
  Orchestrator.getTask taskId o = Some task ->
  Orchestrator.getWorkflow (ITask.workflowKey task) o = Some w ->
  JsMap.get (IEvent.key event) (Workflow.conditions w) = Some eventTriggers ->
  JsMap.values eventTriggers = (pre ++ trigger :: post)%list ->
  Forall (fun u => Resolution.passes (ITask.state task) event u = false) pre ->
  Resolution.passes (ITask.state task) event trigger = true ->
  Action.invoke (ITrigger.action trigger) (ITask.state task) (Orchestrator.messenger o)
  = Returned result ->
  IActionLogData.success result = true ->
  IActionLogData.new_state result = None ->
  exists o' cs w',
    Orchestrator.handleEvent taskId event now o
    = (Returned (Orchestrator.invocationLog task event now result), o', cs)
    /\ Resolution.invocations cs = 1
    /\ Orchestrator.committed taskId o' = Orchestrator.committed taskId o
    /\ Orchestrator.getWorkflow (ITask.workflowKey task) o' = Some w'
    /\ Workflow.state w' = None
    /\ forall event' messenger',
         Workflow.handleEvent event' messenger' w'
         = (Returned Workflow.InvalidState, w', []).
Proof.
  intros Ht Hw Hget Hsplit Hpre Hpass Hinvoke Hsuccess Hnone.
  destruct (handleEvent_dispatch_summary taskId event now o task w Ht Hw)
    as (result' & w' & o' & cs & Hrun & Horch & _ & Ht' & Hw' & _).
  rewrite (handleEvent_resolves (ITask.state task) event (Orchestrator.messenger o)
             (Workflow.with_state (Some (ITask.state task)) w)
             eventTriggers pre trigger post eq_refl Hget Hsplit Hpre Hpass) in Hrun.
  rewrite Hinvoke in Hrun. cbn [Resolution.settle Resolution.commit] in Hrun.
  rewrite Hsuccess, Hnone in Hrun. injection Hrun as <- <- <-.
  do 3 eexists. split; [exact Horch|]. split.
  { now rewrite invocations_app, invocations_skipped. }
  split.
  { rewrite (committed_getTask _ _ _ Ht), (committed_getTask _ _ _ Ht').
    rewrite Hsuccess, Hnone. reflexivity. }
  split; [exact Hw'|]. split; [reflexivity|].
  intros event' messenger'. now apply handleEvent_without_state.
Qed.

Lemma success_without_new_state_witness :
  exists o' cs w',
    Orchestrator.handleEvent "t1" Fixtures.go "2026-01-01T00:00:00.000Z"
      (Fixtures.orchestrator [Fixtures.blocked; Fixtures.silent])
    = (Returned
         (Orchestrator.invocationLog (ITask.mk "t1" "wf" Fixtures.start 0) Fixtures.go
            "2026-01-01T00:00:00.000Z" (Fixtures.result (Some "silent") true None)),
       o', cs)
    /\ Resolution.invocations cs = 1
    /\ Orchestrator.committed "t1" o'
       = Orchestrator.committed "t1" (Fixtures.orchestrator [Fixtures.blocked; Fixtures.silent])
    /\ Orchestrator.getWorkflow "wf" o' = Some w'
    /\ Workflow.state w' = None
    /\ forall event' messenger',
         Workflow.handleEvent event' messenger' w'
         = (Returned Workflow.InvalidState, w', []).
Proof.
  exact (success_without_new_state "t1" Fixtures.go "2026-01-01T00:00:00.000Z"
           (Fixtures.orchestrator [Fixtures.blocked; Fixtures.silent])
           (ITask.mk "t1" "wf" Fixtures.start 0)
           (Fixtures.ready [Fixtures.blocked; Fixtures.silent])
           [("blocked", Fixtures.trigger Fixtures.blocked);
            ("silent", Fixtures.trigger Fixtures.silent)]
           [Fixtures.trigger Fixtures.blocked]
           (Fixtures.trigger Fixtures.silent)
           []
           (Fixtures.result (Some "silent") true None)
           eq_refl eq_refl eq_refl eq_refl
           (Forall_cons (Fixtures.trigger Fixtures.blocked) eq_refl (Forall_nil _))
           eq_refl eq_refl eq_refl eq_refl).
Defined.

(** The second delivery to the workflow object itself, without a state set
    in between, and the second delivery through the orchestrator, which
    sets the task's committed state first. *)
Example second_delivery_without_rehydration :
  let o' := receiver (Orchestrator.handleEvent "t1" Fixtures.go "2026-01-01T00:00:00.000Z"
                        (Fixtures.orchestrator [Fixtures.silent])) in
  option_map (fun w' => outcome (Workflow.handleEvent Fixtures.go None w'))
    (Orchestrator.getWorkflow "wf" o')
  = Some (Returned Workflow.InvalidState)
  /\ option_map IInvocationLog.action_log_data
       (match outcome (Orchestrator.handleEvent "t1" Fixtures.go "2026-01-01T00:00:01.000Z" o')
        with Returned log => Some log | Thrown _ => None end)
     = Some (Some (Fixtures.result (Some "silent") true None)).
Proof. split; reflexivity. Qed.

(** ** Task creation *)

Lemma initTask_unknown_workflow workflowKey initialData uuid now o :
  Orchestrator.getWorkflow workflowKey o = None ->
  Orchestrator.initTask workflowKey initialData uuid now o
  = (Thrown (Orchestrator.WorkflowNotFound workflowKey), o, []).
Proof. intros H. unfold Orchestrator.initTask, bind, gets. now rewrite H. Qed.

Lemma with_initialStateData_same w :
  Workflow.with_initialStateData (Workflow.initialStateData w) w = w.
Proof. now destruct w. Qed.

(** [initTask] on a registered workflow: the data of the new task's state
    is the argument when there is one, and otherwise whatever the workflow
    holds as initial state data at that moment. *)
Lemma initTask_found workflowKey initialData uuid now o w :
  Orchestrator.getWorkflow workflowKey o = Some w ->
  let data := initialData ?? Workflow.initialStateData w in
  let state0 := IState.mk (Workflow.initialStateKey w) data in
  let task := ITask.mk uuid (Workflow.key w) state0 now in
  Orchestrator.initTask workflowKey initialData uuid now o
  = (Returned task,
     {| Orchestrator.messenger := Orchestrator.messenger o;
        Orchestrator.workflows :=
          Orchestrator.replace_first (fun u => Workflow.key u =? workflowKey)
            (Workflow.with_state (Some state0) (Workflow.with_initialStateData data w))
            (Orchestrator.workflows o);
        Orchestrator.tasks := (Orchestrator.tasks o ++ [task])%list;
        Orchestrator.logs := Orchestrator.logs o |},
     []).
Proof.
  intros Hw data state0 task.
  pose proof (getWorkflow_key _ _ _ Hw) as Hkey.
  assert (Hp : forall s d,
             (Workflow.key (Workflow.with_state s (Workflow.with_initialStateData d w))
              =? workflowKey) = true)
    by (intros; now apply String.eqb_eq).
  assert (Hw1 : forall o1 w1 w2,
             Orchestrator.getWorkflow workflowKey o1 = Some w1 ->
             Workflow.key w2 = workflowKey ->
             Orchestrator.getWorkflow workflowKey
               (Orchestrator.with_workflows
                  (Orchestrator.replace_first (fun u => Workflow.key u =? workflowKey) w2
                     (Orchestrator.workflows o1)) o1)
             = Some w2)
    by (intros; eapply getWorkflow_replaced; eauto).
  unfold Orchestrator.initTask. unfold bind at 1, gets at 1. rewrite Hw.
  destruct initialData as [d|]; cbn [nullish] in data.
  - unfold bind at 1. rewrite (onWorkflow_found _ _ _ _ Hw).
    cbn [Workflow.setInitialStateData modify].
    unfold bind at 1.
    rewrite (onWorkflow_found _ _ _ (Workflow.with_initialStateData d w))
      by (now apply (Hw1 o w)).
    cbn [Workflow.initState modify].
    unfold bind at 1.
    rewrite (onWorkflow_found _ _ _
               (Workflow.with_state
                  (Some (IState.mk (Workflow.initialStateKey w) d))
                  (Workflow.with_initialStateData d w)))
      by (apply (Hw1 _ (Workflow.with_initialStateData d w)); [now apply (Hw1 o w) | exact Hkey]).
    cbn [Workflow.getState gets Workflow.state Workflow.with_state
         Orchestrator.with_workflows Orchestrator.workflows].
    rewrite !replace_first_again by (apply Hp || now apply String.eqb_eq).
    reflexivity.
  - unfold bind at 1, ret at 1. unfold bind at 1.
    rewrite (onWorkflow_found _ _ _ _ Hw).
    cbn [Workflow.initState modify]. unfold bind at 1.
    rewrite (onWorkflow_found _ _ _
               (Workflow.with_state
                  (Some (IState.mk (Workflow.initialStateKey w) (Workflow.initialStateData w)))
                  w))
      by (now apply (Hw1 o w)).
    cbn [Workflow.getState gets Workflow.state Workflow.with_state
         Orchestrator.with_workflows Orchestrator.workflows].
    rewrite !replace_first_again by (now apply String.eqb_eq).
    subst task state0 data. rewrite with_initialStateData_same.
    reflexivity.
Qed.

(** With data supplied, the new task starts in the workflow's initial state
    key with exactly that data; it is appended to the task list and
    returned. *)
Lemma initTask_with_data workflowKey d uuid now o w :
  Orchestrator.getWorkflow workflowKey o = Some w ->
  let run := Orchestrator.initTask workflowKey (Some d) uuid now o in
  let task := ITask.mk uuid (Workflow.key w) (IState.mk (Workflow.initialStateKey w) d) now in
  outcome run = Returned task
  /\ Orchestrator.tasks (receiver run) = (Orchestrator.tasks o ++ [task])%list.
Proof.
  intros Hw run task. subst run.
  rewrite (initTask_found workflowKey (Some d) uuid now o w Hw). now cbn.
Qed.

(** C8, where the code departs from it. Called without [initialData],
    [initTask] skips [setInitialStateData], and the new task's state takes
    the data the workflow object holds at that moment: the empty record on
    a workflow that never received any, and otherwise the data of the last
    call that supplied some. *)
Theorem initTask_without_data_keeps_stored_data workflowKey uuid now o w :
  Orchestrator.getWorkflow workflowKey o = Some w ->
  let run := Orchestrator.initTask workflowKey None uuid now o in
  let task :=
    ITask.mk uuid (Workflow.key w)
      (IState.mk (Workflow.initialStateKey w) (Workflow.initialStateData w)) now in
  outcome run = Returned task
  /\ Orchestrator.tasks (receiver run) = (Orchestrator.tasks o ++ [task])%list.
Proof.
  intros Hw run task. subst run.
  rewrite (initTask_found workflowKey None uuid now o w Hw). now cbn.
Qed.

Lemma initTask_without_data_keeps_stored_data_witness :
  let run := Orchestrator.initTask "rfq_procurement" None "task-2" 1 Procurement.orchestrator in
  let task := ITask.mk "task-2" "rfq_procurement"
                (IState.mk "rfq_uploaded" Procurement.fileUrl) 1 in
  outcome run = Returned task
  /\ Orchestrator.tasks (receiver run)
     = (Orchestrator.tasks Procurement.orchestrator ++ [task])%list.
Proof.
  exact (initTask_without_data_keeps_stored_data "rfq_procurement" "task-2" 1
           Procurement.orchestrator
           (Workflow.with_state (Some (IState.mk "rfq_uploaded" Procurement.fileUrl))
              (Workflow.with_initialStateData Procurement.fileUrl
                 Procurement.rfqProcurementWorkflow))
           eq_refl).
Defined.

(** On a workflow that never received initial data the call without data
    gives the empty record. *)
Example initTask_without_data_on_a_fresh_workflow :
  option_map ITask.state
    (match outcome (Orchestrator.initTask "rfq_procurement" None "task-1" 0
                      Procurement.orchestrator0)
     with Returned task => Some task | Thrown _ => None end)
  = Some (IState.mk "rfq_uploaded" []).
Proof. reflexivity. Qed.

Example initTask_on_an_unregistered_workflow :
  Orchestrator.initTask "missing" (Some Procurement.fileUrl) "task-2" 1 Procurement.orchestrator
  = (Thrown (Error "Workflow 'missing' not found"), Procurement.orchestrator, []).
Proof. reflexivity. Qed.

(** ** Conflicts at configuration time *)

Lemma addTrigger_on_registered_action eventKey action condition w :
  JsMap.has (Action.key action) (Workflow.actions w) = true ->
  Workflow.addTrigger eventKey action condition w
  = (Thrown (Workflow.ActionKeyConflict (Action.key action) (Workflow.key w)), w, []).
Proof.
  intros H. unfold Workflow.addTrigger, bind at 1.
  now rewrite registerAction_conflict.
Qed.

Lemma conflicts_differ actionKey actionKey' eventKey workflowKey workflowKey' :
  Workflow.ActionKeyConflict actionKey workflowKey
  <> Workflow.TriggerConflict actionKey' eventKey workflowKey'.
Proof. unfold Workflow.ActionKeyConflict, Workflow.TriggerConflict, Error. cbn. congruence. Qed.

(** C4, where the code departs from it. [addTrigger] begins with an
    unconditional [registerAction]: for an action whose key the workflow
    already holds (registered through the constructor, or bound under
    another event key before) it throws the action-key conflict, which is
    not the trigger conflict, and leaves the workflow as it was, whatever
    the event key. *)
Theorem addTrigger_registered_action_conflicts eventKey action condition w :
  JsMap.has (Action.key action) (Workflow.actions w) = true ->
  let run := Workflow.addTrigger eventKey action condition w in
  outcome run = Thrown (Workflow.ActionKeyConflict (Action.key action) (Workflow.key w))
  /\ outcome run <> Thrown (Workflow.TriggerConflict (Action.key action) eventKey (Workflow.key w))
  /\ receiver run = w.
Proof.
  intros H run. subst run. rewrite addTrigger_on_registered_action by assumption.
  cbn. repeat split. intros E.
  assert (E' : Workflow.ActionKeyConflict (Action.key action) (Workflow.key w)
               = Workflow.TriggerConflict (Action.key action) eventKey (Workflow.key w))
    by congruence.
  now apply conflicts_differ in E'.
Qed.

Lemma addTrigger_registered_action_conflicts_witness :
  let run := Workflow.addTrigger "stop" Fixtures.finishing Fixtures.anywhere
               (Fixtures.workflow [Fixtures.finishing]) in
  outcome run = Thrown (Error "Action 'finishing' is already registered in workflow 'wf'")
  /\ outcome run
     <> Thrown (Error "Trigger for action 'finishing' already exists for event 'stop' in workflow 'wf'")
  /\ receiver run = Fixtures.workflow [Fixtures.finishing].
Proof.
  exact (addTrigger_registered_action_conflicts "stop" Fixtures.finishing Fixtures.anywhere
           (Fixtures.workflow [Fixtures.finishing]) eq_refl).
Defined.

(** The trigger conflict needs an action key that is bound under the event
    and absent from the action registry. *)
Lemma addTrigger_trigger_conflict eventKey action condition w :
  JsMap.has (Action.key action) (Workflow.actions w) = false ->
  JsMap.has (Action.key action)
            (JsMap.get eventKey (Workflow.conditions w) ?? JsMap.empty) = true ->
  Workflow.addTrigger eventKey action condition w
  = (Thrown (Workflow.TriggerConflict (Action.key action) eventKey (Workflow.key w)),
     Workflow.with_actions (JsMap.set (Action.key action) action (Workflow.actions w)) w,
     []).
Proof.
  intros Hact Htrig. unfold Workflow.addTrigger, bind at 1.
  rewrite registerAction_fresh by assumption.
  unfold bind, gets, throw. cbn. now rewrite Htrig.
Qed.

(** On a workflow whose bound actions are all registered, [addTrigger]
    never reports a trigger conflict: the registry check answers first. *)
Lemma addTrigger_never_reports_a_trigger_conflict eventKey action condition w :
  Resolution.bound_actions_registered w ->
  forall actionKey' eventKey' workflowKey',
    outcome (Workflow.addTrigger eventKey action condition w)
    <> Thrown (Workflow.TriggerConflict actionKey' eventKey' workflowKey').
Proof.
  intros Hbound ak' ek' wk'.
  destruct (JsMap.has (Action.key action) (Workflow.actions w)) eqn:Hact.
  - rewrite addTrigger_on_registered_action by assumption. cbn.
    intros H.
    assert (H' : Workflow.ActionKeyConflict (Action.key action) (Workflow.key w)
                 = Workflow.TriggerConflict ak' ek' wk')
      by congruence.
    now apply conflicts_differ in H'.
  - destruct (JsMap.has (Action.key action)
                (JsMap.get eventKey (Workflow.conditions w) ?? JsMap.empty)) eqn:Htrig.
    + exfalso. destruct (JsMap.get eventKey (Workflow.conditions w)) as [trigs|] eqn:Hget.
      * cbn in Htrig. rewrite (Hbound _ _ _ Hget Htrig) in Hact. discriminate.
      * discriminate.
    + destruct (addTrigger_fresh eventKey action condition w Hact Htrig) as (w' & -> & _).
      cbn. discriminate.
Qed.

(** That condition holds of every workflow the API builds. *)
Lemma registerAction_keeps_bound action w :
  Resolution.bound_actions_registered w ->
  Resolution.bound_actions_registered (receiver (Workflow.registerAction action w)).
Proof.
  intros Hbound.
  destruct (JsMap.has (Action.key action) (Workflow.actions w)) eqn:Hact.
  - now rewrite registerAction_conflict.
  - rewrite registerAction_fresh by assumption. cbn.
    intros ek trigs ak Hget Hhas. cbn in *.
    rewrite has_set, (Hbound ek trigs ak Hget Hhas). apply orb_true_r.
Qed.

Lemma addTrigger_keeps_bound eventKey action condition w :
  Resolution.bound_actions_registered w ->
  Resolution.bound_actions_registered
    (receiver (Workflow.addTrigger eventKey action condition w)).
Proof.
  intros Hbound.
  destruct (JsMap.has (Action.key action) (Workflow.actions w)) eqn:Hact.
  { now rewrite addTrigger_on_registered_action. }
  destruct (JsMap.has (Action.key action)
              (JsMap.get eventKey (Workflow.conditions w) ?? JsMap.empty)) eqn:Htrig.
  { rewrite addTrigger_trigger_conflict by assumption. cbn.
    intros ek trigs ak Hget Hhas. cbn in *.
    rewrite has_set, (Hbound ek trigs ak Hget Hhas). apply orb_true_r. }
  unfold Workflow.addTrigger, bind at 1. rewrite registerAction_fresh by assumption.
  unfold bind, gets, modify. cbn. rewrite Htrig. cbn.
  intros ek trigs ak Hget Hhas. cbn in *. rewrite has_set.
  destruct (String.eqb_spec eventKey ek) as [<-|Hne].
  - rewrite get_set_same in Hget. injection Hget as <-.
    rewrite has_set in Hhas. apply orb_true_iff in Hhas as [Hk|Hold].
    + now rewrite Hk.
    + destruct (JsMap.get eventKey (Workflow.conditions w)) as [old|] eqn:Hold'.
      * rewrite (Hbound eventKey old ak Hold' Hold). apply orb_true_r.
      * discriminate.
  - rewrite get_set_other in Hget by congruence.
    rewrite (Hbound ek trigs ak Hget Hhas). apply orb_true_r.
Qed.

Lemma registerAll_conditions acts w :
  Workflow.conditions (receiver (Workflow.registerAll acts w)) = Workflow.conditions w.
Proof.
  revert w. induction acts as [|a rest IH]; intros w; [reflexivity|].
  cbn [Workflow.registerAll]. unfold bind.
  destruct (JsMap.has (Action.key a) (Workflow.actions w)) eqn:Hact.
  - now rewrite registerAction_conflict.
  - rewrite registerAction_fresh by assumption.
    specialize (IH (Workflow.with_actions
                      (JsMap.set (Action.key a) a (Workflow.actions w)) w)).
    destruct (Workflow.registerAll rest _) as [[out w'] cs]. exact IH.
Qed.

Lemma new_bound key initialStateKey acts :
  Resolution.bound_actions_registered (receiver (Workflow.new key initialStateKey acts)).
Proof.
  unfold Workflow.new. intros ek trigs ak Hget.
  rewrite registerAll_conditions in Hget. discriminate.
Qed.

(** An action handed to the constructor can therefore never be bound. *)
Example constructor_action_cannot_be_bound :
  outcome (Workflow.addTrigger "go" Fixtures.finishing Fixtures.anywhere
             (receiver (Workflow.new "wf" "start" [Fixtures.finishing])))
  = Thrown (Error "Action 'finishing' is already registered in workflow 'wf'").
Proof. reflexivity. Qed.

(** Binding the same pair twice reports the action-key conflict as well. *)
Example same_pair_twice :
  outcome (Workflow.addTrigger "go" Fixtures.finishing Fixtures.anywhere
             (Fixtures.workflow [Fixtures.finishing]))
  = Thrown (Error "Action 'finishing' is already registered in workflow 'wf'").
Proof. reflexivity. Qed.

Lemma handleEvent_deterministic_witness :
  let w1 := Fixtures.ready [Fixtures.blocked; Fixtures.finishing] in
  let w2 := Workflow.with_initialStateData Procurement.fileUrl
              (receiver (Workflow.addTrigger "stop" Fixtures.silent Fixtures.anywhere w1)) in
  let run1 := Workflow.handleEvent Fixtures.go None w1 in
  let run2 := Workflow.handleEvent Fixtures.go None w2 in
  outcome run1 = outcome run2
  /\ callbacks run1 = callbacks run2
  /\ Workflow.state (receiver run1) = Workflow.state (receiver run2).
Proof.
  exact (handleEvent_deterministic Fixtures.go None
           (Fixtures.ready [Fixtures.blocked; Fixtures.finishing])
           (Workflow.with_initialStateData Procurement.fileUrl
              (receiver (Workflow.addTrigger "stop" Fixtures.silent Fixtures.anywhere
                           (Fixtures.ready [Fixtures.blocked; Fixtures.finishing]))))
           eq_refl eq_refl).
Defined.

(** ** The procurement scenario *)

Example rfq_uploaded_then_processed :
  let o1 := Orchestrator.handleEvent "task-1" Procurement.rfq_uploaded_event
              "2026-01-01T00:00:00.000Z" Procurement.orchestrator in
  let o2 := Orchestrator.handleEvent "task-1" Procurement.rfq_processed_event
              "2026-01-01T00:00:01.000Z" (receiver o1) in
  option_map IInvocationLog.success
    (match outcome o1 with Returned log => Some log | Thrown _ => None end) = Some true
  /\ Orchestrator.committed "task-1" (receiver o1)
     = Some (IState.mk "processing" Procurement.fileUrl)
  /\ option_map IInvocationLog.success
       (match outcome o2 with Returned log => Some log | Thrown _ => None end) = Some true
  /\ Orchestrator.committed "task-1" (receiver o2)
     = Some (IState.mk "awaiting_role_assignment" Procurement.fileUrl)
  /\ length (Orchestrator.logs (receiver o2)) = 2.
Proof. repeat split. Qed.

Example rfq_processed_too_early :
  let run := Orchestrator.handleEvent "task-1" Procurement.rfq_processed_event
               "2026-01-01T00:00:00.000Z" Procurement.orchestrator in
  option_map IInvocationLog.action_log_data
    (match outcome run with Returned log => Some log | Thrown _ => None end)
  = Some (Some (Workflow.NoApplicableAction Procurement.rfq_processed_event))
  /\ Orchestrator.committed "task-1" (receiver run)
     = Some (IState.mk "rfq_uploaded" Procurement.fileUrl)
  /\ callbacks run = [CallCondition "notify_role_selection"].
Proof. repeat split. Qed.

(** * The rest of the API *)

(** ** More on insertion-ordered maps *)

Section JsMapShape.
Context {V : Type}.
Implicit Types (m : JsMap.t V) (k : string) (v : V).

Lemma has_false_not_in k m : JsMap.has k m = false <-> ~ In k (Shape.keys m).
Proof.
  unfold JsMap.has, Shape.keys. induction m as [|[k' v'] m IH]; cbn.
  - tauto.
  - destruct (String.eqb_spec k' k) as [->|Hne].
    + split; [discriminate | intros H; exfalso; apply H; now left].
    + rewrite IH. split; [intros H [E|E]; [congruence | contradiction] | tauto].
Qed.

Lemma has_true_in k m : JsMap.has k m = true <-> In k (Shape.keys m).
Proof.
  destruct (JsMap.has k m) eqn:E.
  - split; [intros _|reflexivity].
    unfold JsMap.has, Shape.keys in *. induction m as [|[k' v'] m IH]; cbn in *; [discriminate|].
    destruct (String.eqb_spec k' k); [now left | right; auto].
  - apply has_false_not_in in E. split; [discriminate | contradiction].
Qed.

Lemma keys_set_fresh k v m :
  JsMap.has k m = false -> Shape.keys (JsMap.set k v m) = (Shape.keys m ++ [k])%list.
Proof.
  intros H. rewrite set_fresh by assumption. unfold Shape.keys. now rewrite map_app.
Qed.

Lemma keys_set_present k v m :
  JsMap.has k m = true -> Shape.keys (JsMap.set k v m) = Shape.keys m.
Proof.
  unfold JsMap.has, Shape.keys. induction m as [|[k' v'] m IH]; cbn; [discriminate|].
  destruct (k' =? k) eqn:E; cbn; [reflexivity|]. intros H. now rewrite IH.
Qed.

Lemma size_set_present k v m :
  JsMap.has k m = true -> JsMap.size (JsMap.set k v m) = JsMap.size m.
Proof.
  intros H. unfold JsMap.size.
  rewrite <- (length_map fst (JsMap.set k v m)), <- (length_map fst m).
  change (length (Shape.keys (JsMap.set k v m)) = length (Shape.keys m)).
  now rewrite keys_set_present.
Qed.

Lemma NoDup_keys_set_fresh k v m :
  NoDup (Shape.keys m) -> JsMap.has k m = false -> NoDup (Shape.keys (JsMap.set k v m)).
Proof.
  intros Hnd Hk. rewrite keys_set_fresh by assumption.
  apply NoDup_app; [assumption | repeat constructor; intros [] | ].
  intros x Hx [<-|[]]. now apply has_false_not_in in Hk.
Qed.

(** When the keys are pairwise distinct, [get] finds every entry. *)
Lemma get_of_entry k v m :
  NoDup (Shape.keys m) -> In (k, v) m -> JsMap.get k m = Some v.
Proof.
  unfold Shape.keys. induction m as [|[k' v'] m IH]; cbn; [contradiction|].
  intros Hnd [E|Hin].
  - injection E as -> ->. now rewrite String.eqb_refl.
  - inversion Hnd as [|? ? Hnot Hnd']; subst.
    destruct (String.eqb_spec k' k) as [->|Hne]; [|auto].
    exfalso. apply Hnot. apply (in_map fst) in Hin. exact Hin.
Qed.
End JsMapShape.

(** ** Registering actions *)

Lemma registerAction_frame action w :
  let w' := receiver (Workflow.registerAction action w) in
  Workflow.key w' = Workflow.key w
  /\ Workflow.initialStateKey w' = Workflow.initialStateKey w
  /\ Workflow.state w' = Workflow.state w
  /\ Workflow.initialStateData w' = Workflow.initialStateData w
  /\ Workflow.conditions w' = Workflow.conditions w.
Proof.
  destruct (JsMap.has (Action.key action) (Workflow.actions w)) eqn:H.
  - rewrite registerAction_conflict by assumption. now cbn.
  - rewrite registerAction_fresh by assumption. now cbn.
Qed.

(** X1. [registerAction] puts an unregistered action last in [getActions]
    and touches nothing else; whatever the first call did, registering the
    same action a second time throws the action-key conflict and changes
    nothing. *)
Theorem registerAction_then_again action w :
  let once := Workflow.registerAction action w in
  let again := Workflow.registerAction action (receiver once) in
  (JsMap.has (Action.key action) (Workflow.actions w) = false ->
   outcome once = Returned tt
   /\ outcome (Workflow.getActions (receiver once))
      = Returned (JsMap.values (Workflow.actions w) ++ [action])%list
   /\ Workflow.conditions (receiver once) = Workflow.conditions w
   /\ Workflow.state (receiver once) = Workflow.state w)
  /\ outcome again
     = Thrown (Workflow.ActionKeyConflict (Action.key action) (Workflow.key w))
  /\ receiver again = receiver once.
Proof.
  intros once again. subst once again.
  destruct (JsMap.has (Action.key action) (Workflow.actions w)) eqn:H.
  - rewrite registerAction_conflict by assumption. cbn [receiver fst snd].
    rewrite registerAction_conflict by assumption. cbn. split; [discriminate | auto].
  - rewrite registerAction_fresh by assumption. cbn [receiver fst snd].
    rewrite registerAction_conflict by (cbn; apply has_set_same).
    cbn [outcome receiver fst snd Workflow.key Workflow.with_actions
         Workflow.conditions Workflow.state].
    split; [|auto]. intros _. repeat split.
    unfold Workflow.getActions, gets.
    cbn [outcome fst Workflow.actions Workflow.with_actions].
    now rewrite values_set_fresh.
Qed.

Lemma registerAll_spec acts : forall w,
  let run := Workflow.registerAll acts w in
  (outcome run = Returned tt <->
   NoDup (map Action.key acts)
   /\ Forall (fun a => JsMap.has (Action.key a) (Workflow.actions w) = false) acts)
  /\ (outcome run = Returned tt ->
      Workflow.actions (receiver run)
      = (Workflow.actions w ++ map (fun a => (Action.key a, a)) acts)%list)
  /\ (forall e, outcome run = Thrown e ->
        exists k, e = Workflow.ActionKeyConflict k (Workflow.key w)
                  /\ In k (map Action.key acts))
  /\ Workflow.key (receiver run) = Workflow.key w
  /\ Workflow.state (receiver run) = Workflow.state w
  /\ Workflow.initialStateKey (receiver run) = Workflow.initialStateKey w
  /\ callbacks run = [].
Proof.
  induction acts as [|a rest IH]; intros w run; subst run.
  - cbn. repeat split; try constructor; try discriminate. now rewrite app_nil_r.
  - cbn [Workflow.registerAll]. unfold bind.
    destruct (JsMap.has (Action.key a) (Workflow.actions w)) eqn:Ha.
    + rewrite registerAction_conflict by assumption. cbn.
      repeat split; try discriminate.
      * intros [_ HF]. inversion HF; subst. congruence.
      * intros e E. injection E as <-. exists (Action.key a). split; [reflexivity | now left].
    + rewrite registerAction_fresh by assumption.
      set (w1 := Workflow.with_actions
                   (JsMap.set (Action.key a) a (Workflow.actions w)) w).
      specialize (IH w1). cbv zeta in IH.
      destruct (Workflow.registerAll rest w1) as [[out w2] cs] eqn:Erun.
      cbn [outcome receiver callbacks fst snd] in *.
      destruct IH as (Hiff & Hacts & Hthrown & Hkey & Hst & Hisk & Hcs).
      assert (Hhas : forall k, JsMap.has k (Workflow.actions w1)
                               = (Action.key a =? k) || JsMap.has k (Workflow.actions w))
        by (intros k; subst w1; cbn; apply has_set).
      split; [|split; [|split; [|split; [|split; [|split]]]]]; auto.
      * rewrite Hiff. cbn [map]. rewrite NoDup_cons_iff, Forall_cons_iff.
        rewrite !Forall_forall. split.
        -- intros [Hnd HF]. split; [split; [|exact Hnd]|split; [exact Ha|]].
           ++ intros Hin. apply in_map_iff in Hin as (b & Hb & Hin).
              specialize (HF b Hin). rewrite Hhas, <- Hb, String.eqb_refl in HF.
              discriminate.
           ++ intros b Hin. specialize (HF b Hin). rewrite Hhas in HF.
              now apply orb_false_iff in HF.
        -- intros [[Hnot Hnd] [_ HF]]. split; [exact Hnd|].
           intros b Hin. rewrite Hhas, (HF b Hin), orb_false_r.
           apply String.eqb_neq. intros E. apply Hnot. rewrite E. now apply in_map.
      * intros E. rewrite (Hacts E). subst w1. cbn.
        rewrite set_fresh by assumption. now rewrite <- app_assoc.
      * intros e E. destruct (Hthrown e E) as (k & -> & Hin).
        exists k. split; [reflexivity | now right].
Qed.

(** X2. [new Workflow(key, initialStateKey, actions)] returns exactly when
    the keys of [actions] are pairwise distinct; [getActions] then lists
    them in the order given, no state is set and no trigger is bound. It
    throws nothing but the action-key conflict, for a key of the list. *)
Theorem constructor_registers_distinct_keys key initialStateKey acts :
  let run := Workflow.new key initialStateKey acts in
  (outcome run = Returned tt <-> NoDup (map Action.key acts))
  /\ (outcome run = Returned tt ->
      outcome (Workflow.getActions (receiver run)) = Returned acts
      /\ outcome (Workflow.getState (receiver run)) = Returned None
      /\ Workflow.conditions (receiver run) = JsMap.empty)
  /\ (forall e, outcome run = Thrown e ->
        exists k, e = Workflow.ActionKeyConflict k key /\ In k (map Action.key acts))
  /\ Workflow.key (receiver run) = key
  /\ Workflow.initialStateKey (receiver run) = initialStateKey.
Proof.
  intros run. subst run. unfold Workflow.new.
  set (w0 := Workflow.mk key initialStateKey None [] JsMap.empty JsMap.empty).
  destruct (registerAll_spec acts w0) as (Hiff & Hacts & Hthrown & Hkey & Hst & Hisk & _).
  split; [|split; [|split; [|split]]]; auto.
  - rewrite Hiff. split; [tauto|]. intros Hnd. split; [exact Hnd|].
    apply Forall_forall. reflexivity.
  - intros E. unfold Workflow.getActions, Workflow.getState, gets. cbn.
    rewrite (Hacts E), Hst, registerAll_conditions. cbn. repeat split.
    unfold JsMap.values. rewrite map_map. cbn. now rewrite map_id.
Qed.

(** ** The shape of a built workflow *)

Lemma addTrigger_fresh_eq eventKey action condition w :
  JsMap.has (Action.key action) (Workflow.actions w) = false ->
  JsMap.has (Action.key action)
            (JsMap.get eventKey (Workflow.conditions w) ?? JsMap.empty) = false ->
  Workflow.addTrigger eventKey action condition w
  = (Returned tt,
     Workflow.mk (Workflow.key w) (Workflow.initialStateKey w) (Workflow.state w)
       (Workflow.initialStateData w)
       (JsMap.set (Action.key action) action (Workflow.actions w))
       (JsMap.set eventKey
          (JsMap.set (Action.key action) (ITrigger.mk action condition)
             (JsMap.get eventKey (Workflow.conditions w) ?? JsMap.empty))
          (Workflow.conditions w)),
     []).
Proof.
  intros Hact Htrig. unfold Workflow.addTrigger, bind at 1.
  rewrite registerAction_fresh by assumption.
  unfold bind, gets, modify. cbn. now rewrite Htrig.
Qed.

Lemma well_keyed_ext w w' :
  Workflow.actions w' = Workflow.actions w ->
  Workflow.conditions w' = Workflow.conditions w ->
  Shape.well_keyed w -> Shape.well_keyed w'.
Proof.
  unfold Shape.well_keyed, Shape.keyed_actions, Shape.keyed_triggers.
  intros -> ->. auto.
Qed.

Lemma has_set_mono {V} (k k' : string) (v : V) (m : JsMap.t V) :
  JsMap.has k' m = true -> JsMap.has k' (JsMap.set k v m) = true.
Proof. intros H. rewrite has_set, H. apply orb_true_r. Qed.

Lemma well_keyed_add_action action w :
  Shape.well_keyed w ->
  JsMap.has (Action.key action) (Workflow.actions w) = false ->
  Shape.well_keyed
    (Workflow.with_actions (JsMap.set (Action.key action) action (Workflow.actions w)) w).
Proof.
  intros [[Hnd Hkeys] Htrig] Hfresh. split; [split|]; cbn.
  - now apply NoDup_keys_set_fresh.
  - rewrite set_fresh by assumption. apply Forall_app. split; [assumption|].
    now repeat constructor.
  - intros ek trigs Hget. destruct (Htrig ek trigs Hget) as [Hnd' HF]. split; [assumption|].
    eapply Forall_impl; [|exact HF]. intros entry [Hk Hreg]. split; [assumption|].
    now apply has_set_mono.
Qed.

Lemma well_keyed_registerAction action w :
  Shape.well_keyed w -> Shape.well_keyed (receiver (Workflow.registerAction action w)).
Proof.
  intros Hw. destruct (JsMap.has (Action.key action) (Workflow.actions w)) eqn:H.
  - now rewrite registerAction_conflict.
  - rewrite registerAction_fresh by assumption. now apply well_keyed_add_action.
Qed.

(** In a well-keyed workflow a trigger is bound only under registered keys. *)
Lemma well_keyed_bound w : Shape.well_keyed w -> Resolution.bound_actions_registered w.
Proof.
  intros [_ Htrig] ek trigs ak Hget Hhas.
  destruct (Htrig ek trigs Hget) as [_ HF].
  apply has_true_in in Hhas. unfold Shape.keys in Hhas.
  apply in_map_iff in Hhas as (entry & <- & Hin).
  rewrite Forall_forall in HF. now destruct (HF entry Hin).
Qed.

Lemma well_keyed_unregistered_is_unbound eventKey action w :
  Shape.well_keyed w ->
  JsMap.has (Action.key action) (Workflow.actions w) = false ->
  JsMap.has (Action.key action)
            (JsMap.get eventKey (Workflow.conditions w) ?? JsMap.empty) = false.
Proof.
  intros Hw Hact.
  destruct (JsMap.get eventKey (Workflow.conditions w)) as [trigs|] eqn:Hget; [|reflexivity].
  cbn. destruct (JsMap.has (Action.key action) trigs) eqn:Hhas; [|reflexivity].
  rewrite (well_keyed_bound w Hw _ _ _ Hget Hhas) in Hact. discriminate.
Qed.

Lemma well_keyed_addTrigger eventKey action condition w :
  Shape.well_keyed w ->
  Shape.well_keyed (receiver (Workflow.addTrigger eventKey action condition w)).
Proof.
  intros Hw. destruct (JsMap.has (Action.key action) (Workflow.actions w)) eqn:Hact.
  { now rewrite addTrigger_on_registered_action. }
  pose proof (well_keyed_unregistered_is_unbound eventKey action w Hw Hact) as Htrig.
  rewrite addTrigger_fresh_eq by assumption. cbn [receiver fst snd].
  destruct (well_keyed_add_action action w Hw Hact) as [Hacts Htrigs].
  split; [exact Hacts|]. cbn in Htrigs |- *.
  intros ek trigs Hget. cbn in Hget.
  destruct (String.eqb_spec eventKey ek) as [<-|Hne].
  - rewrite get_set_same in Hget. injection Hget as <-.
    assert (Hold : NoDup (Shape.keys (JsMap.get eventKey (Workflow.conditions w) ?? JsMap.empty))
                   /\ Forall (fun entry =>
                                Action.key (ITrigger.action (snd entry)) = fst entry
                                /\ JsMap.has (fst entry)
                                     (JsMap.set (Action.key action) action (Workflow.actions w))
                                   = true)
                             (JsMap.get eventKey (Workflow.conditions w) ?? JsMap.empty)).
    { destruct (JsMap.get eventKey (Workflow.conditions w)) as [old|] eqn:Hold.
      - exact (Htrigs eventKey old Hold).
      - cbn. split; constructor. }
    destruct Hold as [Hnd HF]. split.
    + now apply NoDup_keys_set_fresh.
    + rewrite (set_fresh (Action.key action) (ITrigger.mk action condition)) by assumption.
      apply Forall_app. split; [assumption|].
      repeat constructor. cbn. apply has_set_same.
  - rewrite get_set_other in Hget by congruence. exact (Htrigs ek trigs Hget).
Qed.

Lemma well_keyed_registerAll acts : forall w,
  Shape.well_keyed w -> Shape.well_keyed (receiver (Workflow.registerAll acts w)).
Proof.
  induction acts as [|a rest IH]; intros w Hw; [exact Hw|].
  cbn [Workflow.registerAll]. unfold bind.
  pose proof (well_keyed_registerAction a w Hw) as H1.
  destruct (Workflow.registerAction a w) as [[[[]|e] w1] cs1]; cbn in H1.
  - specialize (IH w1 H1).
    destruct (Workflow.registerAll rest w1) as [[out w2] cs2]. exact IH.
  - exact H1.
Qed.

Lemma built_well_keyed w : WorkflowBuilt w -> Shape.well_keyed w.
Proof.
  induction 1 as [key isk acts | a w _ IH | ek a c w _ IH | d w _ IH | w _ IH
                 | s w _ IH | event messenger w _ IH].
  - unfold Workflow.new. apply well_keyed_registerAll.
    split; [split; cbn; constructor | intros ek trigs H; discriminate H].
  - now apply well_keyed_registerAction.
  - now apply well_keyed_addTrigger.
  - eapply well_keyed_ext; [| |exact IH]; reflexivity.
  - eapply well_keyed_ext; [| |exact IH]; reflexivity.
  - eapply well_keyed_ext; [| |exact IH]; reflexivity.
  - destruct (handleEvent_returns event messenger w) as (r & w' & cs & -> & ->).
    eapply well_keyed_ext; [| |exact IH]; reflexivity.
Qed.

Lemma keys_of_keyed_actions (m : JsMap.t Action.t) :
  Forall (fun entry => Action.key (snd entry) = fst entry) m ->
  map Action.key (JsMap.values m) = Shape.keys m.
Proof.
  unfold JsMap.values, Shape.keys. induction 1 as [|[k a] m Hk _ IH]; cbn in *; congruence.
Qed.

Lemma keys_of_keyed_triggers (P : string -> Prop) (m : JsMap.t ITrigger.t) :
  Forall (fun entry => Action.key (ITrigger.action (snd entry)) = fst entry
                       /\ P (fst entry)) m ->
  map (fun t => Action.key (ITrigger.action t)) (JsMap.values m) = Shape.keys m.
Proof.
  unfold JsMap.values, Shape.keys.
  induction 1 as [|[k t] m [Hk _] _ IH]; cbn in *; congruence.
Qed.

(** X3. In a workflow built through the API no two registered actions
    share a key, and under one event key no two triggers bind actions of
    the same key; every bound action key is a registered one. *)
Theorem built_workflow_has_distinct_keys w :
  WorkflowBuilt w ->
  NoDup (map Action.key (JsMap.values (Workflow.actions w)))
  /\ forall event triggers,
       Resolution.triggersFor event w = Some triggers ->
       NoDup (map (fun t => Action.key (ITrigger.action t)) triggers)
       /\ Forall (fun t => In (Action.key (ITrigger.action t))
                             (map Action.key (JsMap.values (Workflow.actions w))))
                 triggers.
Proof.
  intros Hb. destruct (built_well_keyed w Hb) as [[Hnd Hkeys] Htrig].
  rewrite (keys_of_keyed_actions _ Hkeys). split; [exact Hnd|].
  intros event triggers Hfor. unfold Resolution.triggersFor in Hfor.
  destruct (JsMap.get (IEvent.key event) (Workflow.conditions w)) as [trigs|] eqn:Hget;
    [|discriminate].
  injection Hfor as <-. destruct (Htrig _ _ Hget) as [Hnd' HF].
  rewrite (keys_of_keyed_triggers
             (fun k => JsMap.has k (Workflow.actions w) = true) _ HF).
  split; [exact Hnd'|].
  unfold JsMap.values. apply Forall_map.
  eapply Forall_impl; [|exact HF]. intros [k t] [Hk Hreg]. cbn in *.
  rewrite Hk. now apply has_true_in.
Qed.

Lemma built_workflow_has_distinct_keys_witness :
  NoDup (map Action.key (JsMap.values (Workflow.actions Procurement.rfqProcurementWorkflow)))
  /\ forall event triggers,
       Resolution.triggersFor event Procurement.rfqProcurementWorkflow = Some triggers ->
       NoDup (map (fun t => Action.key (ITrigger.action t)) triggers)
       /\ Forall (fun t => In (Action.key (ITrigger.action t))
                             (map Action.key
                                (JsMap.values
                                   (Workflow.actions Procurement.rfqProcurementWorkflow))))
                 triggers.
Proof.
  exact (built_workflow_has_distinct_keys Procurement.rfqProcurementWorkflow
           (built_addTrigger "rfq_processed_event" Procurement.notifyRoleSelectionAction
              (fun state _ => IState.key state =? "processing") _
              (built_addTrigger "rfq_uploaded_event" Procurement.processRfqAction
                 (fun state _ => IState.key state =? "rfq_uploaded") _
                 (built_new "rfq_procurement" "rfq_uploaded" [])))).
Defined.

(** ** Binding triggers on a built workflow *)

Lemma addTrigger_on_unregistered eventKey action condition w :
  Shape.well_keyed w ->
  JsMap.has (Action.key action) (Workflow.actions w) = false ->
  let run := Workflow.addTrigger eventKey action condition w in
  outcome run = Returned tt
  /\ (forall event, IEvent.key event = eventKey ->
        Resolution.triggersFor event (receiver run)
        = Some ((Resolution.triggersFor event w ?? [])
                ++ [ITrigger.mk action condition])%list)
  /\ (forall event, IEvent.key event <> eventKey ->
        Resolution.triggersFor event (receiver run) = Resolution.triggersFor event w)
  /\ outcome (Workflow.getActions (receiver run))
     = Returned (JsMap.values (Workflow.actions w) ++ [action])%list
  /\ Workflow.state (receiver run) = Workflow.state w
  /\ callbacks run = [].
Proof.
  intros Hw Hact run. subst run.
  pose proof (well_keyed_unregistered_is_unbound eventKey action w Hw Hact) as Htrig.
  rewrite addTrigger_fresh_eq by assumption.
  cbn [outcome receiver callbacks fst snd]. split; [reflexivity|].
  split; [|split; [|split; [|split]]]; try reflexivity.
  - intros event <-. unfold Resolution.triggersFor. cbn [Workflow.conditions].
    rewrite get_set_same. cbn [option_map].
    rewrite values_set_fresh by assumption.
    now destruct (JsMap.get (IEvent.key event) (Workflow.conditions w)).
  - intros event Hne. unfold Resolution.triggersFor. cbn [Workflow.conditions].
    now rewrite get_set_other by congruence.
  - unfold Workflow.getActions, gets. cbn [outcome fst Workflow.actions].
    now rewrite values_set_fresh.
Qed.

(** X4. On a workflow built through the API, [addTrigger] for an action
    whose key is not registered returns, puts the trigger last in the
    iteration order of its event key, leaves the triggers of every other
    event key and the current state as they were, and lists the action last
    in [getActions]. *)
Theorem addTrigger_binds_last eventKey action condition w :
  WorkflowBuilt w ->
  JsMap.has (Action.key action) (Workflow.actions w) = false ->
  let run := Workflow.addTrigger eventKey action condition w in
  outcome run = Returned tt
  /\ (forall event, IEvent.key event = eventKey ->
        Resolution.triggersFor event (receiver run)
        = Some ((Resolution.triggersFor event w ?? [])
                ++ [ITrigger.mk action condition])%list)
  /\ (forall event, IEvent.key event <> eventKey ->
        Resolution.triggersFor event (receiver run) = Resolution.triggersFor event w)
  /\ outcome (Workflow.getActions (receiver run))
     = Returned (JsMap.values (Workflow.actions w) ++ [action])%list
  /\ Workflow.state (receiver run) = Workflow.state w
  /\ callbacks run = [].
Proof.
  intros Hb. apply addTrigger_on_unregistered. now apply built_well_keyed.
Qed.

Lemma addTrigger_binds_last_witness :
  let w := Fixtures.workflow [Fixtures.blocked] in
  let run := Workflow.addTrigger "go" Fixtures.finishing Fixtures.anywhere w in
  outcome run = Returned tt
  /\ (forall event, IEvent.key event = "go" ->
        Resolution.triggersFor event (receiver run)
        = Some ((Resolution.triggersFor event w ?? [])
                ++ [ITrigger.mk Fixtures.finishing Fixtures.anywhere])%list)
  /\ (forall event, IEvent.key event <> "go" ->
        Resolution.triggersFor event (receiver run) = Resolution.triggersFor event w)
  /\ outcome (Workflow.getActions (receiver run))
     = Returned (JsMap.values (Workflow.actions w) ++ [Fixtures.finishing])%list
  /\ Workflow.state (receiver run) = Workflow.state w
  /\ callbacks run = [].
Proof.
  exact (addTrigger_binds_last "go" Fixtures.finishing Fixtures.anywhere
           (Fixtures.workflow [Fixtures.blocked])
           (built_addTrigger "go" Fixtures.blocked Fixtures.anywhere _
              (built_new "wf" "start" []))
           eq_refl).
Defined.

(** X5. On a workflow built through the API, [addTrigger] returns exactly
    when the action's key is not registered yet; when it throws, the error
    is the action-key conflict for that key and the workflow is unchanged,
    so the trigger-conflict error is never seen. *)
Theorem addTrigger_returns_iff_unregistered eventKey action condition w :
  WorkflowBuilt w ->
  let run := Workflow.addTrigger eventKey action condition w in
  (outcome run = Returned tt <->
   JsMap.has (Action.key action) (Workflow.actions w) = false)
  /\ (forall e, outcome run = Thrown e ->
        e = Workflow.ActionKeyConflict (Action.key action) (Workflow.key w)
        /\ receiver run = w).
Proof.
  intros Hb run. subst run. apply built_well_keyed in Hb.
  destruct (JsMap.has (Action.key action) (Workflow.actions w)) eqn:Hact.
  - rewrite addTrigger_on_registered_action by assumption. cbn. split.
    + split; discriminate.
    + intros e E. injection E as <-. auto.
  - destruct (addTrigger_on_unregistered eventKey action condition w Hb Hact) as [E _].
    rewrite E. split; [tauto | discriminate].
Qed.

Lemma addTrigger_returns_iff_unregistered_witness :
  let w := Fixtures.workflow [Fixtures.blocked] in
  let run := Workflow.addTrigger "stop" Fixtures.blocked Fixtures.anywhere w in
  (outcome run = Returned tt <->
   JsMap.has "blocked" (Workflow.actions w) = false)
  /\ (forall e, outcome run = Thrown e ->
        e = Workflow.ActionKeyConflict "blocked" "wf" /\ receiver run = w).
Proof.
  exact (addTrigger_returns_iff_unregistered "stop" Fixtures.blocked Fixtures.anywhere
           (Fixtures.workflow [Fixtures.blocked])
           (built_addTrigger "go" Fixtures.blocked Fixtures.anywhere _
              (built_new "wf" "start" []))).
Defined.

(** ** When a condition or a guard throws *)

Section ThrowingResolve.
Variables (faults : Faults.t) (state0 : IState.t) (event : IEvent.t)
          (messenger : option Messenger.t).

Lemma throwing_step_over trigger rest w :
  Faults.verdict faults state0 event trigger = Faults.Skipped ->
  Throwing.forTriggers faults (trigger :: rest) state0 event messenger w
  = let '(o, w', cs) := Throwing.forTriggers faults rest state0 event messenger w in
    (o, w', (Faults.asked faults state0 event trigger ++ cs)%list).
Proof.
  unfold Faults.verdict, Faults.asked. intros Hv.
  cbn [Throwing.forTriggers]. unfold bind at 1, call at 1, Faults.callCondition.
  destruct (Faults.condition faults trigger state0 event); [discriminate|].
  destruct (ITrigger.condition trigger state0 event); cbn [negb] in *.
  - unfold bind at 1, call at 1, Faults.callCanBeInvoked.
    destruct (Faults.canBeInvoked faults (ITrigger.action trigger) state0); [discriminate|].
    destruct (TCanBeInvoked.can (Action.canBeInvoked (ITrigger.action trigger) state0));
      cbn [negb] in *; [discriminate|].
    now destruct (Throwing.forTriggers faults rest state0 event messenger w) as [[o w'] cs].
  - now destruct (Throwing.forTriggers faults rest state0 event messenger w) as [[o w'] cs].
Qed.

(** The call leaves through the throwing callback: nothing is caught. *)
Lemma throwing_fault trigger rest w err :
  Faults.verdict faults state0 event trigger = Faults.Faulted err ->
  Throwing.forTriggers faults (trigger :: rest) state0 event messenger w
  = (Thrown err, w, Faults.asked faults state0 event trigger).
Proof.
  unfold Faults.verdict, Faults.asked. intros Hv.
  cbn [Throwing.forTriggers]. unfold bind at 1, call at 1, Faults.callCondition.
  destruct (Faults.condition faults trigger state0 event) as [e|].
  { injection Hv as ->. reflexivity. }
  destruct (ITrigger.condition trigger state0 event); cbn [negb] in *; [|discriminate].
  unfold bind at 1, call at 1, Faults.callCanBeInvoked.
  destruct (Faults.canBeInvoked faults (ITrigger.action trigger) state0) as [e|].
  { injection Hv as ->. reflexivity. }
  destruct (TCanBeInvoked.can (Action.canBeInvoked (ITrigger.action trigger) state0));
    discriminate.
Qed.

Lemma throwing_select trigger rest w :
  Faults.verdict faults state0 event trigger = Faults.Selected ->
  Throwing.forTriggers faults (trigger :: rest) state0 event messenger w
  = (Returned (Resolution.settle (Action.invoke (ITrigger.action trigger) state0 messenger)),
     Resolution.commit (Action.invoke (ITrigger.action trigger) state0 messenger) w,
     (Faults.asked faults state0 event trigger
      ++ [CallInvoke (Action.key (ITrigger.action trigger))])%list).
Proof.
  unfold Faults.verdict, Faults.asked. intros Hv.
  cbn [Throwing.forTriggers]. unfold bind at 1, call at 1, Faults.callCondition.
  destruct (Faults.condition faults trigger state0 event); [discriminate|].
  destruct (ITrigger.condition trigger state0 event); cbn [negb] in *; [|discriminate].
  unfold bind at 1, call at 1, Faults.callCanBeInvoked.
  destruct (Faults.canBeInvoked faults (ITrigger.action trigger) state0); [discriminate|].
  destruct (TCanBeInvoked.can (Action.canBeInvoked (ITrigger.action trigger) state0));
    cbn [negb] in *; [|discriminate].
  unfold try_catch, bind, call.
  destruct (Action.invoke (ITrigger.action trigger) state0 messenger) as [result|err]; cbn.
  - destruct (IActionLogData.success result); reflexivity.
  - reflexivity.
Qed.

Lemma throwing_prefix pre rest w :
  Forall (fun u => Faults.verdict faults state0 event u = Faults.Skipped) pre ->
  Throwing.forTriggers faults (pre ++ rest) state0 event messenger w
  = let '(o, w', cs) := Throwing.forTriggers faults rest state0 event messenger w in
    (o, w', (flat_map (Faults.asked faults state0 event) pre ++ cs)%list).
Proof.
  induction 1 as [|u pre Hu _ IH].
  - cbn. now destruct (Throwing.forTriggers faults rest state0 event messenger w) as [[o w'] cs].
  - rewrite <- app_comm_cons, throwing_step_over by assumption.
    rewrite IH.
    destruct (Throwing.forTriggers faults rest state0 event messenger w) as [[o w'] cs].
    cbn [flat_map]. now rewrite app_assoc.
Qed.

Lemma first_decisive (triggers : list ITrigger.t) :
  Forall (fun u => Faults.verdict faults state0 event u = Faults.Skipped) triggers
  \/ exists pre trigger post,
       triggers = (pre ++ trigger :: post)%list
       /\ Forall (fun u => Faults.verdict faults state0 event u = Faults.Skipped) pre
       /\ Faults.verdict faults state0 event trigger <> Faults.Skipped.
Proof.
  induction triggers as [|u l IH].
  - left. constructor.
  - destruct (Faults.verdict faults state0 event u) eqn:E.
    + destruct IH as [IH | (pre & t & post & -> & Hpre & Ht)].
      * left. now constructor.
      * right. exists (u :: pre), t, post. repeat split; auto.
    + right. exists [], u, l. repeat split; auto. congruence.
    + right. exists [], u, l. repeat split; auto. congruence.
Qed.

Lemma invocations_asked triggers :
  Resolution.invocations (flat_map (Faults.asked faults state0 event) triggers) = 0.
Proof.
  induction triggers as [|u l IH]; [reflexivity|].
  cbn [flat_map]. rewrite invocations_app, IH. unfold Faults.asked.
  destruct (Faults.condition faults u state0 event); [reflexivity|].
  now destruct (ITrigger.condition u state0 event).
Qed.

Lemma invocations_asked_one trigger :
  Resolution.invocations (Faults.asked faults state0 event trigger) = 0.
Proof.
  pose proof (invocations_asked [trigger]) as H. cbn [flat_map] in H.
  now rewrite app_nil_r in H.
Qed.

End ThrowingResolve.

Lemma throwing_by_triggers faults event messenger w :
  Throwing.Workflow_handleEvent faults event messenger w
  = match Workflow.state w with
    | None => (Returned Workflow.InvalidState, w, [])
    | Some state0 =>
        match Resolution.triggersFor event w with
        | None | Some [] => (Returned (Workflow.NoTriggersForEvent event), w, [])
        | Some triggers => Throwing.forTriggers faults triggers state0 event messenger w
        end
    end.
Proof.
  unfold Resolution.triggersFor, Throwing.Workflow_handleEvent, bind at 1, gets at 1.
  destruct (Workflow.state w) as [state0|]; [|reflexivity].
  unfold bind at 1, gets at 1.
  destruct (JsMap.get (IEvent.key event) (Workflow.conditions w)) as [eventTriggers|];
    [|reflexivity].
  cbn [option_map]. rewrite size_values.
  destruct (JsMap.values eventTriggers) as [|u l]; [reflexivity|].
  cbn [length Nat.eqb].
  now destruct (Throwing.forTriggers faults (u :: l) state0 event messenger w) as [[o w'] cs].
Qed.

(** How [Workflow.handleEvent] ends when conditions and guards may throw:
    it returns, under the state law, or it throws the value thrown by the
    first callback that threw, having touched nothing. *)
Lemma throwing_summary faults event messenger w :
  let run := Throwing.Workflow_handleEvent faults event messenger w in
  (exists result,
     outcome run = Returned result
     /\ receiver run
        = Workflow.with_state
            (if IActionLogData.success result
             then IActionLogData.new_state result
             else Workflow.state w) w
     /\ Resolution.invocations (callbacks run) <= 1
     /\ (Resolution.invocations (callbacks run) = 0 ->
         IActionLogData.success result = false
         /\ IActionLogData.action_key result = None
         /\ receiver run = w))
  \/ (exists err state0 pre trigger post,
        outcome run = Thrown err
        /\ receiver run = w
        /\ Resolution.invocations (callbacks run) = 0
        /\ Workflow.state w = Some state0
        /\ Resolution.triggersFor event w = Some (pre ++ trigger :: post)%list
        /\ Forall (fun u => Faults.verdict faults state0 event u = Faults.Skipped) pre
        /\ Faults.verdict faults state0 event trigger = Faults.Faulted err
        /\ callbacks run
           = (flat_map (Faults.asked faults state0 event) pre
              ++ Faults.asked faults state0 event trigger)%list).
Proof.
  intros run. subst run. rewrite throwing_by_triggers.
  assert (Hquiet : forall result,
            IActionLogData.success result = false ->
            IActionLogData.action_key result = None ->
            forall cs, Resolution.invocations cs = 0 ->
            exists r,
              outcome (Returned result, w, cs) = Returned r
              /\ receiver (Returned result, w, cs)
                 = Workflow.with_state
                     (if IActionLogData.success r then IActionLogData.new_state r
                      else Workflow.state w) w
              /\ Resolution.invocations (callbacks (Returned result, w, cs)) <= 1
              /\ (Resolution.invocations (callbacks (Returned result, w, cs)) = 0 ->
                  IActionLogData.success r = false
                  /\ IActionLogData.action_key r = None
                  /\ receiver (Returned result, w, cs) = w)).
  { intros result Hs Hk cs Hcs. exists result. cbn [outcome receiver callbacks fst snd].
    rewrite Hs, with_state_same, Hcs. repeat split; auto. }
  destruct (Workflow.state w) as [state0|] eqn:Hst.
  2:{ left. now apply Hquiet. }
  destruct (Resolution.triggersFor event w) as [[|u l]|] eqn:Hfor;
    try (left; now apply Hquiet).
  destruct (first_decisive faults state0 event (u :: l))
    as [Hnone | (pre & trigger & post & Hsplit & Hpre & Hdec)].
  - left. rewrite <- (app_nil_r (u :: l)), throwing_prefix by assumption.
    cbn [Throwing.forTriggers ret]. rewrite app_nil_r.
    apply Hquiet; auto. apply invocations_asked.
  - rewrite Hsplit, throwing_prefix by assumption.
    destruct (Faults.verdict faults state0 event trigger) as [|err|] eqn:Hv; [congruence| |].
    + right. rewrite (throwing_fault _ _ _ _ _ _ _ err) by assumption.
      exists err, state0, pre, trigger, post. cbn [outcome receiver callbacks fst snd].
      repeat split; auto.
      now rewrite invocations_app, invocations_asked, invocations_asked_one.
    + left. rewrite throwing_select by assumption.
      eexists. cbn [outcome receiver callbacks fst snd]. split; [reflexivity|].
      rewrite !invocations_app, invocations_asked, invocations_asked_one.
      split; [|split; [cbn; lia | cbn; discriminate]].
      destruct (Action.invoke (ITrigger.action trigger) state0 messenger) as [result|err];
        cbn [Resolution.settle Resolution.commit].
      * destruct (IActionLogData.success result); [reflexivity|].
        now rewrite <- Hst, with_state_same.
      * cbn [IActionLogData.success Workflow.ActionInvocationFailed Workflow.failure].
        now rewrite <- Hst, with_state_same.
Qed.

(** A throwing condition or guard, reached before any trigger is selected,
    throws out of [Workflow.handleEvent]. *)
Lemma throwing_trigger_escapes faults event messenger w state0 pre trigger post err :
  Workflow.state w = Some state0 ->
  Resolution.triggersFor event w = Some (pre ++ trigger :: post)%list ->
  Forall (fun u => Faults.verdict faults state0 event u = Faults.Skipped) pre ->
  Faults.verdict faults state0 event trigger = Faults.Faulted err ->
  Throwing.Workflow_handleEvent faults event messenger w
  = (Thrown err, w,
     (flat_map (Faults.asked faults state0 event) pre
      ++ Faults.asked faults state0 event trigger)%list).
Proof.
  intros Hst Hfor Hpre Hv. rewrite throwing_by_triggers, Hst, Hfor.
  destruct (pre ++ trigger :: post)%list eqn:E; [now destruct pre|]. rewrite <- E.
  rewrite throwing_prefix by assumption.
  now rewrite (throwing_fault _ _ _ _ _ _ _ err) by assumption.
Qed.

(** Where no condition and no guard throws, the two readings agree. *)
Lemma silent_forTriggers faults state0 event messenger triggers w :
  Faults.silent faults state0 event triggers ->
  Throwing.forTriggers faults triggers state0 event messenger w
  = Workflow.forTriggers triggers state0 event messenger w.
Proof.
  unfold Faults.silent. induction 1 as [|u l [Hc Hg] _ IH]; [reflexivity|].
  cbn [Throwing.forTriggers Workflow.forTriggers].
  unfold Faults.callCondition, Faults.callCanBeInvoked. rewrite Hc, Hg.
  unfold bind, call.
  destruct (ITrigger.condition u state0 event); cbn [negb].
  - destruct (TCanBeInvoked.can (Action.canBeInvoked (ITrigger.action u) state0));
      cbn [negb]; [reflexivity | now rewrite IH].
  - now rewrite IH.
Qed.

Lemma silent_Workflow_handleEvent faults event messenger w :
  (forall state0 triggers,
     Workflow.state w = Some state0 ->
     Resolution.triggersFor event w = Some triggers ->
     Faults.silent faults state0 event triggers) ->
  Throwing.Workflow_handleEvent faults event messenger w
  = Workflow.handleEvent event messenger w.
Proof.
  intros Hsilent. rewrite throwing_by_triggers, handleEvent_by_triggers.
  destruct (Workflow.state w) as [state0|]; [|reflexivity].
  destruct (Resolution.triggersFor event w) as [[|u l]|]; try reflexivity.
  apply silent_forTriggers. now apply Hsilent.
Qed.

Lemma none_is_silent state0 event triggers :
  Faults.silent Faults.none state0 event triggers.
Proof. unfold Faults.silent. apply Forall_forall. now intros. Qed.

(** ** What one delivery does to a workflow *)

(** The four ways [Workflow.handleEvent] ends. *)
Lemma handleEvent_cases event messenger w :
  let run := Workflow.handleEvent event messenger w in
  (Workflow.state w = None /\ run = (Returned Workflow.InvalidState, w, []))
  \/ (exists state0,
        Workflow.state w = Some state0
        /\ (Resolution.triggersFor event w = None \/ Resolution.triggersFor event w = Some [])
        /\ run = (Returned (Workflow.NoTriggersForEvent event), w, []))
  \/ (exists state0 triggers,
        Workflow.state w = Some state0
        /\ Resolution.triggersFor event w = Some triggers
        /\ triggers <> []
        /\ Forall (fun u => Resolution.passes state0 event u = false) triggers
        /\ run = (Returned (Workflow.NoApplicableAction event), w,
                  flat_map (Resolution.skipped state0 event) triggers))
  \/ (exists state0 pre trigger post,
        Workflow.state w = Some state0
        /\ Resolution.triggersFor event w = Some (pre ++ trigger :: post)%list
        /\ Forall (fun u => Resolution.passes state0 event u = false) pre
        /\ Resolution.passes state0 event trigger = true
        /\ run = (Returned (Resolution.settle
                              (Action.invoke (ITrigger.action trigger) state0 messenger)),
                  Resolution.commit
                    (Action.invoke (ITrigger.action trigger) state0 messenger) w,
                  (flat_map (Resolution.skipped state0 event) pre
                   ++ Resolution.selected trigger)%list)).
Proof.
  intros run. subst run. rewrite handleEvent_by_triggers.
  destruct (Workflow.state w) as [state0|] eqn:Hst; [|now left].
  right. destruct (Resolution.triggersFor event w) as [[|u l]|] eqn:Hfor.
  - left. exists state0. auto.
  - right. destruct (first_eligible state0 event (u :: l))
      as [Hnone | (pre & trigger & post & Hsplit & Hpre & Hpass)].
    + left. exists state0, (u :: l). repeat split; auto; try discriminate.
      now apply forTriggers_no_match.
    + right. exists state0, pre, trigger, post. repeat split; auto.
      * now rewrite Hsplit.
      * rewrite Hsplit, forTriggers_prefix by assumption.
        now rewrite forTriggers_select by assumption.
  - left. exists state0. auto.
Qed.

(** X6. How [Workflow.handleEvent] ends, conditions and guards that throw
    included. It throws exactly when, in the current state, a condition or
    a guard of a trigger of the event throws before any trigger is
    selected; what is thrown is that callback's value, the workflow is
    untouched and no action body has run. Otherwise it returns a result,
    and the workflow it leaves differs from the one it found at most in
    the current state, which is the result's [new_state] when the result
    reports success and the old state otherwise. At most one action body
    runs, and when none runs the result returned is a failure without an
    action key and the workflow is untouched. *)
Theorem handleEvent_state_law faults event messenger w :
  let run := Throwing.Workflow_handleEvent faults event messenger w in
  Resolution.invocations (callbacks run) <= 1
  /\ (forall result,
        outcome run = Returned result ->
        receiver run
        = Workflow.with_state
            (if IActionLogData.success result
             then IActionLogData.new_state result
             else Workflow.state w) w
        /\ (Resolution.invocations (callbacks run) = 0 ->
            IActionLogData.success result = false
            /\ IActionLogData.action_key result = None
            /\ receiver run = w))
  /\ (forall err,
        outcome run = Thrown err
        <-> exists state0 pre trigger post,
              Workflow.state w = Some state0
              /\ Resolution.triggersFor event w = Some (pre ++ trigger :: post)%list
              /\ Forall (fun u => Faults.verdict faults state0 event u = Faults.Skipped) pre
              /\ Faults.verdict faults state0 event trigger = Faults.Faulted err)
  /\ (forall err,
        outcome run = Thrown err ->
        receiver run = w /\ Resolution.invocations (callbacks run) = 0).
Proof.
  intros run. subst run.
  pose proof (throwing_summary faults event messenger w) as Hsum. cbv zeta in Hsum.
  destruct Hsum
    as [(result & Hout & Hrec & Hle & Hzero)
       | (err & st & pre & t & post & Hout & Hrec & Hinv & Hst & Hfor & Hpre & Hv & _)].
  - split; [exact Hle|].
    split; [intros r Hr; rewrite Hout in Hr; injection Hr as <-; auto|].
    split.
    + intros err. split.
      * intros H. congruence.
      * intros (st & pre & t & post & Hst & Hfor & Hpre & Hv).
        rewrite (throwing_trigger_escapes faults event messenger w st pre t post err)
          in Hout by assumption.
        discriminate Hout.
    + intros err H. congruence.
  - split; [lia|].
    split; [intros r Hr; congruence|].
    split.
    + intros e. split.
      * intros H. rewrite Hout in H. injection H as <-. exists st, pre, t, post. auto.
      * intros (st' & pre' & t' & post' & Hst' & Hfor' & Hpre' & Hv').
        now rewrite (throwing_trigger_escapes faults event messenger w st' pre' t' post' e)
          by assumption.
    + intros e H. auto.
Qed.

(** X7. When the event has triggers and none is eligible in the current
    state, the call reports that no action applies and leaves the workflow
    as it was. Every trigger's condition was asked once, in registration
    order; a guard was asked only where the condition held; no action body
    ran. *)
Theorem no_eligible_trigger event messenger w state0 triggers :
  Workflow.state w = Some state0 ->
  Resolution.triggersFor event w = Some triggers ->
  triggers <> [] ->
  Forall (fun u => Resolution.passes state0 event u = false) triggers ->
  let run := Workflow.handleEvent event messenger w in
  outcome run = Returned (Workflow.NoApplicableAction event)
  /\ receiver run = w
  /\ callbacks run = flat_map (Resolution.skipped state0 event) triggers
  /\ Resolution.invocations (callbacks run) = 0.
Proof.
  intros Hst Hfor Hne Hnone run. subst run.
  rewrite handleEvent_by_triggers, Hst, Hfor.
  destruct triggers as [|u l]; [congruence|].
  rewrite forTriggers_no_match by assumption.
  cbn [outcome receiver callbacks fst snd]. repeat split.
  apply invocations_skipped.
Qed.

Lemma no_eligible_trigger_witness :
  let w := Fixtures.ready [Fixtures.blocked] in
  let run := Workflow.handleEvent Fixtures.go None w in
  outcome run = Returned (Workflow.NoApplicableAction Fixtures.go)
  /\ receiver run = w
  /\ callbacks run
     = flat_map (Resolution.skipped Fixtures.start Fixtures.go)
         [Fixtures.trigger Fixtures.blocked]
  /\ Resolution.invocations (callbacks run) = 0.
Proof.
  refine (no_eligible_trigger Fixtures.go None (Fixtures.ready [Fixtures.blocked])
            Fixtures.start [Fixtures.trigger Fixtures.blocked] eq_refl eq_refl _
            (Forall_cons (Fixtures.trigger Fixtures.blocked) eq_refl (Forall_nil _))).
  discriminate.
Defined.

Lemma handleEvent_same_triggers event messenger w1 w2 :
  Workflow.state w1 = Workflow.state w2 ->
  Resolution.triggersFor event w1 = Resolution.triggersFor event w2 ->
  outcome (Workflow.handleEvent event messenger w1)
  = outcome (Workflow.handleEvent event messenger w2)
  /\ callbacks (Workflow.handleEvent event messenger w1)
     = callbacks (Workflow.handleEvent event messenger w2)
  /\ Workflow.state (receiver (Workflow.handleEvent event messenger w1))
     = Workflow.state (receiver (Workflow.handleEvent event messenger w2)).
Proof.
  intros Hst Htr. rewrite !handleEvent_by_triggers, <- Htr, <- Hst.
  destruct (Workflow.state w1) as [state0|] eqn:E1.
  2:{ cbn. repeat split. congruence. }
  destruct (Resolution.triggersFor event w1) as [[|u l]|] eqn:E2.
  - cbn. repeat split. congruence.
  - apply forTriggers_depends_on_state. congruence.
  - cbn. repeat split. congruence.
Qed.

Lemma commit_state invoked w1 w2 :
  Workflow.state w1 = Workflow.state w2 ->
  Workflow.state (Resolution.commit invoked w1)
  = Workflow.state (Resolution.commit invoked w2).
Proof.
  intros H. destruct invoked as [result|err]; cbn; [|exact H].
  now destruct (IActionLogData.success result).
Qed.

(** X8. Registration order is priority: binding one more trigger on a
    built workflow changes nothing for an event of another key, and
    nothing for an event of the same key for which an earlier trigger is
    eligible in the current state; the same callbacks are made, the same
    result is returned and the same state is left. *)
Theorem addTrigger_keeps_earlier_resolution
    eventKey action condition w event messenger state0 :
  WorkflowBuilt w ->
  JsMap.has (Action.key action) (Workflow.actions w) = false ->
  Workflow.state w = Some state0 ->
  IEvent.key event <> eventKey
  \/ (exists triggers,
        Resolution.triggersFor event w = Some triggers
        /\ Exists (fun u => Resolution.passes state0 event u = true) triggers) ->
  let w' := receiver (Workflow.addTrigger eventKey action condition w) in
  outcome (Workflow.handleEvent event messenger w')
  = outcome (Workflow.handleEvent event messenger w)
  /\ callbacks (Workflow.handleEvent event messenger w')
     = callbacks (Workflow.handleEvent event messenger w)
  /\ Workflow.state (receiver (Workflow.handleEvent event messenger w'))
     = Workflow.state (receiver (Workflow.handleEvent event messenger w)).
Proof.
  intros Hb Hact Hst Hcase w'.
  destruct (addTrigger_on_unregistered eventKey action condition w
              (built_well_keyed w Hb) Hact)
    as (_ & Hsame & Hother & _ & Hst' & _).
  fold w' in Hsame, Hother, Hst'.
  destruct (String.eqb_spec (IEvent.key event) eventKey) as [Hkey|Hne].
  2:{ apply handleEvent_same_triggers; [exact Hst' | now apply Hother]. }
  destruct Hcase as [Hne | (triggers & Hfor & Hex)]; [contradiction|].
  specialize (Hsame event Hkey). rewrite Hfor in Hsame. cbn [nullish] in Hsame.
  destruct (first_eligible state0 event triggers)
    as [Hnone | (pre & trigger & post & -> & Hpre & Hpass)].
  { exfalso. apply Exists_exists in Hex as (u & Hin & Hu).
    rewrite Forall_forall in Hnone. rewrite (Hnone u Hin) in Hu. discriminate. }
  rewrite !handleEvent_by_triggers, Hst', Hst, Hsame, Hfor.
  rewrite <- app_assoc, <- app_comm_cons.
  assert (Hne1 : forall (l1 l2 : list ITrigger.t) x, (l1 ++ x :: l2)%list <> [])
    by (intros [|] ? ? ; discriminate).
  destruct (pre ++ trigger :: post ++ [ITrigger.mk action condition])%list eqn:E1;
    [now apply Hne1 in E1|]. rewrite <- E1.
  destruct (pre ++ trigger :: post)%list eqn:E2; [now apply Hne1 in E2|]. rewrite <- E2.
  rewrite !forTriggers_prefix, !forTriggers_select by assumption.
  cbn [outcome receiver callbacks fst snd]. repeat split.
  apply commit_state. exact Hst'.
Qed.

Lemma addTrigger_keeps_earlier_resolution_witness :
  let w := Fixtures.ready [Fixtures.failing] in
  let w' := receiver (Workflow.addTrigger "go" Fixtures.finishing Fixtures.anywhere w) in
  outcome (Workflow.handleEvent Fixtures.go None w')
  = outcome (Workflow.handleEvent Fixtures.go None w)
  /\ callbacks (Workflow.handleEvent Fixtures.go None w')
     = callbacks (Workflow.handleEvent Fixtures.go None w)
  /\ Workflow.state (receiver (Workflow.handleEvent Fixtures.go None w'))
     = Workflow.state (receiver (Workflow.handleEvent Fixtures.go None w)).
Proof.
  exact (addTrigger_keeps_earlier_resolution "go" Fixtures.finishing Fixtures.anywhere
           (Fixtures.ready [Fixtures.failing]) Fixtures.go None Fixtures.start
           (built_setState Fixtures.start _
              (built_addTrigger "go" Fixtures.failing Fixtures.anywhere _
                 (built_new "wf" "start" [])))
           eq_refl eq_refl
           (or_intror
              (ex_intro _ [Fixtures.trigger Fixtures.failing]
                 (conj eq_refl (Exists_cons_hd _ (Fixtures.trigger Fixtures.failing) [] eq_refl))))).
Defined.

(** ** Registering workflows and creating tasks *)

Lemma find_app_first {A : Type} (p : A -> bool) (l l' : list A) :
  find p (l ++ l') = match find p l with Some x => Some x | None => find p l' end.
Proof. induction l as [|y l IH]; cbn; [reflexivity|]. now destruct (p y). Qed.

Lemma replace_first_absent {A : Type} (p : A -> bool) x (l : list A) :
  find p l = None -> Orchestrator.replace_first p x l = l.
Proof.
  induction l as [|y l IH]; cbn; [reflexivity|].
  destruct (p y); [discriminate|]. intros H. now rewrite IH.
Qed.

Lemma map_replace_first {A B : Type} (f : A -> B) (p : A -> bool) x y (l : list A) :
  find p l = Some y -> f x = f y ->
  map f (Orchestrator.replace_first p x l) = map f l.
Proof.
  intros Hfind Hf. induction l as [|z l IH]; cbn in *; [discriminate|].
  destruct (p z); cbn.
  - injection Hfind as ->. now rewrite Hf.
  - now rewrite IH.
Qed.

(** X9. [registerWorkflow] appends and checks nothing: a lookup by key
    keeps answering with the workflow registered first under that key, so a
    second workflow with a key already in use is never found; tasks and
    logs are not touched. *)
Theorem registerWorkflow_first_wins w o :
  let o' := receiver (Orchestrator.registerWorkflow w o) in
  outcome (Orchestrator.getWorkflows o') = Returned (Orchestrator.workflows o ++ [w])%list
  /\ (forall k,
        Orchestrator.getWorkflow k o'
        = match Orchestrator.getWorkflow k o with
          | Some old => Some old
          | None => if Workflow.key w =? k then Some w else None
          end)
  /\ Orchestrator.tasks o' = Orchestrator.tasks o
  /\ Orchestrator.logs o' = Orchestrator.logs o.
Proof.
  cbn. repeat split. intros k. unfold Orchestrator.getWorkflow. cbn.
  rewrite find_app_first. cbn. reflexivity.
Qed.

(** X10. [initTask] throws the not-found error, changing nothing, exactly
    when the key matches no registered workflow. Otherwise it returns a
    task with the given id, that workflow key, the creation time and a
    state whose key is the workflow's initial state key; the task is
    appended last, the logs are untouched, and the workflow object is left
    holding the new task's state as its current state, its registries as
    before. *)
Theorem initTask_outcome workflowKey initialData uuid now o :
  let run := Orchestrator.initTask workflowKey initialData uuid now o in
  (Orchestrator.getWorkflow workflowKey o = None ->
   outcome run = Thrown (Orchestrator.WorkflowNotFound workflowKey) /\ receiver run = o)
  /\ (forall w, Orchestrator.getWorkflow workflowKey o = Some w ->
        exists task w',
          outcome run = Returned task
          /\ ITask.id task = uuid
          /\ ITask.workflowKey task = workflowKey
          /\ ITask.createdAt task = now
          /\ IState.key (ITask.state task) = Workflow.initialStateKey w
          /\ Orchestrator.tasks (receiver run) = (Orchestrator.tasks o ++ [task])%list
          /\ Orchestrator.logs (receiver run) = Orchestrator.logs o
          /\ Orchestrator.getWorkflow workflowKey (receiver run) = Some w'
          /\ Workflow.state w' = Some (ITask.state task)
          /\ Workflow.actions w' = Workflow.actions w
          /\ Workflow.conditions w' = Workflow.conditions w
          /\ map Workflow.key (Orchestrator.workflows (receiver run))
             = map Workflow.key (Orchestrator.workflows o)).
Proof.
  intros run. subst run. split.
  - intros H. now rewrite initTask_unknown_workflow.
  - intros w Hw. rewrite (initTask_found workflowKey initialData uuid now o w Hw).
    cbn [outcome receiver fst snd Orchestrator.tasks Orchestrator.logs
         Orchestrator.workflows].
    pose proof (getWorkflow_key _ _ _ Hw) as Hkey.
    eexists.
    exists (Workflow.with_state
              (Some (IState.mk (Workflow.initialStateKey w)
                       (initialData ?? Workflow.initialStateData w)))
              (Workflow.with_initialStateData
                 (initialData ?? Workflow.initialStateData w) w)).
    split; [reflexivity|]. cbn [ITask.id ITask.workflowKey ITask.createdAt
                                ITask.state IState.key].
    repeat split; auto.
    + unfold Orchestrator.getWorkflow in *. cbn [Orchestrator.workflows].
      eapply find_replace_first; [exact Hw|]. now apply String.eqb_eq.
    + unfold Orchestrator.getWorkflow in Hw.
      now apply (map_replace_first Workflow.key _ _ w).
Qed.

(** X11. After a successful [initTask], every id that named a task before
    still names that task, and the new task is found under its id exactly
    when the id was not in use: on a collision the older task shadows it. *)
Theorem initTask_lookup workflowKey initialData uuid now o w :
  Orchestrator.getWorkflow workflowKey o = Some w ->
  let run := Orchestrator.initTask workflowKey initialData uuid now o in
  exists task,
    outcome run = Returned task
    /\ forall taskId,
         Orchestrator.getTask taskId (receiver run)
         = match Orchestrator.getTask taskId o with
           | Some old => Some old
           | None => if uuid =? taskId then Some task else None
           end.
Proof.
  intros Hw run. subst run.
  rewrite (initTask_found workflowKey initialData uuid now o w Hw).
  eexists. split; [reflexivity|]. intros taskId.
  unfold Orchestrator.getTask. cbn [receiver fst snd Orchestrator.tasks].
  rewrite find_app_first. reflexivity.
Qed.

Lemma initTask_lookup_witness :
  let run := Orchestrator.initTask "rfq_procurement" None "task-1" 5 Procurement.orchestrator in
  exists task,
    outcome run = Returned task
    /\ forall taskId,
         Orchestrator.getTask taskId (receiver run)
         = match Orchestrator.getTask taskId Procurement.orchestrator with
           | Some old => Some old
           | None => if "task-1" =? taskId then Some task else None
           end.
Proof.
  exact (initTask_lookup "rfq_procurement" None "task-1" 5 Procurement.orchestrator
           (Workflow.with_state (Some (IState.mk "rfq_uploaded" Procurement.fileUrl))
              (Workflow.with_initialStateData Procurement.fileUrl
                 Procurement.rfqProcurementWorkflow))
           eq_refl).
Defined.

(** ** What one delivery does to the orchestrator *)

Lemma handleEvent_result_state event messenger w result w' cs :
  Workflow.handleEvent event messenger w = (Returned result, w', cs) ->
  w' = Workflow.with_state
         (if IActionLogData.success result
          then IActionLogData.new_state result
          else Workflow.state w) w
  /\ (IActionLogData.action_key result <> None -> Resolution.invocations cs = 1).
Proof.
  intros Hrun.
  destruct (handleEvent_cases event messenger w)
    as [[Hst E] | [(st & Hst & _ & E) | [(st & ts & Hst & _ & _ & _ & E)
       | (st & pre & t & post & Hst & _ & _ & _ & E)]]];
    cbv zeta in E; rewrite Hrun in E; injection E as -> -> ->.
  - cbn [IActionLogData.success Workflow.InvalidState Workflow.failure].
    rewrite with_state_same. split; [reflexivity | cbn; congruence].
  - cbn [IActionLogData.success Workflow.NoTriggersForEvent Workflow.failure].
    rewrite with_state_same. split; [reflexivity | cbn; congruence].
  - cbn [IActionLogData.success Workflow.NoApplicableAction Workflow.failure].
    rewrite with_state_same. split; [reflexivity | cbn; congruence].
  - split.
    + destruct (Action.invoke (ITrigger.action t) st messenger) as [r|err];
        cbn [Resolution.settle Resolution.commit].
      * destruct (IActionLogData.success r); [reflexivity | now rewrite with_state_same].
      * cbn [IActionLogData.success Workflow.ActionInvocationFailed Workflow.failure].
        now rewrite with_state_same.
    + intros _. now rewrite invocations_app, invocations_skipped.
Qed.

Lemma identity_with_state s task :
  Shape.identity (ITask.with_state s task) = Shape.identity task.
Proof. reflexivity. Qed.

(** One delivery, seen from the orchestrator. *)
Lemma handleEvent_frame taskId event now o :
  let run := Orchestrator.handleEvent taskId event now o in
  map Shape.identity (Orchestrator.tasks (receiver run))
  = map Shape.identity (Orchestrator.tasks o)
  /\ map (Workflow.with_state None) (Orchestrator.workflows (receiver run))
     = map (Workflow.with_state None) (Orchestrator.workflows o)
  /\ Orchestrator.messenger (receiver run) = Orchestrator.messenger o
  /\ (exists log,
        outcome run = Returned log
        /\ (Orchestrator.logs (receiver run) = Orchestrator.logs o
            \/ Orchestrator.logs (receiver run) = (Orchestrator.logs o ++ [log])%list)).
Proof.
  intros run. subst run.
  destruct (Orchestrator.getTask taskId o) as [task|] eqn:Ht.
  2:{ rewrite handleEvent_unknown_task by assumption. cbn.
      repeat split. eexists. split; [reflexivity | now left]. }
  destruct (Orchestrator.getWorkflow (ITask.workflowKey task) o) as [w|] eqn:Hw.
  2:{ rewrite (handleEvent_unknown_workflow _ _ _ _ task) by assumption. cbn.
      repeat split. eexists. split; [reflexivity | now left]. }
  destruct (handleEvent_returns event (Orchestrator.messenger o)
              (Workflow.with_state (Some (ITask.state task)) w))
    as (result & w' & cs & Hrun & Hframe).
  rewrite (handleEvent_dispatch taskId event now o task w result w' cs Ht Hw Hrun).
  cbn [outcome receiver fst snd Orchestrator.tasks Orchestrator.workflows
       Orchestrator.messenger Orchestrator.logs].
  split; [|split; [|split]].
  - destruct (IActionLogData.success result); [|reflexivity].
    unfold Orchestrator.getTask in Ht. now apply (map_replace_first _ _ _ task).
  - unfold Orchestrator.getWorkflow in Hw. apply (map_replace_first _ _ _ w); [exact Hw|].
    now rewrite Hframe.
  - reflexivity.
  - eauto.
Qed.

(** X12. A delivery never creates, deletes or reorders tasks or workflows:
    after [Orchestrator.handleEvent] the task list holds the same tasks
    (ids, workflow keys and creation times, in order), the workflow list
    holds the same workflows up to their current state, the messenger is
    the same, and the log sequence is the old one with at most the returned
    entry appended. Tasks under other ids are exactly what they were. *)
Theorem delivery_frame taskId event now o :
  let run := Orchestrator.handleEvent taskId event now o in
  map Shape.identity (Orchestrator.tasks (receiver run))
  = map Shape.identity (Orchestrator.tasks o)
  /\ map (Workflow.with_state None) (Orchestrator.workflows (receiver run))
     = map (Workflow.with_state None) (Orchestrator.workflows o)
  /\ Orchestrator.messenger (receiver run) = Orchestrator.messenger o
  /\ (exists log,
        outcome run = Returned log
        /\ (Orchestrator.logs (receiver run) = Orchestrator.logs o
            \/ Orchestrator.logs (receiver run) = (Orchestrator.logs o ++ [log])%list))
  /\ (forall other, other <> taskId ->
        Orchestrator.getTask other (receiver run) = Orchestrator.getTask other o).
Proof.
  intros run. destruct (handleEvent_frame taskId event now o) as (H1 & H2 & H3 & H4).
  repeat split; auto. intros other Hne. now apply handleEvent_leaves_other_tasks.
Qed.

(** X13. Hydration: the state a workflow object was left in by an earlier
    call plays no part in a delivery. Replacing the working state of the
    task's workflow by any state, or by none, before the call gives the
    same returned entry, the same callbacks and the same orchestrator
    afterwards. *)
Theorem delivery_ignores_working_state taskId event now o task w s :
  Orchestrator.getTask taskId o = Some task ->
  Orchestrator.getWorkflow (ITask.workflowKey task) o = Some w ->
  Orchestrator.handleEvent taskId event now
    (Orchestrator.with_workflows
       (Orchestrator.replace_first
          (fun u => Workflow.key u =? ITask.workflowKey task)
          (Workflow.with_state s w) (Orchestrator.workflows o)) o)
  = Orchestrator.handleEvent taskId event now o.
Proof.
  intros Ht Hw.
  destruct (handleEvent_returns event (Orchestrator.messenger o)
              (Workflow.with_state (Some (ITask.state task)) w))
    as (result & w' & cs & Hrun & _).
  rewrite (handleEvent_dispatch taskId event now o task w result w' cs Ht Hw Hrun).
  pose proof (getWorkflow_key _ _ _ Hw) as Hkey.
  rewrite (handleEvent_dispatch taskId event now _ task (Workflow.with_state s w)
             result w' cs).
  - cbn [Orchestrator.with_workflows Orchestrator.workflows Orchestrator.tasks
         Orchestrator.logs Orchestrator.messenger].
    rewrite replace_first_again by (now apply String.eqb_eq). reflexivity.
  - exact Ht.
  - now apply (getWorkflow_replaced _ _ w).
  - exact Hrun.
Qed.

Lemma delivery_ignores_working_state_witness :
  Orchestrator.handleEvent "t1" Fixtures.go "2026-01-01T00:00:00.000Z"
    (Orchestrator.with_workflows
       (Orchestrator.replace_first (fun u => Workflow.key u =? "wf")
          (Workflow.with_state None (Fixtures.ready [Fixtures.finishing]))
          (Orchestrator.workflows (Fixtures.orchestrator [Fixtures.finishing])))
       (Fixtures.orchestrator [Fixtures.finishing]))
  = Orchestrator.handleEvent "t1" Fixtures.go "2026-01-01T00:00:00.000Z"
      (Fixtures.orchestrator [Fixtures.finishing]).
Proof.
  exact (delivery_ignores_working_state "t1" Fixtures.go "2026-01-01T00:00:00.000Z"
           (Fixtures.orchestrator [Fixtures.finishing])
           (ITask.mk "t1" "wf" Fixtures.start 0)
           (Fixtures.ready [Fixtures.finishing]) None eq_refl eq_refl).
Defined.

(** ** Deliveries do not interfere *)

Lemma find_map_congr {A : Type} (g : A -> A) (p : A -> bool) :
  (forall x, p (g x) = p x) ->
  forall l1 l2, map g l1 = map g l2 ->
  option_map g (find p l1) = option_map g (find p l2).
Proof.
  intros Hp. induction l1 as [|x l1 IH]; intros [|y l2] E; cbn in *; try discriminate.
  - reflexivity.
  - injection E as Exy E. rewrite <- (Hp x), <- (Hp y), Exy.
    destruct (p (g y)); cbn; [now rewrite Exy | auto].
Qed.

(** What a delivery returns depends on the orchestrator only through the
    addressed task, the messenger and the registries of the workflows. *)
Lemma handleEvent_congruence taskId event now o1 o2 :
  Orchestrator.getTask taskId o1 = Orchestrator.getTask taskId o2 ->
  Orchestrator.messenger o1 = Orchestrator.messenger o2 ->
  (forall k, option_map (Workflow.with_state None) (Orchestrator.getWorkflow k o1)
             = option_map (Workflow.with_state None) (Orchestrator.getWorkflow k o2)) ->
  outcome (Orchestrator.handleEvent taskId event now o1)
  = outcome (Orchestrator.handleEvent taskId event now o2)
  /\ callbacks (Orchestrator.handleEvent taskId event now o1)
     = callbacks (Orchestrator.handleEvent taskId event now o2)
  /\ Orchestrator.committed taskId (receiver (Orchestrator.handleEvent taskId event now o1))
     = Orchestrator.committed taskId (receiver (Orchestrator.handleEvent taskId event now o2)).
Proof.
  intros Ht Hm Hw.
  destruct (Orchestrator.getTask taskId o2) as [task|] eqn:Ht2.
  2:{ rewrite !handleEvent_unknown_task by assumption. cbn.
      unfold Orchestrator.committed. now rewrite Ht, Ht2. }
  specialize (Hw (ITask.workflowKey task)).
  destruct (Orchestrator.getWorkflow (ITask.workflowKey task) o1) as [w1|] eqn:Hw1;
    destruct (Orchestrator.getWorkflow (ITask.workflowKey task) o2) as [w2|] eqn:Hw2;
    try discriminate.
  - cbn [option_map] in Hw.
    apply (f_equal (fun found => found ?? w1)) in Hw. cbn [nullish] in Hw.
    assert (Hhyd : Workflow.with_state (Some (ITask.state task)) w1
                   = Workflow.with_state (Some (ITask.state task)) w2).
    { change (Workflow.with_state (Some (ITask.state task)) (Workflow.with_state None w1)
              = Workflow.with_state (Some (ITask.state task)) (Workflow.with_state None w2)).
      now rewrite Hw. }
    destruct (handleEvent_dispatch_summary taskId event now o1 task w1 Ht Hw1)
      as (r1 & w1' & o1' & cs1 & Hrun1 & Horch1 & _ & Ht1' & _).
    destruct (handleEvent_dispatch_summary taskId event now o2 task w2 Ht2 Hw2)
      as (r2 & w2' & o2' & cs2 & Hrun2 & Horch2 & _ & Ht2' & _).
    rewrite Hm, Hhyd, Hrun2 in Hrun1. injection Hrun1 as <- <- <-.
    rewrite Horch1, Horch2. cbn [outcome receiver callbacks fst snd].
    now rewrite (committed_getTask _ _ _ Ht1'), (committed_getTask _ _ _ Ht2').
  - rewrite (handleEvent_unknown_workflow _ _ _ o1 task) by assumption.
    rewrite (handleEvent_unknown_workflow _ _ _ o2 task) by assumption.
    cbn. unfold Orchestrator.committed. now rewrite Ht, Ht2.
Qed.

(** X14. A delivery to one task leaves no trace in a later delivery to a
    task under another id, even when both tasks run on the same workflow
    object: the later call returns the same entry, makes the same
    callbacks and commits the same state as if the earlier call had not
    happened. *)
Theorem deliveries_do_not_interfere first second event1 now1 event2 now2 o :
  first <> second ->
  let o1 := receiver (Orchestrator.handleEvent first event1 now1 o) in
  outcome (Orchestrator.handleEvent second event2 now2 o1)
  = outcome (Orchestrator.handleEvent second event2 now2 o)
  /\ callbacks (Orchestrator.handleEvent second event2 now2 o1)
     = callbacks (Orchestrator.handleEvent second event2 now2 o)
  /\ Orchestrator.committed second (receiver (Orchestrator.handleEvent second event2 now2 o1))
     = Orchestrator.committed second (receiver (Orchestrator.handleEvent second event2 now2 o)).
Proof.
  intros Hne o1.
  destruct (handleEvent_frame first event1 now1 o) as (_ & Hws & Hm & _).
  fold o1 in Hws, Hm.
  apply handleEvent_congruence.
  - apply handleEvent_leaves_other_tasks. congruence.
  - exact Hm.
  - intros k. unfold Orchestrator.getWorkflow. now apply find_map_congr.
Qed.

Lemma deliveries_do_not_interfere_witness :
  let o := receiver (Orchestrator.initTask "wf" (Some []) "t2" 1
                       (Fixtures.orchestrator [Fixtures.finishing])) in
  let o1 := receiver (Orchestrator.handleEvent "t1" Fixtures.go "2026-01-01T00:00:00.000Z" o) in
  outcome (Orchestrator.handleEvent "t2" Fixtures.go "2026-01-01T00:00:01.000Z" o1)
  = outcome (Orchestrator.handleEvent "t2" Fixtures.go "2026-01-01T00:00:01.000Z" o)
  /\ callbacks (Orchestrator.handleEvent "t2" Fixtures.go "2026-01-01T00:00:01.000Z" o1)
     = callbacks (Orchestrator.handleEvent "t2" Fixtures.go "2026-01-01T00:00:01.000Z" o)
  /\ Orchestrator.committed "t2"
       (receiver (Orchestrator.handleEvent "t2" Fixtures.go "2026-01-01T00:00:01.000Z" o1))
     = Orchestrator.committed "t2"
         (receiver (Orchestrator.handleEvent "t2" Fixtures.go "2026-01-01T00:00:01.000Z" o)).
Proof.
  refine (deliveries_do_not_interfere "t1" "t2" Fixtures.go "2026-01-01T00:00:00.000Z"
            Fixtures.go "2026-01-01T00:00:01.000Z"
            (receiver (Orchestrator.initTask "wf" (Some []) "t2" 1
                         (Fixtures.orchestrator [Fixtures.finishing]))) _).
  discriminate.
Defined.

(** ** The working state and the committed state *)

(** X15. After a delivery that reached the workflow, the workflow's
    current state is the result's [new_state] when the result reports
    success and the state the task had otherwise; it equals the task's
    committed state in every case but one, a success that names no state. *)
Theorem working_state_after_delivery taskId event now o task w :
  Orchestrator.getTask taskId o = Some task ->
  Orchestrator.getWorkflow (ITask.workflowKey task) o = Some w ->
  let run := Orchestrator.handleEvent taskId event now o in
  exists result w',
    outcome run = Returned (Orchestrator.invocationLog task event now result)
    /\ Orchestrator.getWorkflow (ITask.workflowKey task) (receiver run) = Some w'
    /\ Workflow.state w'
       = (if IActionLogData.success result
          then IActionLogData.new_state result
          else Some (ITask.state task))
    /\ ((IActionLogData.success result = true -> IActionLogData.new_state result <> None) ->
        Workflow.state w' = Orchestrator.committed taskId (receiver run))
    /\ Workflow.actions w' = Workflow.actions w
    /\ Workflow.conditions w' = Workflow.conditions w.
Proof.
  intros Ht Hw run. subst run.
  destruct (handleEvent_dispatch_summary taskId event now o task w Ht Hw)
    as (result & w' & o' & cs & Hrun & Horch & _ & Ht' & Hw' & _).
  rewrite Horch. cbn [outcome receiver fst snd].
  destruct (handleEvent_result_state _ _ _ _ _ _ Hrun) as [Hframe _].
  exists result, w'. split; [reflexivity|]. split; [exact Hw'|].
  rewrite (committed_getTask _ _ _ Ht'), Hframe.
  cbn [Workflow.state Workflow.with_state Workflow.actions Workflow.conditions ITask.state
       ITask.with_state].
  repeat split.
  intros Hnamed. destruct (IActionLogData.success result); [|reflexivity].
  destruct (IActionLogData.new_state result); [reflexivity|].
  now destruct (Hnamed eq_refl).
Qed.

Lemma working_state_after_delivery_witness :
  let run := Orchestrator.handleEvent "task-1" Procurement.rfq_uploaded_event
               "2026-01-01T00:00:00.000Z" Procurement.orchestrator in
  let task := ITask.mk "task-1" "rfq_procurement"
                (IState.mk "rfq_uploaded" Procurement.fileUrl) 0 in
  let w := Workflow.with_state (Some (IState.mk "rfq_uploaded" Procurement.fileUrl))
             (Workflow.with_initialStateData Procurement.fileUrl
                Procurement.rfqProcurementWorkflow) in
  exists result w',
    outcome run
    = Returned (Orchestrator.invocationLog task Procurement.rfq_uploaded_event
                  "2026-01-01T00:00:00.000Z" result)
    /\ Orchestrator.getWorkflow "rfq_procurement" (receiver run) = Some w'
    /\ Workflow.state w'
       = (if IActionLogData.success result
          then IActionLogData.new_state result
          else Some (IState.mk "rfq_uploaded" Procurement.fileUrl))
    /\ ((IActionLogData.success result = true -> IActionLogData.new_state result <> None) ->
        Workflow.state w' = Orchestrator.committed "task-1" (receiver run))
    /\ Workflow.actions w' = Workflow.actions w
    /\ Workflow.conditions w' = Workflow.conditions w.
Proof.
  exact (working_state_after_delivery "task-1" Procurement.rfq_uploaded_event
           "2026-01-01T00:00:00.000Z" Procurement.orchestrator
           (ITask.mk "task-1" "rfq_procurement"
              (IState.mk "rfq_uploaded" Procurement.fileUrl) 0)
           (Workflow.with_state (Some (IState.mk "rfq_uploaded" Procurement.fileUrl))
              (Workflow.with_initialStateData Procurement.fileUrl
                 Procurement.rfqProcurementWorkflow))
           eq_refl eq_refl).
Defined.

(** ** The success flag of an entry, again *)

(** X16. An entry is flagged [success] only when an action body ran and
    returned a result under a non-empty action key; that entry is then the
    one appended to the log sequence. No failure of the engine itself (no
    task, no workflow, no state, no trigger, no eligible action, a thrown
    action body) is ever flagged [success]. *)
Theorem logged_success_means_an_action_ran taskId event now o log :
  outcome (Orchestrator.handleEvent taskId event now o) = Returned log ->
  IInvocationLog.success log = true ->
  Resolution.invocations (callbacks (Orchestrator.handleEvent taskId event now o)) = 1
  /\ Orchestrator.logs (receiver (Orchestrator.handleEvent taskId event now o))
     = (Orchestrator.logs o ++ [log])%list
  /\ exists result k,
       IInvocationLog.action_log_data log = Some result
       /\ IActionLogData.action_key result = Some k
       /\ k <> "".
Proof.
  destruct (Orchestrator.getTask taskId o) as [task|] eqn:Ht.
  2:{ rewrite handleEvent_unknown_task by assumption. cbn.
      intros E. injection E as <-. discriminate. }
  destruct (Orchestrator.getWorkflow (ITask.workflowKey task) o) as [w|] eqn:Hw.
  2:{ rewrite (handleEvent_unknown_workflow _ _ _ _ task) by assumption. cbn.
      intros E. injection E as <-. discriminate. }
  destruct (handleEvent_dispatch_summary taskId event now o task w Ht Hw)
    as (result & w' & o' & cs & Hrun & Horch & Hlogs & _).
  rewrite Horch. cbn [outcome receiver callbacks fst snd].
  intros E. injection E as <-. cbn [IInvocationLog.success Orchestrator.invocationLog].
  intros Hs. destruct (handleEvent_result_state _ _ _ _ _ _ Hrun) as [_ Hinv].
  unfold truthy in Hs. destruct (IActionLogData.action_key result) as [k|] eqn:Hk;
    [|discriminate].
  split; [apply Hinv; discriminate|]. split; [exact Hlogs|].
  exists result, k. repeat split; auto.
  intros ->. discriminate.
Qed.

Lemma logged_success_means_an_action_ran_witness :
  Resolution.invocations
    (callbacks (Orchestrator.handleEvent "task-1" Procurement.rfq_uploaded_event
                  "2026-01-01T00:00:00.000Z" Procurement.orchestrator)) = 1
  /\ Orchestrator.logs
       (receiver (Orchestrator.handleEvent "task-1" Procurement.rfq_uploaded_event
                    "2026-01-01T00:00:00.000Z" Procurement.orchestrator))
     = (Orchestrator.logs Procurement.orchestrator
        ++ [Orchestrator.invocationLog
              (ITask.mk "task-1" "rfq_procurement"
                 (IState.mk "rfq_uploaded" Procurement.fileUrl) 0)
              Procurement.rfq_uploaded_event "2026-01-01T00:00:00.000Z"
              (Resolution.settle
                 (Action.invoke Procurement.processRfqAction
                    (IState.mk "rfq_uploaded" Procurement.fileUrl) None))])%list
  /\ exists result k,
       IInvocationLog.action_log_data
         (Orchestrator.invocationLog
            (ITask.mk "task-1" "rfq_procurement"
               (IState.mk "rfq_uploaded" Procurement.fileUrl) 0)
            Procurement.rfq_uploaded_event "2026-01-01T00:00:00.000Z"
            (Resolution.settle
               (Action.invoke Procurement.processRfqAction
                  (IState.mk "rfq_uploaded" Procurement.fileUrl) None)))
       = Some result
       /\ IActionLogData.action_key result = Some k
       /\ k <> "".
Proof.
  exact (logged_success_means_an_action_ran "task-1" Procurement.rfq_uploaded_event
           "2026-01-01T00:00:00.000Z" Procurement.orchestrator
           (Orchestrator.invocationLog
              (ITask.mk "task-1" "rfq_procurement"
                 (IState.mk "rfq_uploaded" Procurement.fileUrl) 0)
              Procurement.rfq_uploaded_event "2026-01-01T00:00:00.000Z"
              (Resolution.settle
                 (Action.invoke Procurement.processRfqAction
                    (IState.mk "rfq_uploaded" Procurement.fileUrl) None)))
           eq_refl eq_refl).
Defined.

(** ** Deliveries when a condition or a guard throws *)

Section ThrowingDelivery.
Variables (faults : Faults.t) (taskId : string) (event : IEvent.t) (now : string)
          (o : Orchestrator.t).

Lemma throwing_unknown_task :
  Orchestrator.getTask taskId o = None ->
  Throwing.Orchestrator_handleEvent faults taskId event now o
  = (Returned (Orchestrator.TaskNotFound taskId event now), o, []).
Proof.
  intros H. unfold Throwing.Orchestrator_handleEvent, bind, gets. now rewrite H.
Qed.

Lemma throwing_unknown_workflow task :
  Orchestrator.getTask taskId o = Some task ->
  Orchestrator.getWorkflow (ITask.workflowKey task) o = None ->
  Throwing.Orchestrator_handleEvent faults taskId event now o
  = (Returned (Orchestrator.WorkflowNotFoundForTask task event now), o, []).
Proof.
  intros Ht Hw. unfold Throwing.Orchestrator_handleEvent, bind, gets. now rewrite Ht, Hw.
Qed.

(** The path through the workflow, whichever way the workflow's call ends:
    an entry is built and pushed only when it returns. *)
Lemma throwing_dispatch task w out w' cs :
  Orchestrator.getTask taskId o = Some task ->
  Orchestrator.getWorkflow (ITask.workflowKey task) o = Some w ->
  Throwing.Workflow_handleEvent faults event (Orchestrator.messenger o)
    (Workflow.with_state (Some (ITask.state task)) w)
  = (out, w', cs) ->
  Workflow.key w' = Workflow.key w ->
  Throwing.Orchestrator_handleEvent faults taskId event now o
  = match out with
    | Returned result =>
        (Returned (Orchestrator.invocationLog task event now result),
         {| Orchestrator.messenger := Orchestrator.messenger o;
            Orchestrator.workflows :=
              Orchestrator.replace_first
                (fun u => Workflow.key u =? ITask.workflowKey task) w'
                (Orchestrator.workflows o);
            Orchestrator.tasks :=
              if IActionLogData.success result
              then Orchestrator.replace_first (fun u => ITask.id u =? taskId)
                     (ITask.with_state
                        (IActionLogData.new_state result ?? ITask.state task) task)
                     (Orchestrator.tasks o)
              else Orchestrator.tasks o;
            Orchestrator.logs :=
              (Orchestrator.logs o
               ++ [Orchestrator.invocationLog task event now result])%list |},
         cs)
    | Thrown err =>
        (Thrown err,
         {| Orchestrator.messenger := Orchestrator.messenger o;
            Orchestrator.workflows :=
              Orchestrator.replace_first
                (fun u => Workflow.key u =? ITask.workflowKey task) w'
                (Orchestrator.workflows o);
            Orchestrator.tasks := Orchestrator.tasks o;
            Orchestrator.logs := Orchestrator.logs o |},
         cs)
    end.
Proof.
  intros Ht Hw Hrun Hkey'.
  pose proof (getTask_id _ _ _ Ht) as Hid.
  pose proof (getWorkflow_key _ _ _ Hw) as Hkey.
  unfold Throwing.Orchestrator_handleEvent.
  unfold bind at 1, gets at 1. rewrite Ht.
  unfold bind at 1, gets at 1. rewrite Hw.
  unfold bind at 1.
  rewrite (onWorkflow_found _ _ _ _ Hw). cbn [Workflow.setState modify].
  unfold bind at 1, gets at 1. cbn [Orchestrator.messenger Orchestrator.with_workflows].
  unfold bind at 1.
  rewrite (onWorkflow_found _ _ _ (Workflow.with_state (Some (ITask.state task)) w))
    by (apply (getWorkflow_replaced _ _ w); [exact Hw | exact Hkey]).
  rewrite Hrun. cbn [Orchestrator.with_workflows Orchestrator.workflows
                     Orchestrator.messenger Orchestrator.tasks Orchestrator.logs].
  rewrite replace_first_again by (now apply String.eqb_eq).
  destruct out as [result|err]; [|reflexivity].
  rewrite Hid.
  destruct (IActionLogData.success result) eqn:Hs.
  - unfold bind, modify, ret, Orchestrator.assignTaskState, Orchestrator.getTask in *.
    cbn. rewrite Ht. cbn. now rewrite !app_nil_r.
  - unfold bind, modify, ret. cbn. now rewrite !app_nil_r.
Qed.

(** Tasks and workflows keep their identities on every path. *)
Lemma throwing_frame :
  let run := Throwing.Orchestrator_handleEvent faults taskId event now o in
  map Shape.identity (Orchestrator.tasks (receiver run))
  = map Shape.identity (Orchestrator.tasks o)
  /\ map (Workflow.with_state None) (Orchestrator.workflows (receiver run))
     = map (Workflow.with_state None) (Orchestrator.workflows o).
Proof.
  intros run. subst run.
  destruct (Orchestrator.getTask taskId o) as [task|] eqn:Ht.
  2:{ now rewrite throwing_unknown_task. }
  destruct (Orchestrator.getWorkflow (ITask.workflowKey task) o) as [w|] eqn:Hw.
  2:{ now rewrite (throwing_unknown_workflow task). }
  destruct (Throwing.Workflow_handleEvent faults event (Orchestrator.messenger o)
              (Workflow.with_state (Some (ITask.state task)) w))
    as [[out w'] cs] eqn:Hrun.
  assert (Hframe : w' = Workflow.with_state (Workflow.state w') w).
  { pose proof (throwing_summary faults event (Orchestrator.messenger o)
                  (Workflow.with_state (Some (ITask.state task)) w)) as Hsum.
    cbv zeta in Hsum. rewrite Hrun in Hsum. cbn [outcome receiver callbacks fst snd] in Hsum.
    destruct Hsum as [(result & _ & -> & _) | (err & st & pre & t & post & _ & -> & _)];
      reflexivity. }
  rewrite (throwing_dispatch task w out w' cs Ht Hw Hrun) by (now rewrite Hframe).
  unfold Orchestrator.getWorkflow in Hw. unfold Orchestrator.getTask in Ht.
  destruct out as [result|err]; cbn [receiver fst snd Orchestrator.tasks Orchestrator.workflows].
  - split.
    + destruct (IActionLogData.success result); [|reflexivity].
      now apply (map_replace_first _ _ _ task).
    + apply (map_replace_first _ _ _ w); [exact Hw | now rewrite Hframe].
  - split; [reflexivity|].
    apply (map_replace_first _ _ _ w); [exact Hw | now rewrite Hframe].
Qed.
End ThrowingDelivery.

(** Where the conditions and guards the delivery reaches answer, this is
    [Orchestrator.handleEvent]. *)
Lemma silent_delivery faults taskId event now o :
  (forall task w triggers,
     Orchestrator.getTask taskId o = Some task ->
     Orchestrator.getWorkflow (ITask.workflowKey task) o = Some w ->
     Resolution.triggersFor event w = Some triggers ->
     Faults.silent faults (ITask.state task) event triggers) ->
  Throwing.Orchestrator_handleEvent faults taskId event now o
  = Orchestrator.handleEvent taskId event now o.
Proof.
  intros Hsilent.
  destruct (Orchestrator.getTask taskId o) as [task|] eqn:Ht.
  2:{ now rewrite throwing_unknown_task, handleEvent_unknown_task. }
  destruct (Orchestrator.getWorkflow (ITask.workflowKey task) o) as [w|] eqn:Hw.
  2:{ now rewrite (throwing_unknown_workflow _ _ _ _ _ task),
                  (handleEvent_unknown_workflow _ _ _ _ task). }
  destruct (handleEvent_returns event (Orchestrator.messenger o)
              (Workflow.with_state (Some (ITask.state task)) w))
    as (result & w' & cs & Hrun & Hframe).
  rewrite (handleEvent_dispatch taskId event now o task w result w' cs Ht Hw Hrun).
  rewrite (throwing_dispatch faults taskId event now o task w (Returned result) w' cs Ht Hw).
  - reflexivity.
  - rewrite silent_Workflow_handleEvent; [exact Hrun|].
    intros state0 triggers Hst Hfor. cbn in Hst. injection Hst as <-.
    now apply (Hsilent task w).
  - now rewrite Hframe.
Qed.

Lemma silent_Orchestrator_handleEvent taskId event now o :
  Throwing.Orchestrator_handleEvent Faults.none taskId event now o
  = Orchestrator.handleEvent taskId event now o.
Proof. apply silent_delivery. intros. apply none_is_silent. Qed.

(** C5, where the code departs from it. The calls of a trigger's
    [condition] and of an action's [canBeInvoked] stand before the [try] in
    [Workflow.handleEvent], and [Orchestrator.handleEvent] has no [try]:
    when one of them throws before a trigger is selected, the delivery
    throws that value. No entry is returned, none is appended, no task
    changes and no action body runs. *)
Theorem throwing_callback_escapes_handleEvent
    faults taskId event now o task w pre trigger post err :
  Orchestrator.getTask taskId o = Some task ->
  Orchestrator.getWorkflow (ITask.workflowKey task) o = Some w ->
  Resolution.triggersFor event w = Some (pre ++ trigger :: post)%list ->
  Forall (fun u => Faults.verdict faults (ITask.state task) event u = Faults.Skipped) pre ->
  Faults.verdict faults (ITask.state task) event trigger = Faults.Faulted err ->
  let run := Throwing.Orchestrator_handleEvent faults taskId event now o in
  outcome run = Thrown err
  /\ Orchestrator.logs (receiver run) = Orchestrator.logs o
  /\ Orchestrator.tasks (receiver run) = Orchestrator.tasks o
  /\ Resolution.invocations (callbacks run) = 0.
Proof.
  intros Ht Hw Hfor Hpre Hv run. subst run.
  pose proof (throwing_trigger_escapes faults event (Orchestrator.messenger o)
                (Workflow.with_state (Some (ITask.state task)) w)
                (ITask.state task) pre trigger post err eq_refl Hfor Hpre Hv) as Hrun.
  rewrite (throwing_dispatch faults taskId event now o task w _ _ _ Ht Hw Hrun eq_refl).
  cbn [outcome receiver callbacks fst snd Orchestrator.logs Orchestrator.tasks].
  repeat split.
  now rewrite invocations_app, invocations_asked, invocations_asked_one.
Qed.

Lemma throwing_callback_escapes_handleEvent_witness :
  let run := Throwing.Orchestrator_handleEvent (Throwers.condition_of "process_rfq")
               "task-1" Procurement.rfq_uploaded_event "2026-01-01T00:00:00.000Z"
               Procurement.orchestrator in
  outcome run = Thrown TypeError
  /\ Orchestrator.logs (receiver run) = Orchestrator.logs Procurement.orchestrator
  /\ Orchestrator.tasks (receiver run) = Orchestrator.tasks Procurement.orchestrator
  /\ Resolution.invocations (callbacks run) = 0.
Proof.
  exact (throwing_callback_escapes_handleEvent (Throwers.condition_of "process_rfq")
           "task-1" Procurement.rfq_uploaded_event "2026-01-01T00:00:00.000Z"
           Procurement.orchestrator
           (ITask.mk "task-1" "rfq_procurement"
              (IState.mk "rfq_uploaded" Procurement.fileUrl) 0)
           (Workflow.with_state (Some (IState.mk "rfq_uploaded" Procurement.fileUrl))
              (Workflow.with_initialStateData Procurement.fileUrl
                 Procurement.rfqProcurementWorkflow))
           []
           (ITrigger.mk Procurement.processRfqAction
              (fun state _ => IState.key state =? "rfq_uploaded"))
           [] TypeError eq_refl eq_refl eq_refl (Forall_nil _) eq_refl).
Defined.

(** A guard that throws escapes the same way; an action body that throws
    does not. *)
Example throwing_guard_and_throwing_body :
  outcome (Throwing.Orchestrator_handleEvent (Throwers.guard_of "process_rfq")
             "task-1" Procurement.rfq_uploaded_event "2026-01-01T00:00:00.000Z"
             Procurement.orchestrator)
  = Thrown TypeError
  /\ option_map IInvocationLog.action_log_data
       (match outcome (Throwing.Orchestrator_handleEvent Faults.none "t1" Fixtures.go
                         "2026-01-01T00:00:00.000Z" (Fixtures.orchestrator [Fixtures.failing]))
        with Returned log => Some log | Thrown _ => None end)
     = Some (Some (Workflow.failure "boom")).
Proof. split; reflexivity. Qed.

(** ** Orchestrators built through the API *)

Lemma tasks_have_workflows_ext o o' :
  map ITask.workflowKey (Orchestrator.tasks o') = map ITask.workflowKey (Orchestrator.tasks o) ->
  map Workflow.key (Orchestrator.workflows o') = map Workflow.key (Orchestrator.workflows o) ->
  Shape.tasks_have_workflows o -> Shape.tasks_have_workflows o'.
Proof.
  unfold Shape.tasks_have_workflows. intros Ht Hw H.
  rewrite Hw.
  apply (Forall_map ITask.workflowKey
           (fun k => In k (map Workflow.key (Orchestrator.workflows o)))).
  rewrite Ht. now apply Forall_map.
Qed.

Lemma registered_is_found k o :
  In k (map Workflow.key (Orchestrator.workflows o)) ->
  exists w, Orchestrator.getWorkflow k o = Some w.
Proof.
  unfold Orchestrator.getWorkflow. induction (Orchestrator.workflows o) as [|w ws IH]; cbn.
  - contradiction.
  - intros [E|Hin].
    + exists w. now rewrite E, String.eqb_refl.
    + destruct (Workflow.key w =? k); eauto.
Qed.

Lemma built_tasks_have_workflows o :
  OrchestratorBuilt o -> Shape.tasks_have_workflows o.
Proof.
  induction 1 as [key ws m | w o _ IH | wk d uuid now o _ IH | tid ev now o _ IH
                  | faults tid ev now o _ IH].
  - constructor.
  - unfold Shape.tasks_have_workflows in *. cbn.
    eapply Forall_impl; [|exact IH]. intros task Hin. cbn in Hin.
    rewrite map_app. apply in_or_app. now left.
  - destruct (Orchestrator.getWorkflow wk o) as [w|] eqn:Hw.
    2:{ now rewrite initTask_unknown_workflow. }
    rewrite (initTask_found wk d uuid now o w Hw). cbn [receiver fst snd].
    assert (Hkeys : map Workflow.key
                      (Orchestrator.replace_first (fun u => Workflow.key u =? wk)
                         (Workflow.with_state
                            (Some (IState.mk (Workflow.initialStateKey w)
                                     (d ?? Workflow.initialStateData w)))
                            (Workflow.with_initialStateData
                               (d ?? Workflow.initialStateData w) w))
                         (Orchestrator.workflows o))
                    = map Workflow.key (Orchestrator.workflows o))
      by (unfold Orchestrator.getWorkflow in Hw; now apply (map_replace_first _ _ _ w)).
    unfold Shape.tasks_have_workflows in *. cbn [Orchestrator.tasks Orchestrator.workflows].
    rewrite Hkeys. apply Forall_app. split; [exact IH|].
    repeat constructor. cbn [ITask.workflowKey].
    unfold Orchestrator.getWorkflow in Hw. apply find_some in Hw as [Hin _].
    now apply in_map.
  - destruct (handleEvent_frame tid ev now o) as (Hts & Hws & _).
    eapply tasks_have_workflows_ext; [| |exact IH].
    + apply (f_equal (map (fun i => snd (fst i)))) in Hts.
      now rewrite !map_map in Hts.
    + apply (f_equal (map Workflow.key)) in Hws. now rewrite !map_map in Hws.
  - destruct (throwing_frame faults tid ev now o) as (Hts & Hws).
    eapply tasks_have_workflows_ext; [| |exact IH].
    + apply (f_equal (map (fun i => snd (fst i)))) in Hts.
      now rewrite !map_map in Hts.
    + apply (f_equal (map Workflow.key)) in Hws. now rewrite !map_map in Hws.
Qed.

(** X17. On an orchestrator built through the API every task names a
    registered workflow, so a delivery to an existing task id always
    reaches the workflow and never ends in the entry of a lookup failure.
    When the workflow's call returns, the entry returned carries the action
    result, the id, the event and the timestamp of the call, and it is
    appended to the log sequence. When it throws, which takes a condition
    or a guard of a trigger of the event that throws in the task's state,
    the delivery throws that value: nothing is appended, no task changes
    and no action body has run. *)
Theorem delivery_to_a_task_is_logged faults taskId event now o task :
  OrchestratorBuilt o ->
  Orchestrator.getTask taskId o = Some task ->
  let run := Throwing.Orchestrator_handleEvent faults taskId event now o in
  (exists log result,
     outcome run = Returned log
     /\ Orchestrator.logs (receiver run) = (Orchestrator.logs o ++ [log])%list
     /\ IInvocationLog.action_log_data log = Some result
     /\ IInvocationLog.task_id log = taskId
     /\ IInvocationLog.event log = event
     /\ IInvocationLog.timestamp log = now
     /\ IInvocationLog.message log = None)
  \/ (exists err w triggers trigger,
        outcome run = Thrown err
        /\ Orchestrator.logs (receiver run) = Orchestrator.logs o
        /\ Orchestrator.tasks (receiver run) = Orchestrator.tasks o
        /\ Resolution.invocations (callbacks run) = 0
        /\ Orchestrator.getWorkflow (ITask.workflowKey task) o = Some w
        /\ Resolution.triggersFor event w = Some triggers
        /\ In trigger triggers
        /\ Faults.verdict faults (ITask.state task) event trigger = Faults.Faulted err).
Proof.
  intros Hb Ht run. subst run.
  pose proof (built_tasks_have_workflows o Hb) as Hthw.
  unfold Shape.tasks_have_workflows in Hthw. rewrite Forall_forall in Hthw.
  pose proof Ht as Hin. unfold Orchestrator.getTask in Hin.
  apply find_some in Hin as [Hin _].
  destruct (registered_is_found _ _ (Hthw task Hin)) as [w Hw].
  destruct (Throwing.Workflow_handleEvent faults event (Orchestrator.messenger o)
              (Workflow.with_state (Some (ITask.state task)) w))
    as [[out w'] cs] eqn:Hrun.
  pose proof (throwing_summary faults event (Orchestrator.messenger o)
                (Workflow.with_state (Some (ITask.state task)) w)) as Hsum.
  cbv zeta in Hsum. rewrite Hrun in Hsum. cbn [outcome receiver callbacks fst snd] in Hsum.
  destruct Hsum
    as [(result & Hout & Hrec & _)
       | (err & st & pre & t & post & Hout & Hrec & Hinv & Hst & Hfor & Hpre & Hv & _)];
    subst out.
  - left.
    rewrite (throwing_dispatch faults taskId event now o task w _ _ _ Ht Hw Hrun)
      by (now rewrite Hrec).
    cbn [outcome receiver fst snd Orchestrator.logs].
    exists (Orchestrator.invocationLog task event now result), result.
    repeat split; auto. cbn. now apply getTask_id in Ht.
  - right.
    rewrite (throwing_dispatch faults taskId event now o task w _ _ _ Ht Hw Hrun)
      by (now rewrite Hrec).
    cbn [outcome receiver callbacks fst snd Orchestrator.logs Orchestrator.tasks].
    cbn in Hst. injection Hst as <-.
    exists err, w, (pre ++ t :: post)%list, t.
    repeat split; auto. apply in_elt.
Qed.

Lemma delivery_to_a_task_is_logged_witness :
  let faults := Throwers.guard_of "process_rfq" in
  let o := Procurement.orchestrator in
  let task := ITask.mk "task-1" "rfq_procurement"
                (IState.mk "rfq_uploaded" Procurement.fileUrl) 0 in
  let run := Throwing.Orchestrator_handleEvent faults "task-1"
               Procurement.rfq_uploaded_event "2026-01-01T00:00:00.000Z" o in
  (exists log result,
     outcome run = Returned log
     /\ Orchestrator.logs (receiver run) = (Orchestrator.logs o ++ [log])%list
     /\ IInvocationLog.action_log_data log = Some result
     /\ IInvocationLog.task_id log = "task-1"
     /\ IInvocationLog.event log = Procurement.rfq_uploaded_event
     /\ IInvocationLog.timestamp log = "2026-01-01T00:00:00.000Z"
     /\ IInvocationLog.message log = None)
  \/ (exists err w triggers trigger,
        outcome run = Thrown err
        /\ Orchestrator.logs (receiver run) = Orchestrator.logs o
        /\ Orchestrator.tasks (receiver run) = Orchestrator.tasks o
        /\ Resolution.invocations (callbacks run) = 0
        /\ Orchestrator.getWorkflow (ITask.workflowKey task) o = Some w
        /\ Resolution.triggersFor Procurement.rfq_uploaded_event w = Some triggers
        /\ In trigger triggers
        /\ Faults.verdict faults (ITask.state task) Procurement.rfq_uploaded_event trigger
           = Faults.Faulted err).
Proof.
  exact (delivery_to_a_task_is_logged (Throwers.guard_of "process_rfq") "task-1"
           Procurement.rfq_uploaded_event
           "2026-01-01T00:00:00.000Z" Procurement.orchestrator
           (ITask.mk "task-1" "rfq_procurement"
              (IState.mk "rfq_uploaded" Procurement.fileUrl) 0)
           (built_initTask "rfq_procurement" (Some Procurement.fileUrl) "task-1" 0 _
              (built_orchestrator "ProcurementAI" [Procurement.rfqProcurementWorkflow] None))
           eq_refl).
Defined.

(** ** Actions that carry an emit descriptor *)

(** X18. When a workflow selects an action of the class with an emit
    descriptor, the result it returns is the body's result with
    [emitEvent] overwritten by the action's own descriptor (erased when the
    action has none), every other field as the body gave it; a thrown body
    gives the usual failure, without descriptor. The descriptor is only
    attached: one action body ran and no further callback was made. *)
Theorem emit_descriptor_is_attached_not_dispatched
    state0 event messenger w eventTriggers pre a condition post :
  Workflow.state w = Some state0 ->
  JsMap.get (IEvent.key event) (Workflow.conditions w) = Some eventTriggers ->
  JsMap.values eventTriggers
  = (pre ++ ITrigger.mk (EmittingAction.asAction a) condition :: post)%list ->
  Forall (fun u => Resolution.passes state0 event u = false) pre ->
  Resolution.passes state0 event (ITrigger.mk (EmittingAction.asAction a) condition) = true ->
  let run := Workflow.handleEvent event messenger w in
  outcome run
  = Returned
      (match EmittingAction._perform a state0 messenger with
       | Returned result => EmittingAction.with_emitEvent (EmittingAction.emitEvent a) result
       | Thrown err => Workflow.ActionInvocationFailed err
       end)
  /\ (forall result, outcome run = Returned result ->
        IActionLogData.emitEvent result
        = match EmittingAction._perform a state0 messenger with
          | Returned _ => EmittingAction.emitEvent a
          | Thrown _ => None
          end)
  /\ callbacks run
     = (flat_map (Resolution.skipped state0 event) pre
        ++ Resolution.selected (ITrigger.mk (EmittingAction.asAction a) condition))%list
  /\ Resolution.invocations (callbacks run) = 1.
Proof.
  intros Hst Hget Hsplit Hpre Hpass run. subst run.
  rewrite (handleEvent_resolves state0 event messenger w eventTriggers pre _ post)
    by eassumption.
  cbn [outcome receiver callbacks fst snd ITrigger.action].
  unfold Action.invoke, EmittingAction.asAction. cbn [Action._perform].
  unfold EmittingAction.invoke.
  assert (Hres : Resolution.settle
                   match EmittingAction._perform a state0 messenger with
                   | Returned result =>
                       Returned (EmittingAction.with_emitEvent (EmittingAction.emitEvent a) result)
                   | Thrown err => Thrown err
                   end
                 = match EmittingAction._perform a state0 messenger with
                   | Returned result =>
                       EmittingAction.with_emitEvent (EmittingAction.emitEvent a) result
                   | Thrown err => Workflow.ActionInvocationFailed err
                   end)
    by (now destruct (EmittingAction._perform a state0 messenger)).
  rewrite Hres. split; [reflexivity|]. split; [|split; [reflexivity|]].
  - intros result E. injection E as <-.
    now destruct (EmittingAction._perform a state0 messenger).
  - now rewrite invocations_app, invocations_skipped.
Qed.

Lemma emit_descriptor_is_attached_not_dispatched_witness :
  let a := EmittingAction.mk "emitting" "returns a descriptor of its own" None
             Fixtures.always
             (fun _ _ =>
                Returned
                  (EmittingAction.with_emitEvent (Some (IEmitEvent.mk "next"))
                     (Fixtures.result (Some "emitting") true None))) in
  let w := Workflow.with_state (Some Fixtures.start)
             (Fixtures.workflow [EmittingAction.asAction a]) in
  let run := Workflow.handleEvent Fixtures.go None w in
  outcome run = Returned (Fixtures.result (Some "emitting") true None)
  /\ (forall result, outcome run = Returned result ->
        IActionLogData.emitEvent result = None)
  /\ callbacks run
     = [CallCondition "emitting"; CallCanBeInvoked "emitting"; CallInvoke "emitting"]
  /\ Resolution.invocations (callbacks run) = 1.
Proof.
  exact (emit_descriptor_is_attached_not_dispatched Fixtures.start Fixtures.go None
           (Workflow.with_state (Some Fixtures.start)
              (Fixtures.workflow
                 [EmittingAction.asAction
                    (EmittingAction.mk "emitting" "returns a descriptor of its own" None
                       Fixtures.always
                       (fun _ _ =>
                          Returned
                            (EmittingAction.with_emitEvent (Some (IEmitEvent.mk "next"))
                               (Fixtures.result (Some "emitting") true None))))]))
           [("emitting",
             ITrigger.mk
               (EmittingAction.asAction
                  (EmittingAction.mk "emitting" "returns a descriptor of its own" None
                     Fixtures.always
                     (fun _ _ =>
                        Returned
                          (EmittingAction.with_emitEvent (Some (IEmitEvent.mk "next"))
                             (Fixtures.result (Some "emitting") true None)))))
               Fixtures.anywhere)]
           []
           (EmittingAction.mk "emitting" "returns a descriptor of its own" None
              Fixtures.always
              (fun _ _ =>
                 Returned
                   (EmittingAction.with_emitEvent (Some (IEmitEvent.mk "next"))
                      (Fixtures.result (Some "emitting") true None))))
           Fixtures.anywhere []
           eq_refl eq_refl eq_refl (Forall_nil _) eq_refl).
Defined.

(** ** Messages and the messenger's store *)

(** X19. [registerMessage] then [getMessage]: the message is found under
    its own key, every other key answers as before, and registering under
    a key already in use replaces the stored message without growing the
    store. The recipient roles are not touched. *)
Theorem registerMessage_then_getMessage {T : Type}
    (message : Message.t T) (self : MessengerOf.t T) :
  let self' := receiver (MessengerOf.registerMessage message self) in
  (forall key,
     outcome (MessengerOf.getMessage key self')
     = Returned (if Message.getKey message =? key then Some message
                 else JsMap.get key (MessengerOf.messages self)))
  /\ JsMap.size (MessengerOf.messages self')
     = (if JsMap.has (Message.getKey message) (MessengerOf.messages self)
        then JsMap.size (MessengerOf.messages self)
        else S (JsMap.size (MessengerOf.messages self)))
  /\ MessengerOf.recipientRoles self' = MessengerOf.recipientRoles self.
Proof.
  cbn. split; [|split; [|reflexivity]].
  - intros key. unfold MessengerOf.getMessage, gets. cbn. f_equal.
    destruct (String.eqb_spec (Message.getKey message) key) as [<-|Hne].
    + apply get_set_same.
    + apply get_set_other. congruence.
  - destruct (JsMap.has (Message.getKey message) (MessengerOf.messages self)) eqn:H.
    + now apply size_set_present.
    + rewrite set_fresh by assumption. unfold JsMap.size.
      rewrite length_app. cbn. lia.
Qed.

Lemma trimStartChars_nil cs :
  JsString.trimStartChars cs = [] <-> forallb JsString.isWhiteSpace cs = true.
Proof.
  induction cs as [|c cs IH]; cbn; [tauto|].
  destruct (JsString.isWhiteSpace c); cbn; [exact IH|].
  split; discriminate.
Qed.

Lemma forallb_rev {A : Type} (f : A -> bool) (l : list A) :
  forallb f (rev l) = forallb f l.
Proof.
  induction l as [|x l IH]; cbn; [reflexivity|].
  rewrite forallb_app, IH. cbn. rewrite andb_true_r. apply andb_comm.
Qed.

Lemma trimStartChars_blank cs :
  forallb JsString.isWhiteSpace (JsString.trimStartChars cs) = true ->
  JsString.trimStartChars cs = [].
Proof.
  induction cs as [|c cs IH]; cbn; [reflexivity|].
  destruct (JsString.isWhiteSpace c) eqn:E; [exact IH|].
  cbn. rewrite E. discriminate.
Qed.

Lemma trimChars_nil cs :
  JsString.trimChars cs = [] <-> forallb JsString.isWhiteSpace cs = true.
Proof.
  unfold JsString.trimChars. rewrite <- trimStartChars_nil. split.
  - intros H. apply (f_equal (@rev _)) in H. rewrite rev_involutive in H. cbn in H.
    apply trimStartChars_nil in H. rewrite forallb_rev in H.
    now apply trimStartChars_blank.
  - intros ->. reflexivity.
Qed.

Lemma length_string_of_list cs : String.length (string_of_list_ascii cs) = length cs.
Proof. induction cs as [|c cs IH]; cbn; congruence. Qed.

(** X20. [new Message(key, message)] throws exactly when the key is empty
    or made of white space only; otherwise the message keeps the key as
    given, not trimmed, and [getKey], [getMessage] and [toObject] hand back
    what the constructor received. *)
Theorem message_key_must_not_be_blank {T : Type} (key : string) (payload : T) :
  Message.new key payload
  = (if forallb JsString.isWhiteSpace (list_ascii_of_string key)
     then Thrown (Error "Message key must be a non-empty string")
     else Returned (Message.mk key payload))
  /\ (forall m, Message.new key payload = Returned m ->
        Message.getKey m = key
        /\ Message.getMessage m = payload
        /\ Message.toObject m = (key, payload)).
Proof.
  assert (E : Message.new key payload
              = if forallb JsString.isWhiteSpace (list_ascii_of_string key)
                then Thrown (Error "Message key must be a non-empty string")
                else Returned (Message.mk key payload)).
  { unfold Message.new, JsString.trim. rewrite length_string_of_list.
    destruct (forallb JsString.isWhiteSpace (list_ascii_of_string key)) eqn:Hblank.
    - apply trimChars_nil in Hblank. now rewrite Hblank.
    - destruct (JsString.trimChars (list_ascii_of_string key)) eqn:Htrim; [|reflexivity].
      apply trimChars_nil in Htrim. congruence. }
  split; [exact E|]. rewrite E.
  destruct (forallb JsString.isWhiteSpace (list_ascii_of_string key)); [discriminate|].
  intros m Hm. injection Hm as <-. now cbn.
Qed.

Example message_keys :
  Message.new "" 1 = Thrown (Error "Message key must be a non-empty string")
  /\ Message.new "  " 1 = Thrown (Error "Message key must be a non-empty string")
  /\ Message.new " welcome " 1 = Returned (Message.mk " welcome " 1).
Proof. repeat split. Qed.

(** ** Logs, tasks and workflows only grow *)

(** X21. Whatever public methods are called, in whatever order and with
    whatever outcome, the orchestrator only appends: the log sequence
    keeps its entries as a prefix, the task list keeps its tasks (ids,
    workflow keys and creation times) as a prefix, and so does the list of
    workflow keys. Nothing is ever removed or reordered. *)
Theorem orchestrator_only_appends o o' :
  Reaches o o' ->
  exists entries tasks keys,
    Orchestrator.logs o' = (Orchestrator.logs o ++ entries)%list
    /\ map Shape.identity (Orchestrator.tasks o')
       = (map Shape.identity (Orchestrator.tasks o) ++ map Shape.identity tasks)%list
    /\ map Workflow.key (Orchestrator.workflows o')
       = (map Workflow.key (Orchestrator.workflows o) ++ keys)%list.
Proof.
  induction 1 as [| w o' _ IH | wk d uuid now o' _ IH | tid ev now o' _ IH].
  - exists [], [], []. cbn. now rewrite !app_nil_r.
  - destruct IH as (entries & tasks & keys & Hl & Ht & Hw).
    exists entries, tasks, (keys ++ [Workflow.key w])%list. cbn.
    repeat split; auto. now rewrite map_app, Hw, app_assoc.
  - destruct IH as (entries & tasks & keys & Hl & Ht & Hw).
    destruct (Orchestrator.getWorkflow wk o') as [w|] eqn:Hfound.
    2:{ rewrite initTask_unknown_workflow by assumption. cbn [receiver fst snd].
        exists entries, tasks, keys. auto. }
    rewrite (initTask_found wk d uuid now o' w Hfound).
    cbn [receiver fst snd Orchestrator.logs Orchestrator.tasks Orchestrator.workflows].
    eexists entries, (tasks ++ [_])%list, keys. split; [exact Hl|]. split.
    + rewrite !map_app, Ht, app_assoc. reflexivity.
    + rewrite <- Hw. unfold Orchestrator.getWorkflow in Hfound.
      now apply (map_replace_first _ _ _ w).
  - destruct IH as (entries & tasks & keys & Hl & Ht & Hw).
    destruct (handleEvent_frame tid ev now o') as (Hts & Hws & _ & log & _ & Hlogs).
    apply (f_equal (map Workflow.key)) in Hws. rewrite !map_map in Hws. cbn in Hws.
    destruct Hlogs as [Hlogs|Hlogs].
    + exists entries, tasks, keys. rewrite Hlogs, Hts, Hl, Ht, <- Hw. auto.
    + exists (entries ++ [log])%list, tasks, keys.
      rewrite Hlogs, Hts, Hl, Ht, <- Hw, app_assoc. auto.
Qed.

Lemma orchestrator_only_appends_witness :
  exists entries tasks keys,
    Orchestrator.logs
      (receiver (Orchestrator.handleEvent "task-1" Procurement.rfq_uploaded_event
                   "2026-01-01T00:00:00.000Z" Procurement.orchestrator))
    = (Orchestrator.logs Procurement.orchestrator0 ++ entries)%list
    /\ map Shape.identity
         (Orchestrator.tasks
            (receiver (Orchestrator.handleEvent "task-1" Procurement.rfq_uploaded_event
                         "2026-01-01T00:00:00.000Z" Procurement.orchestrator)))
       = (map Shape.identity (Orchestrator.tasks Procurement.orchestrator0)
          ++ map Shape.identity tasks)%list
    /\ map Workflow.key
         (Orchestrator.workflows
            (receiver (Orchestrator.handleEvent "task-1" Procurement.rfq_uploaded_event
                         "2026-01-01T00:00:00.000Z" Procurement.orchestrator)))
       = (map Workflow.key (Orchestrator.workflows Procurement.orchestrator0) ++ keys)%list.
Proof.
  exact (orchestrator_only_appends Procurement.orchestrator0 _
           (reaches_delivery _ "task-1" Procurement.rfq_uploaded_event
              "2026-01-01T00:00:00.000Z" _
              (reaches_initTask _ "rfq_procurement" (Some Procurement.fileUrl) "task-1" 0 _
                 (reaches_refl _)))).
Defined.
